(** * SPN transport core: terminal framing, duplex flow queue, access tokens

    A shallow embedding of the parts of the SPN code base that the
    specification makes claims about:

    - [terminal]: the ID|Type message header ([AddIDType], [ParseIDType])
      and the [DuplexFlowQueue] ([Deliver], [reportableRecvSpace]);
    - [token]: the partially blind token handler ([PBlindHandler]);
    - [hub]: [ParseBootstrapHub];

    and of the code around them: the message frames ([MakeMsg]), the
    worker of the flow queue ([FlowHandler], [Send], [Receive]) with two
    queues facing each other, the issuer's side of the token handler
    ([CreateSetup]), and the init procedures of the crane ([startRemote],
    [handleCraneHubInfo], [endInit]).

    Integers are [Z] with the wrap-around of their Go type written out.
    Bytes are [Z] in the range 0..255.  Pointers that the code dereferences
    are [option]s, and a nil dereference or an index out of range is the
    outcome [Panic]. *)

From Stdlib Require Import ZArith List Lia Bool String Ascii Permutation.
Import ListNotations.
Open Scope Z_scope.

(** ** Machine integers *)

Definition u8 (x : Z) : Z := x mod 2 ^ 8.
Definition u16 (x : Z) : Z := x mod 2 ^ 16.
Definition u32 (x : Z) : Z := x mod 2 ^ 32.
Definition u64 (x : Z) : Z := x mod 2 ^ 64.

Definition MinInt32 : Z := - 2 ^ 31.
Definition MaxInt32 : Z := 2 ^ 31 - 1.

(** Conversion to [int32]: keep the low 32 bits, read them as two's
    complement. *)
Definition int32 (x : Z) : Z := (x + 2 ^ 31) mod 2 ^ 32 - 2 ^ 31.

Definition add32 (a b : Z) : Z := int32 (a + b).
Definition sub32 (a b : Z) : Z := int32 (a - b).

Definition is_int32 (x : Z) : Prop := MinInt32 <= x <= MaxInt32.
Definition is_u32 (x : Z) : Prop := 0 <= x < 2 ^ 32.

(** [len] of a slice or of the buffer of a channel. *)
Definition len {A : Type} (l : list A) : Z := Z.of_nat (List.length l).

(** ** Outcomes of fallible code *)

Inductive outcome (E A : Type) : Type :=
| Ok (a : A)
| Err (e : E)
| Panic.
Arguments Ok {E A} a.
Arguments Err {E A} e.
Arguments Panic {E A}.

(** ** Varints (encoding/binary and portbase/formats/varint) *)

Module varint.

Definition MaxVarintLen64 : Z := 10.

(** [binary.PutUvarint(buf, x)] for a buffer of [buflen] bytes; the result
    is the written prefix [buf[:w]].  Writing past the buffer panics in
    Go: [None]. *)
Fixpoint PutUvarint (buflen : nat) (x : Z) : option (list Z) :=
  match buflen with
  | O => None
  | S n =>
      if 0x80 <=? x
      then option_map (cons (Z.lor (u8 x) 0x80)) (PutUvarint n (Z.shiftr x 7))
      else Some [u8 x]
  end.

(** [binary.Uvarint(buf)]: the loop over [buf] at index [i], with the
    accumulator [x] and the shift [s].  Returns the value and the number
    of bytes read; 0 bytes is "buffer too small", a negative number is
    "overflow". *)
Fixpoint Uvarint_loop (buf : list Z) (i x s : Z) : Z * Z :=
  match buf with
  | [] => (0, 0)
  | b :: rest =>
      if i =? MaxVarintLen64 then (0, - (i + 1))
      else if b <? 0x80 then
        if (i =? MaxVarintLen64 - 1) && (1 <? b) then (0, - (i + 1))
        else (Z.lor x (u64 (Z.shiftl b s)), i + 1)
      else Uvarint_loop rest (i + 1) (Z.lor x (u64 (Z.shiftl (Z.land b 0x7f) s))) (s + 7)
  end.

Definition Uvarint (buf : list Z) : Z * Z := Uvarint_loop buf 0 0 0.

Inductive VarintError : Type :=
| ErrEOF         (* could not decode varint, encountered EOF *)
| ErrOverflow    (* varint is too large: overflow *)
| ErrTooBig.     (* encoded integer greater than the target type *)

(** [Unpack16], [Unpack32]: decode and check the range of the target
    type. *)
Definition unpack (max : Z) (blob : list Z) : outcome VarintError (Z * Z) :=
  let '(n, r) := Uvarint blob in
  if r =? 0 then Err ErrEOF
  else if r <? 0 then Err ErrOverflow
  else if max <? n then Err ErrTooBig
  else Ok (n, r).

Definition Unpack16 : list Z -> outcome VarintError (Z * Z) := unpack 65535.
Definition Unpack32 : list Z -> outcome VarintError (Z * Z) := unpack 4294967295.

(** [Pack32(n)]: a five byte buffer, which a [uint32] always fits
    ([PutUvarint_fits] below); the unreachable panic is the empty list. *)
Definition Pack32 (n : Z) : list Z :=
  match PutUvarint 5 (u32 n) with Some b => b | None => [] end.

(** [Pack64(n)]: a ten byte buffer. *)
Definition Pack64 (n : Z) : list Z :=
  match PutUvarint 10 (u64 n) with Some b => b | None => [] end.

End varint.

(** ** Containers (portbase/container)

    A container is a list of compartments read from the front.  Only the
    concatenation of the compartments matters to the operations used
    here, so a container is its remaining bytes. *)

Module container.

Definition Container : Type := list Z.

Definition New : Container := [].

Definition Prepend (c : Container) (data : list Z) : Container := data ++ c.
Definition Append (c : Container) (data : list Z) : Container := c ++ data.

(** [AppendNumber], [AppendInt]: append the number as a varint;
    [AppendAsBlock]: append the length of the data, then the data. *)
Definition AppendNumber (c : Container) (n : Z) : Container :=
  Append c (varint.Pack64 n).
Definition AppendInt (c : Container) (n : Z) : Container :=
  Append c (varint.Pack64 n).
Definition AppendAsBlock (c : Container) (data : list Z) : Container :=
  Append (AppendNumber c (Z.of_nat (List.length data))) data.

Definition CompileData (c : Container) : list Z := c.

Definition HoldsData (c : Container) : bool :=
  match c with [] => false | _ :: _ => true end.

(** [gather(n)]: up to [n] leading bytes; [skip(n)]: drop [n] bytes. *)
Definition gather (n : nat) (c : Container) : list Z := firstn n c.
Definition skip (n : Z) (c : Container) : Container := skipn (Z.to_nat n) c.

(** [GetNextN16]: reads a varint of at most 16 bits from at most three
    bytes. *)
Definition GetNextN16 (c : Container) : outcome varint.VarintError (Z * Container) :=
  match varint.Unpack16 (gather 3 c) with
  | Ok (num, n) => Ok (u16 num, skip n c)
  | Err e => Err e
  | Panic => Panic
  end.

(** [GetNextN32]: reads a varint of at most 32 bits from at most five
    bytes. *)
Definition GetNextN32 (c : Container) : outcome varint.VarintError (Z * Container) :=
  match varint.Unpack32 (gather 5 c) with
  | Ok (num, n) => Ok (u32 num, skip n c)
  | Err e => Err e
  | Panic => Panic
  end.

End container.

(** ** Terminal message header *)

Module terminal_msg.
Import container.

(** [type MsgType uint8] *)
Definition MsgType : Type := Z.
Definition MsgTypeInit : MsgType := 1.
Definition MsgTypeData : MsgType := 2.
Definition MsgTypeStop : MsgType := 3.

(** [AddIDType] prepends the ID and Type header to the message. *)
Definition AddIDType (c : Container) (id : Z) (msgType : MsgType) : Container :=
  Prepend c (varint.Pack32 (Z.lor id (u32 msgType))).

Definition ParseIDType (c : Container) : outcome varint.VarintError (Z * MsgType * Container) :=
  match GetNextN32 c with
  | Ok (idType, c') =>
      let msgType := u8 (idType mod 4) in
      Ok (u32 (idType - u32 msgType), msgType, c')
  | Err e => Err e
  | Panic => Panic
  end.

(** The three message types that are sent. *)
Definition is_msg_type (m : MsgType) : Prop :=
  m = MsgTypeInit \/ m = MsgTypeData \/ m = MsgTypeStop.

End terminal_msg.

(** ** Duplex flow queue *)

Module terminal.
Import container.

Inductive Error : Type :=
| ErrMalformedData (msg : string)
| ErrQueueOverflow
| ErrStopping.

(** The buffered channels are their buffers, oldest element first; the
    one-slot signal channels [wakeSender] and [forceSpaceReport] are
    [true] when their slot is taken.  A non-blocking send goes through
    when the buffer has a free slot; no receiver is taken to be waiting on
    the channel.  [queueSize] is the capacity of [sendQueue] and
    [recvQueue]; [sendSpace] and [reportedSpace] are [int32]. *)
Record DuplexFlowQueue : Type := mkDFQ {
  queueSize : Z;
  sendQueue : list Container;
  sendSpace : Z;
  wakeSender : bool;
  recvQueue : list Container;
  reportedSpace : Z;
  forceSpaceReport : bool
}.

Definition cap (dfq : DuplexFlowQueue) : Z := queueSize dfq.

Definition NewDuplexFlowQueue (queueSize : Z) : DuplexFlowQueue :=
  {| queueSize := queueSize;
     sendQueue := [];
     sendSpace := int32 queueSize;
     wakeSender := false;
     recvQueue := [];
     reportedSpace := int32 queueSize;
     forceSpaceReport := false |}.

Definition set_sendSpace (dfq : DuplexFlowQueue) (v : Z) (wake : bool) : DuplexFlowQueue :=
  {| queueSize := queueSize dfq;
     sendQueue := sendQueue dfq;
     sendSpace := v;
     wakeSender := wake;
     recvQueue := recvQueue dfq;
     reportedSpace := reportedSpace dfq;
     forceSpaceReport := forceSpaceReport dfq |}.

Definition set_recv (dfq : DuplexFlowQueue) (q : list Container) (reported : Z) (force : bool)
  : DuplexFlowQueue :=
  {| queueSize := queueSize dfq;
     sendQueue := sendQueue dfq;
     sendSpace := sendSpace dfq;
     wakeSender := wakeSender dfq;
     recvQueue := q;
     reportedSpace := reported;
     forceSpaceReport := force |}.

Section FlowQueue.

(** [int32(float32(cap(dfq.recvQueue))*forceReportBelowPercent)], the
    level of [reportedSpace] below which a space report is forced, as a
    function of the capacity.  It is computed in floating point and is
    left open here. *)
Variable forceReportBelow : Z -> Z.

(** [atomic.AddInt32(dfq.reportedSpace, -1) < ...] *)
Definition decrementReportedRecvSpace (dfq : DuplexFlowQueue) : Z * bool :=
  let v := add32 (reportedSpace dfq) (-1) in
  (v, v <? forceReportBelow (cap dfq)).

(** [atomic.AddInt32(dfq.sendSpace, n)], then a non-blocking send on
    [wakeSender]: afterwards its slot is taken. *)
Definition addToSendSpace (dfq : DuplexFlowQueue) (n : Z) : DuplexFlowQueue :=
  set_sendSpace dfq (add32 (sendSpace dfq) n) true.

(** [reportableRecvSpace] returns how much free space can be reported
    to the other end. *)
Definition reportableRecvSpace (dfq : DuplexFlowQueue) : DuplexFlowQueue * Z :=
  let reported := reportedSpace dfq in
  let toReport := sub32 (int32 (cap dfq - len (recvQueue dfq))) reported in
  if toReport <=? 1 then (dfq, 0)
  else (set_recv dfq (recvQueue dfq) (add32 reported toReport) (forceSpaceReport dfq),
        toReport).

(** [Deliver] submits a container for receiving from upstream.  The
    argument is a pointer: [None] is nil.  The container that is put on
    [recvQueue] is [c] after the leading varint has been read off. *)
Definition Deliver (dfq : DuplexFlowQueue) (c : option Container)
  : DuplexFlowQueue * option Error :=
  match c with
  | None => (dfq, Some (ErrMalformedData "no data"%string))
  | Some c =>
      match GetNextN16 c with
      | Ok (addSpace, c) =>
          let dfq := if 0 <? addSpace then addToSendSpace dfq (int32 addSpace) else dfq in
          if negb (HoldsData c) then (dfq, None)
          else if len (recvQueue dfq) <? cap dfq then
            let '(reported, shouldReportRecvSpace) := decrementReportedRecvSpace dfq in
            (set_recv dfq (recvQueue dfq ++ [c]) reported
               (if shouldReportRecvSpace then true else forceSpaceReport dfq),
             None)
          else (dfq, Some ErrQueueOverflow)
      | _ => (dfq, Some (ErrMalformedData "failed to parse reported space"%string))
      end
  end.

End FlowQueue.

End terminal.

(** ** Access tokens: the partially blind token handler *)

Module token.

Inductive TokenError : Type :=
| ErrEmpty
| ErrZoneMismatch
| ErrTokenMalformed (msg : string)
| ErrTokenInvalid
| ErrTokenUsed (msg : string)
| ErrOther (msg : string).

(** What the handler uses of its libraries: the partially blind
    signature scheme (rot256/pblind), whose stateful signer and requester
    objects are passed through explicitly, the dsd serialization of
    tokens and of the storage, and the shuffle of math/rand.  A library
    call that returns an error is [inl]. *)
Class PBlindLib : Type := {
  Curve : Type;
  PublicKey : Type;
  Info : Type;
  Signature : Type;
  Message1 : Type;
  Message2 : Type;
  Message3 : Type;
  StateSigner : Type;
  StateRequester : Type;
  CompressInfo : Curve -> list Z -> string + Info;
  Check : PublicKey -> Signature -> Info -> list Z -> bool;
  CreateRequester : PublicKey -> Info -> list Z -> string + StateRequester;
  requester_ProcessMessage1 : StateRequester -> Message1 -> StateRequester * option string;
  requester_CreateMessage2 : StateRequester -> StateRequester * (string + Message2);
  requester_ProcessMessage3 : StateRequester -> Message3 -> StateRequester * option string;
  requester_Signature : StateRequester -> string + Signature;
  signer_ProcessMessage2 : StateSigner -> Message2 -> StateSigner * option string;
  signer_CreateMessage3 : StateSigner -> StateSigner * (string + Message3);
  Shuffle : forall A : Type, Z -> list A -> list A
}.

Definition pblindSecretSize : Z := 32.

Section Handler.
Context {L : PBlindLib}.

(** [PBlindToken]; [Signature] is a pointer. *)
Record PBlindToken : Type := mkPBlindToken {
  Serial : Z;
  Token_ : list Z;
  Signature_ : option Signature
}.

(** [Token]: the packed token with its zone. *)
Record Token : Type := mkToken {
  Zone : string;
  Data : list Z
}.

(** [PBlindOptions].  [SignalShouldRequest] records whether the callback
    is set; [DoubleSpendProtection] is the callback, if set. *)
Record PBlindOptions : Type := mkPBlindOptions {
  opt_Zone : string;
  opt_Curve : Curve;
  UseSerials : bool;
  BatchSize : Z;
  RandomizeOrder : bool;
  SignalShouldRequest : bool;
  DoubleSpendProtection : option (list Z -> option string);
  Fallback : bool
}.

Record RequestState : Type := mkRequestState {
  rs_Token : list Z;
  rs_State : option StateRequester
}.

(** [PBlindHandler].  [Storage] is a slice of pointers to tokens. *)
Record PBlindHandler : Type := mkPBlindHandler {
  opts : PBlindOptions;
  publicKey : PublicKey;
  Storage : list (option PBlindToken);
  requestState : list RequestState
}.

(** The dsd serialization: [dsd.Load] into a [PBlindStorage] and into a
    [PBlindToken], [dsd.Dump] of both. *)
Record Dsd : Type := mkDsd {
  Load_storage : list Z -> string + list (option PBlindToken);
  Dump_storage : list (option PBlindToken) -> string + list Z;
  Load_token : list Z -> string + PBlindToken;
  Dump_token : option PBlindToken -> string + list Z
}.

Variable dsd : Dsd.

Definition with_Storage (pbh : PBlindHandler) (st : list (option PBlindToken)) : PBlindHandler :=
  {| opts := opts pbh; publicKey := publicKey pbh;
     Storage := st; requestState := requestState pbh |}.

Definition with_requestState (pbh : PBlindHandler) (rs : list RequestState) : PBlindHandler :=
  {| opts := opts pbh; publicKey := publicKey pbh;
     Storage := Storage pbh; requestState := rs |}.

Definition bytes_of_string (s : string) : list Z :=
  map (fun a => Z.of_N (N_of_ascii a)) (list_ascii_of_string s).

Definition makeInfo (pbh : PBlindHandler) (serial : Z) : string + Info :=
  let infoData := container.AppendAsBlock container.New (bytes_of_string (opt_Zone (opts pbh))) in
  let infoData :=
    if UseSerials (opts pbh) then container.AppendInt infoData serial else infoData in
  CompressInfo (opt_Curve (opts pbh)) (container.CompileData infoData).

(** [shouldRequest]: "Return true if storage is at or below 10%."  The
    division is Go's integer division, which truncates. *)
Definition shouldRequest (pbh : PBlindHandler) : bool :=
  (len (Storage pbh) =? 0) || (10 <? Z.quot (BatchSize (opts pbh)) (len (Storage pbh))).

Definition ShouldRequest (pbh : PBlindHandler) : bool := shouldRequest pbh.

Definition Amount (pbh : PBlindHandler) : Z := len (Storage pbh).

(** [make([]T, n)] and the assignment [l[i] = f(l[i])], which is only
    reached for an index in range. *)
Definition make {A : Type} (n : Z) (zero : A) : list A := repeat zero (Z.to_nat n).

Fixpoint update {A : Type} (i : nat) (f : A -> A) (l : list A) : list A :=
  match l, i with
  | [], _ => []
  | x :: l', O => f x :: l'
  | x :: l', S i' => x :: update i' f l'
  end.

Definition zeroRequestState : RequestState := {| rs_Token := []; rs_State := None |}.

Definition set_Token (rs : list RequestState) (i : nat) (token : list Z) : list RequestState :=
  update i (fun r => {| rs_Token := token; rs_State := rs_State r |}) rs.

Definition set_State (rs : list RequestState) (i : nat) (st : StateRequester) : list RequestState :=
  update i (fun r => {| rs_Token := rs_Token r; rs_State := Some st |}) rs.

(** The message batches [PBlindSetupResponse], [PBlindTokenRequest] and
    [IssuedPBlindTokens] are structs with the single field [Msgs], a
    slice of pointers; [PBlindSignerState] holds the slice [signers],
    which only [CreateSetup] builds, with every slot filled. *)
Definition PBlindSetupResponse : Type := list (option Message1).
Definition PBlindTokenRequest : Type := list (option Message2).
Definition IssuedPBlindTokens : Type := list (option Message3).
Definition PBlindSignerState : Type := list StateSigner.

(** One call of [rand.Read(token)]: the bytes read into [token], their
    number [n] and the error. *)
Record Draw : Type := mkDraw {
  draw_token : list Z;
  draw_n : Z;
  draw_err : option string
}.

(** The batch loop of [CreateTokenRequest], at index [i] with [n]
    rounds to go.  The requester state is stored in [requestState]
    before it is used, so the state left behind by a failing round is
    the one already advanced. *)
Fixpoint CreateTokenRequest_loop (pbh : PBlindHandler) (requestSetup : PBlindSetupResponse)
    (rnd : nat -> Draw) (n i : nat) (rs : list RequestState) (request : PBlindTokenRequest)
  : list RequestState * outcome TokenError PBlindTokenRequest :=
  match n with
  | O => (rs, Ok request)
  | S n' =>
      match nth_error requestSetup i with
      | None => (rs, Panic)
      | Some None => (rs, Err (ErrOther "missing setup data"))
      | Some (Some msg1) =>
          let d := rnd i in
          match draw_err d with
          | Some _ => (rs, Err (ErrOther "failed to get random token"))
          | None =>
              if negb (draw_n d =? pblindSecretSize)
              then (rs, Err (ErrOther "failed to get full random token"))
              else
                let token := draw_token d in
                let rs := set_Token rs i token in
                match makeInfo pbh (Z.of_nat i + 1) with
                | inl _ => (rs, Err (ErrOther "failed to make token info"))
                | inr info =>
                    match CreateRequester (publicKey pbh) info token with
                    | inl _ => (rs, Err (ErrOther "failed to create request state"))
                    | inr requester =>
                        let '(requester, e) := requester_ProcessMessage1 requester msg1 in
                        match e with
                        | Some _ =>
                            (set_State rs i requester,
                             Err (ErrOther "failed to process setup message"))
                        | None =>
                            let '(requester, r) := requester_CreateMessage2 requester in
                            let rs := set_State rs i requester in
                            match r with
                            | inl _ => (rs, Err (ErrOther "failed to create request message"))
                            | inr requestMsg =>
                                CreateTokenRequest_loop pbh requestSetup rnd n' (S i) rs
                                  (update i (fun _ => Some requestMsg) request)
                            end
                        end
                    end
                end
          end
      end
  end.

(** [CreateTokenRequest] creates a token request to be sent to the
    token server.  [rnd i] is the random draw of round [i]. *)
Definition CreateTokenRequest (pbh : PBlindHandler) (requestSetup : PBlindSetupResponse)
    (rnd : nat -> Draw) : PBlindHandler * outcome TokenError PBlindTokenRequest :=
  if negb (len requestSetup =? BatchSize (opts pbh))
  then (pbh, Err (ErrOther "invalid request setup msg count"))
  else
    let B := BatchSize (opts pbh) in
    let '(rs, r) :=
      CreateTokenRequest_loop pbh requestSetup rnd (Z.to_nat B) 0
        (make B zeroRequestState) (make B None) in
    (with_requestState pbh rs, r).

(** The batch loop of [IssueTokens]. *)
Fixpoint IssueTokens_loop (request : PBlindTokenRequest) (n i : nat)
    (signers : PBlindSignerState) (response : IssuedPBlindTokens)
  : PBlindSignerState * outcome TokenError IssuedPBlindTokens :=
  match n with
  | O => (signers, Ok response)
  | S n' =>
      match nth_error request i with
      | None => (signers, Panic)
      | Some None => (signers, Err (ErrOther "missing request data"))
      | Some (Some msg2) =>
          match nth_error signers i with
          | None => (signers, Panic)
          | Some signer =>
              let '(signer, e) := signer_ProcessMessage2 signer msg2 in
              let signers := update i (fun _ => signer) signers in
              match e with
              | Some _ => (signers, Err (ErrOther "failed to process request msg"))
              | None =>
                  let '(signer, r) := signer_CreateMessage3 signer in
                  let signers := update i (fun _ => signer) signers in
                  match r with
                  | inl _ => (signers, Err (ErrOther "failed to issue token"))
                  | inr responseMsg =>
                      IssueTokens_loop request n' (S i) signers
                        (update i (fun _ => Some responseMsg) response)
                  end
              end
          end
      end
  end.

(** [IssueTokens] signs the requested tokens.  It does not touch the
    handler beyond reading the batch size. *)
Definition IssueTokens (pbh : PBlindHandler) (state : PBlindSignerState)
    (request : PBlindTokenRequest)
  : PBlindHandler * PBlindSignerState * outcome TokenError IssuedPBlindTokens :=
  if negb (len request =? BatchSize (opts pbh))
  then (pbh, state, Err (ErrOther "invalid request msg count"))
  else if negb (len state =? BatchSize (opts pbh))
  then (pbh, state, Err (ErrOther "invalid request state count"))
  else
    let B := BatchSize (opts pbh) in
    let '(signers, r) := IssueTokens_loop request (Z.to_nat B) 0 state (make B None) in
    (pbh, signers, r).

(** The batch loop of [ProcessIssuedTokens].  Round [i] indexes
    [requestState] (out of range: panic), dereferences [Msgs[i]] (nil:
    panic) and calls the requester state (nil: panic). *)
Fixpoint ProcessIssuedTokens_loop (pbh : PBlindHandler) (issuedTokens : IssuedPBlindTokens)
    (n i : nat) (finalizedTokens : list (option PBlindToken))
  : outcome TokenError (list (option PBlindToken)) :=
  match n with
  | O => Ok finalizedTokens
  | S n' =>
      match nth_error (requestState pbh) i with
      | None => Panic
      | Some rs =>
          match nth_error issuedTokens i with
          | None | Some None => Panic
          | Some (Some msg3) =>
              match rs_State rs with
              | None => Panic
              | Some st =>
                  let '(st, e) := requester_ProcessMessage3 st msg3 in
                  match e with
                  | Some _ => Err (ErrOther "failed to create final signature")
                  | None =>
                      match requester_Signature st with
                      | inl _ => Err (ErrOther "failed to create final signature")
                      | inr signature =>
                          match makeInfo pbh (Z.of_nat i + 1) with
                          | inl _ => Err (ErrOther "failed to make token info")
                          | inr info =>
                              if negb (Check (publicKey pbh) signature info (rs_Token rs))
                              then Err (ErrOther "invalid signature")
                              else
                                let newToken :=
                                  {| Serial := if UseSerials (opts pbh)
                                               then Z.of_nat i + 1 else 0;
                                     Token_ := rs_Token rs;
                                     Signature_ := Some signature |} in
                                ProcessIssuedTokens_loop pbh issuedTokens n' (S i)
                                  (update i (fun _ => Some newToken) finalizedTokens)
                          end
                      end
                  end
              end
          end
      end
  end.

(** [ProcessIssuedTokens] processes the issued tokens from the server.
    [seed] is the result of [rand.Int] for the shuffle.  Once the
    length check has passed, the deferred reset of [requestState] runs
    on every way out. *)
Definition ProcessIssuedTokens (pbh : PBlindHandler) (issuedTokens : IssuedPBlindTokens)
    (seed : string + Z) : PBlindHandler * outcome TokenError unit :=
  if negb (len issuedTokens =? BatchSize (opts pbh))
  then (pbh, Err (ErrOther "invalid issued token count"))
  else
    let B := BatchSize (opts pbh) in
    let reset (h : PBlindHandler) := with_requestState h (make B zeroRequestState) in
    match ProcessIssuedTokens_loop pbh issuedTokens (Z.to_nat B) 0 (make B None) with
    | Panic => (reset pbh, Panic)
    | Err e => (reset pbh, Err e)
    | Ok finalizedTokens =>
        if RandomizeOrder (opts pbh) then
          match seed with
          | inl _ => (reset pbh, Err (ErrOther "failed to get seed for shuffle"))
          | inr rInt =>
              (reset (with_Storage pbh (Storage pbh ++ Shuffle _ rInt finalizedTokens)),
               Ok tt)
          end
        else (reset (with_Storage pbh (Storage pbh ++ finalizedTokens)), Ok tt)
    end.

(** [GetToken] returns a token.  The third component tells whether the
    [SignalShouldRequest] callback was called. *)
Definition GetToken (pbh : PBlindHandler) : PBlindHandler * outcome TokenError Token * bool :=
  match Storage pbh with
  | [] => (pbh, Err ErrEmpty, false)
  | t :: rest =>
      match Dump_token dsd t with
      | inl _ => (pbh, Err (ErrOther "failed to pack token"), false)
      | inr data =>
          let pbh := with_Storage pbh rest in
          (pbh,
           Ok {| Zone := opt_Zone (opts pbh); Data := data |},
           SignalShouldRequest (opts pbh) && shouldRequest pbh)
      end
  end.

Definition serial_valid (pbh : PBlindHandler) (serial : Z) : bool :=
  (UseSerials (opts pbh) && (0 <? serial) && (serial <=? BatchSize (opts pbh)))
  || (negb (UseSerials (opts pbh)) && (serial =? 0)).

(** [Verify] verifies the given token. *)
Definition Verify (pbh : PBlindHandler) (token : Token) : outcome TokenError unit :=
  if negb (String.eqb (Zone token) (opt_Zone (opts pbh))) then Err ErrZoneMismatch
  else
    match Load_token dsd (Data token) with
    | inl e => Err (ErrTokenMalformed e)
    | inr t =>
        if serial_valid pbh (Serial t) then
          match makeInfo pbh (Serial t) with
          | inl e => Err (ErrTokenMalformed e)
          | inr info =>
              match Signature_ t with
              | None => Panic
              | Some signature =>
                  if negb (Check (publicKey pbh) signature info (Token_ t))
                  then Err ErrTokenInvalid
                  else
                    match DoubleSpendProtection (opts pbh) with
                    | Some f =>
                        match f (Token_ t) with
                        | Some e => Err (ErrTokenUsed e)
                        | None => Ok tt
                        end
                    | None => Ok tt
                    end
              end
          end
        else Err (ErrTokenMalformed "invalid serial")
    end.

(** [Save] serializes and returns the current tokens. *)
Definition Save (pbh : PBlindHandler) : outcome TokenError (list Z) :=
  if len (Storage pbh) =? 0 then Err ErrEmpty
  else
    match Dump_storage dsd (Storage pbh) with
    | inl e => Err (ErrOther e)
    | inr data => Ok data
    end.

(** The signature checks of [Load], over the loaded slice: a nil token
    or a nil signature is dereferenced all the same. *)
Fixpoint Load_check (pbh : PBlindHandler) (ts : list (option PBlindToken))
  : outcome TokenError unit :=
  match ts with
  | [] => Ok tt
  | None :: _ => Panic
  | Some t :: ts' =>
      match makeInfo pbh (Serial t) with
      | inl e => Err (ErrOther e)
      | inr info =>
          match Signature_ t with
          | None => Panic
          | Some signature =>
              if negb (Check (publicKey pbh) signature info (Token_ t))
              then Err ErrTokenInvalid
              else Load_check pbh ts'
          end
      end
  end.

(** [Load] loads the given tokens into the handler. *)
Definition Load (pbh : PBlindHandler) (data : list Z) : PBlindHandler * outcome TokenError unit :=
  match Load_storage dsd data with
  | inl e => (pbh, Err (ErrOther e))
  | inr s =>
      match Load_check pbh s with
      | Ok _ => (with_Storage pbh s, Ok tt)
      | Err e => (pbh, Err e)
      | Panic => (pbh, Panic)
      end
  end.

(** [Clear] clears all the tokens in the handler. *)
Definition Clear (pbh : PBlindHandler) : PBlindHandler := with_Storage pbh [].

(** *** Predicates for the statements below *)

(** The token is there, carries a signature, and the signature checks
    against the public key and the info of its serial. *)
Definition verifies (pbh : PBlindHandler) (t : option PBlindToken) : Prop :=
  exists tok info signature,
    t = Some tok /\ makeInfo pbh (Serial tok) = inr info
    /\ Signature_ tok = Some signature
    /\ Check (publicKey pbh) signature info (Token_ tok) = true.

(** Round [i] of [ProcessIssuedTokens] finds its request state and its
    message, and the final signature passes the check. *)
Definition round_checked (pbh : PBlindHandler) (issued : IssuedPBlindTokens) (i : nat) : Prop :=
  exists rs st msg3 signature info,
    nth_error (requestState pbh) i = Some rs /\ rs_State rs = Some st
    /\ nth_error issued i = Some (Some msg3)
    /\ requester_Signature (fst (requester_ProcessMessage3 st msg3)) = inr signature
    /\ makeInfo pbh (Z.of_nat i + 1) = inr info
    /\ Check (publicKey pbh) signature info (rs_Token rs) = true.

End Handler.

(** *** A small instance of the libraries

    Keys, signatures and requester states are numbers, a signature
    checks when it equals the key, and the storage is serialized one
    byte per token: 0 is a nil token, 1 a token without a signature, any
    other byte a token with that signature. *)
Definition samplePBlind : PBlindLib :=
  {| Curve := unit;
     PublicKey := Z;
     Info := list Z;
     Signature := Z;
     Message1 := unit;
     Message2 := unit;
     Message3 := Z;
     StateSigner := Z;
     StateRequester := Z;
     CompressInfo := fun _ data => inr data;
     Check := fun pk signature _ _ => signature =? pk;
     CreateRequester := fun pk _ _ => inr pk;
     requester_ProcessMessage1 := fun st _ => (st, None);
     requester_CreateMessage2 := fun st => (st, inr tt);
     requester_ProcessMessage3 := fun _ msg3 => (msg3, None);
     requester_Signature := fun st => inr st;
     signer_ProcessMessage2 := fun st _ => (st, None);
     signer_CreateMessage3 := fun st => (st, inr st);
     Shuffle := fun _ _ l => l |}.

Definition sampleToken (b : Z) : option (@PBlindToken samplePBlind) :=
  if b =? 0 then None
  else Some (@mkPBlindToken samplePBlind 0 [b] (if b =? 1 then None else Some b)).

Definition sampleDsd : @Dsd samplePBlind :=
  {| Load_storage := fun data =>
       match data with [] => inl "no data"%string | _ => inr (map sampleToken data) end;
     Dump_storage := fun ts =>
       inr (map (fun t : option (@PBlindToken samplePBlind) =>
                   match t with
                   | None => 0
                   | Some tok => match Signature_ tok with None => 1 | Some sg => sg end
                   end) ts);
     Load_token := fun data =>
       match data with
       | [serial; sg] => inr (@mkPBlindToken samplePBlind serial [sg] (Some sg))
       | _ => inl "bad token"%string
       end;
     Dump_token := fun t =>
       match t with
       | Some tok =>
           inr [Serial tok; match Signature_ tok with None => 1 | Some sg => sg end]
       | None => inl "nil token"%string
       end |}.

Definition sampleOptions (zone : string) (useSerials : bool) (batchSize : Z)
  : @PBlindOptions samplePBlind :=
  @mkPBlindOptions samplePBlind zone tt useSerials batchSize false true None false.

(** A handler of the instance with the key 7 and the given storage. *)
Definition sampleHandler (useSerials : bool) (batchSize : Z) (storage : list Z)
  : @PBlindHandler samplePBlind :=
  @mkPBlindHandler samplePBlind (sampleOptions "test" useSerials batchSize) 7
    (map sampleToken storage) [].

End token.

(** ** Bootstrap hubs *)

Module hub.

Inductive HubError : Type :=
| ErrParseTransport (msg : string)   (* failed to parse transport *)
| ErrMissingHubID                    (* missing hub ID in URL fragment *)
| ErrInvalidHubID (msg : string)     (* hub ID is invalid *)
| ErrInvalidIP.                      (* invalid IP address (domains are not supported) *)

(** [jess/lhash.FromBase58] and the IPv6 half of [net.ParseIP], which
    are libraries. *)
Class HubLib : Type := {
  LabeledHash : Type;
  FromBase58 : string -> string + LabeledHash;
  parseIPv6 : string -> option (list Z)
}.

(** *** Strings *)

Definition byte_of (a : ascii) : Z := Z.of_N (N_of_ascii a).

Definition is_digit (a : ascii) : bool := (48 <=? byte_of a) && (byte_of a <=? 57).

(** Split at the first occurrence of [c]: the part before it, and the
    part after it if [c] occurs. *)
Fixpoint split_first (c : ascii) (s : string) : string * option string :=
  match s with
  | EmptyString => (EmptyString, None)
  | String a s' =>
      if Ascii.eqb a c then (EmptyString, Some s')
      else let '(l, r) := split_first c s' in (String a l, r)
  end.

(** Split at the last occurrence of [c]. *)
Fixpoint split_last (c : ascii) (s : string) : option (string * string) :=
  match s with
  | EmptyString => None
  | String a s' =>
      match split_last c s' with
      | Some (l, r) => Some (String a l, r)
      | None => if Ascii.eqb a c then Some (EmptyString, s') else None
      end
  end.

Fixpoint contains (c : ascii) (s : string) : bool :=
  match s with
  | EmptyString => false
  | String a s' => Ascii.eqb a c || contains c s'
  end.

Fixpoint parse_decimal (s : string) (acc : Z) : option Z :=
  match s with
  | EmptyString => Some acc
  | String a s' =>
      if is_digit a then parse_decimal s' (10 * acc + (byte_of a - 48)) else None
  end.

Definition digit_char (d : Z) : ascii := ascii_of_N (Z.to_N (48 + d)).

Fixpoint format_decimal (fuel : nat) (n : Z) (acc : string) : string :=
  match fuel with
  | O => acc
  | S f =>
      let acc := String (digit_char (n mod 10)) acc in
      if n <? 10 then acc else format_decimal f (n / 10) acc
  end.

(** *** Transports *)

Record Transport : Type := mkTransport {
  Protocol : string;
  Domain : string;
  Port : Z;
  Path : string;
  Option_ : string
}.

Definition strip_brackets (host : string) : string :=
  match host with
  | String "[" rest =>
      match split_last "]" rest with
      | Some (inner, EmptyString) => inner
      | _ => host
      end
  | _ => host
  end.

(** Modelled from the spec: [ParseTransport] is not part of the sources
    at hand.  The spec gives the shape of a transport address,
    [<transport>://<ip>/#<base58-hub-ID>], and the example
    [tcp://1.2.3.4:17/#<id>] whose transport without host and fragment is
    [tcp://:17].  Accordingly an address is read as
    [<protocol>://<domain>:<port><path>#<option>]: the fragment after the
    first [#] is the option, the protocol ends at the first [:] and is
    followed by [//], the path starts at the first [/] after that (a
    bare [/] is no path), the port is the decimal number after the last
    [:] of the host part and fits 16 bits, and the domain may be empty. *)
Definition ParseTransport (address : string) : string + Transport :=
  let '(main, fragment) := split_first "#" address in
  match split_first ":" main with
  | (_, None) | (EmptyString, _) => inl "missing scheme/protocol"%string
  | (protocol, Some (String "/" (String "/" rest))) =>
      let '(authority, path) := split_first "/" rest in
      match split_last ":" authority with
      | None => inl "missing port"%string
      | Some (host, EmptyString) => inl "missing port"%string
      | Some (host, portData) =>
          match parse_decimal portData 0 with
          | None => inl "invalid port"%string
          | Some port =>
              if 65535 <? port then inl "invalid port"%string
              else inr {| Protocol := protocol;
                          Domain := strip_brackets host;
                          Port := port;
                          Path := match path with
                                  | None | Some EmptyString => EmptyString
                                  | Some p => String "/" p
                                  end;
                          Option_ := match fragment with
                                     | None => EmptyString
                                     | Some f => f
                                     end |}
          end
      end
  | _ => inl "missing scheme/protocol"%string
  end.

(** Modelled from the spec: [Transport.String] is not part of the
    sources at hand; it writes the address that [ParseTransport] reads,
    leaving out an empty option. *)
Definition Transport_String (t : Transport) : string :=
  let host := if contains ":" (Domain t)
              then String "[" (Domain t ++ "]") else Domain t in
  (Protocol t ++ "://" ++ host ++ ":" ++ format_decimal 5 (Port t) EmptyString
     ++ Path t
     ++ match Option_ t with
        | EmptyString => EmptyString
        | o => String "#" o
        end)%string.

(** *** IP addresses (package net)

    An [IP] is a byte slice of length 4 or 16; nil is [None]. *)

Definition IP : Type := list Z.

Definition v4InV6Prefix : list Z := [0; 0; 0; 0; 0; 0; 0; 0; 0; 0; 255; 255].

Definition IPv4 (a b c d : Z) : IP := v4InV6Prefix ++ [a; b; c; d].

(** [dtoi]: the leading decimal number of [s], the number of its digits,
    whether there was one below [big], and the rest of [s]. *)
Definition big : Z := 0xFFFFFF.

Fixpoint dtoi_loop (s : string) (n i : Z) : Z * Z * bool * string :=
  match s with
  | String a s' =>
      if is_digit a then
        let n := n * 10 + (byte_of a - 48) in
        if big <=? n then (big, i, false, s) else dtoi_loop s' n (i + 1)
      else (n, i, 0 <? i, s)
  | EmptyString => (n, i, 0 <? i, s)
  end.

Definition dtoi (s : string) : Z * Z * bool * string := dtoi_loop s 0 0.

(** [parseIPv4]: four decimal fields of at most 255 without leading
    zeros, separated by dots. *)
Fixpoint parseIPv4_fields (k : nat) (first : bool) (s : string) (p : list Z) : option IP :=
  match k with
  | O => match s with
         | EmptyString =>
             match p with
             | [a; b; c; d] => Some (IPv4 a b c d)
             | _ => None
             end
         | _ => None
         end
  | S k' =>
      match s with
      | EmptyString => None
      | String a0 s0 =>
          let after_dot :=
            if first then Some s
            else if Ascii.eqb a0 "." then Some s0 else None in
          match after_dot with
          | None => None
          | Some s1 =>
              let '(n, c, ok, rest) := dtoi s1 in
              if negb ok || (0xFF <? n) then None
              else
                match s1 with
                | String "0" _ =>
                    if 1 <? c then None
                    else parseIPv4_fields k' false rest (p ++ [n])
                | _ => parseIPv4_fields k' false rest (p ++ [n])
                end
          end
      end
  end.

Definition parseIPv4 (s : string) : option IP := parseIPv4_fields 4 true s [].

Section Bootstrap.
Context {L : HubLib}.

(** [net.ParseIP]: the first [.] or [:] decides between the two
    parsers. *)
Fixpoint ParseIP_scan (s whole : string) : option IP :=
  match s with
  | EmptyString => None
  | String a s' =>
      if Ascii.eqb a "." then parseIPv4 whole
      else if Ascii.eqb a ":" then parseIPv6 whole
      else ParseIP_scan s' whole
  end.

Definition ParseIP (s : string) : option IP := ParseIP_scan s s.

(** [IP.To4]: the four byte form of an IPv4 address, else nil. *)
Definition To4 (ip : IP) : option IP :=
  match ip with
  | [_; _; _; _] => Some ip
  | [0; 0; 0; 0; 0; 0; 0; 0; 0; 0; 255; 255; a; b; c; d] => Some [a; b; c; d]
  | _ => None
  end.

Record Announcement : Type := mkAnnouncement {
  ann_ID : string;
  Transports : list string;
  ann_IPv4 : option IP;
  ann_IPv6 : option IP
}.

(** [Status]: the function sets it to a new status, all of whose fields
    are zero. *)
Inductive Status : Type := ZeroStatus.

(** [Hub], with the fields that [ParseBootstrapHub] sets; [Info] and
    [Status] point to new structs. *)
Record Hub : Type := mkHub {
  ID : string;
  Map : string;
  Info : Announcement;
  hub_Status : Status
}.

Definition ParseBootstrapHub (bootstrapTransport mapName : string) : HubError + Hub :=
  match ParseTransport bootstrapTransport with
  | inl e => inl (ErrParseTransport e)
  | inr t =>
      if String.eqb (Option_ t) EmptyString then inl ErrMissingHubID
      else
        match FromBase58 (Option_ t) with
        | inl e => inl (ErrInvalidHubID e)
        | inr _ =>
            match ParseIP (Domain t) with
            | None => inl ErrInvalidIP
            | Some ip =>
                let id := Option_ t in
                let t := {| Protocol := Protocol t; Domain := EmptyString;
                            Port := Port t; Path := Path t;
                            Option_ := EmptyString |} in
                let transports := [Transport_String t] in
                inr {| ID := id;
                       Map := mapName;
                       hub_Status := ZeroStatus;
                       Info :=
                         match To4 ip with
                         | Some ip4 =>
                             {| ann_ID := id; Transports := transports;
                                ann_IPv4 := Some ip4; ann_IPv6 := None |}
                         | None =>
                             {| ann_ID := id; Transports := transports;
                                ann_IPv4 := None; ann_IPv6 := Some ip |}
                         end |}
            end
        end
  end.

End Bootstrap.

(** *** A small instance of the libraries

    A hub ID is accepted when it is made of base58 characters; there is
    no IPv6 parser. *)
Definition is_base58 (a : ascii) : bool :=
  let b := byte_of a in
  ((49 <=? b) && (b <=? 57))
  || ((65 <=? b) && (b <=? 90) && negb (b =? 73) && negb (b =? 79))
  || ((97 <=? b) && (b <=? 122) && negb (b =? 108)).

Fixpoint all_base58 (s : string) : bool :=
  match s with
  | EmptyString => true
  | String a s' => is_base58 a && all_base58 s'
  end.

Definition sampleHubLib : HubLib :=
  {| LabeledHash := string;
     FromBase58 := fun s => if all_base58 s then inr s else inl "invalid base58"%string;
     parseIPv6 := fun _ => None |}.

End hub.

(** ** More of the varint and container libraries *)

Module varint_more.
Import varint.

(** [Unpack64]: no range check beyond that of [Uvarint]. *)
Definition Unpack64 (blob : list Z) : outcome VarintError (Z * Z) :=
  let '(n, r) := Uvarint blob in
  if r =? 0 then Err ErrEOF
  else if r <? 0 then Err ErrOverflow
  else Ok (n, r).

(** [Pack8(n)]: one byte below 128, else the byte followed by 1. *)
Definition Pack8 (n : Z) : list Z :=
  if u8 n <? 128 then [u8 n] else [u8 n; 0x01].

(** [Unpack8]: the inverse, with its checks of the buffer. *)
Definition Unpack8 (blob : list Z) : outcome VarintError (Z * Z) :=
  match blob with
  | [] => Err ErrEOF
  | b0 :: rest =>
      if Z.land b0 0x80 =? 0 then Ok (b0, 1)
      else
        match rest with
        | [] => Err ErrEOF
        | b1 :: _ => if b1 =? 0x01 then Ok (b0, 2) else Err ErrTooBig
        end
  end.

End varint_more.

Module container_blocks.
Import container.

Inductive BlockError : Type :=
| ErrVarint (e : varint.VarintError)
| ErrNotEnoughData.          (* container: not enough data to return *)

(** [Length]: the number of bytes held. *)
Definition Length (c : Container) : Z := len c.

(** [PrependNumber], [PrependLength]. *)
Definition PrependNumber (c : Container) (n : Z) : Container :=
  Prepend c (varint.Pack64 n).
Definition PrependLength (c : Container) : Container :=
  Prepend c (varint.Pack64 (Length c)).

(** [GetNextN8], from at most two bytes, and [GetNextN64], from at most
    ten. *)
Definition GetNextN8 (c : Container) : outcome varint.VarintError (Z * Container) :=
  match varint_more.Unpack8 (gather 2 c) with
  | Ok (num, n) => Ok (u8 num, skip n c)
  | Err e => Err e
  | Panic => Panic
  end.

Definition GetNextN64 (c : Container) : outcome varint.VarintError (Z * Container) :=
  match varint_more.Unpack64 (gather 10 c) with
  | Ok (num, n) => Ok (u64 num, skip n c)
  | Err e => Err e
  | Panic => Panic
  end.

(** [Get(n)]: the next [n] bytes, which are consumed, or an error when
    fewer are left. *)
Definition Get (n : Z) (c : Container) : outcome BlockError (list Z * Container) :=
  let buf := gather (Z.to_nat n) c in
  if len buf <? n then Err ErrNotEnoughData
  else Ok (buf, skip (len buf) c).

(** [GetNextBlock]: a varint block size, then the block.  The size is
    converted to [int]; sizes that do not fit are beyond what any
    container holds and are taken as not enough data. *)
Definition GetNextBlock (c : Container) : outcome BlockError (list Z * Container) :=
  match GetNextN64 c with
  | Ok (blockSize, c) =>
      if blockSize <? 2 ^ 63 then Get blockSize c else Err ErrNotEnoughData
  | Err e => Err (ErrVarint e)
  | Panic => Panic
  end.

End container_blocks.

Module terminal_frames.
Import container container_blocks terminal_msg.

(** [MakeMsg] prepends the ID and Type header and the length of the
    message. *)
Definition MakeMsg (c : Container) (id : Z) (msgType : MsgType) : Container :=
  PrependLength (AddIDType c id msgType).

(** [SubmitAsDataMsg] wraps the submit function of a terminal with the
    ID [id] to call [MakeMsg] on the data before submitting. *)
Definition SubmitAsDataMsg {A : Type} (id : Z) (submitFunc : Container -> A) (c : Container) : A :=
  submitFunc (MakeMsg c id MsgTypeData).

End terminal_frames.

(** ** The worker of the duplex flow queue *)

Module flow.
Import container terminal.

(** [getSendSpace], [decrementSendSpace]. *)
Definition getSendSpace (dfq : DuplexFlowQueue) : Z := sendSpace dfq.

Definition decrementSendSpace (dfq : DuplexFlowQueue) : DuplexFlowQueue * Z :=
  let v := add32 (sendSpace dfq) (-1) in
  (set_sendSpace dfq v (wakeSender dfq), v).

(** The state that [FlowHandler] and the callers of [Send] and [Flush]
    work on.  The channel [sendQueue] carries pointers, and a nil pointer
    in it shuts the worker down: its buffer, nil slots included, is
    [wk_sendQueue], and the worker does not read the field [sendQueue] of
    [wk_dfq].  A flush function is the list of the flush requests it
    finishes, in the order in which it calls them; stacking two functions
    appends the lists, and nil is the empty list.  [finished] lists the
    flush requests whose function has been called. *)
Record Worker : Type := mkWorker {
  wk_dfq : DuplexFlowQueue;
  wk_sendQueue : list (option Container);
  sendSpaceDepleted : bool;
  flushFinished : list nat;
  finished : list nat;
  wk_returned : bool
}.

Definition NewWorker (queueSize : Z) : Worker :=
  {| wk_dfq := NewDuplexFlowQueue queueSize;
     wk_sendQueue := [];
     sendSpaceDepleted := false;
     flushFinished := [];
     finished := [];
     wk_returned := false |}.

Definition with_dfq (w : Worker) (dfq : DuplexFlowQueue) : Worker :=
  {| wk_dfq := dfq; wk_sendQueue := wk_sendQueue w;
     sendSpaceDepleted := sendSpaceDepleted w; flushFinished := flushFinished w;
     finished := finished w; wk_returned := wk_returned w |}.

Definition with_sendQueue (w : Worker) (q : list (option Container)) : Worker :=
  {| wk_dfq := wk_dfq w; wk_sendQueue := q;
     sendSpaceDepleted := sendSpaceDepleted w; flushFinished := flushFinished w;
     finished := finished w; wk_returned := wk_returned w |}.

Definition with_depleted (w : Worker) (b : bool) : Worker :=
  {| wk_dfq := wk_dfq w; wk_sendQueue := wk_sendQueue w;
     sendSpaceDepleted := b; flushFinished := flushFinished w;
     finished := finished w; wk_returned := wk_returned w |}.

Definition with_flush (w : Worker) (pending done : list nat) : Worker :=
  {| wk_dfq := wk_dfq w; wk_sendQueue := wk_sendQueue w;
     sendSpaceDepleted := sendSpaceDepleted w; flushFinished := pending;
     finished := done; wk_returned := wk_returned w |}.

Definition with_returned (w : Worker) : Worker :=
  {| wk_dfq := wk_dfq w; wk_sendQueue := wk_sendQueue w;
     sendSpaceDepleted := sendSpaceDepleted w; flushFinished := flushFinished w;
     finished := finished w; wk_returned := true |}.

(** The cases of the two [select] statements of [FlowHandler]. *)
Inductive Select : Type :=
| SelWakeSender
| SelForceSpaceReport
| SelCtxDone
| SelReadyToSend
| SelSendQueue
| SelFlush (fn : nat).

(** The forced report of space: the token is taken off
    [forceSpaceReport], and the reportable space, if above 0, is submitted
    upstream in a container of its own. *)
Definition forcedReport (w : Worker) : Worker * list Container :=
  let dfq := wk_dfq w in
  let dfq := set_recv dfq (recvQueue dfq) (reportedSpace dfq) false in
  let '(dfq, spaceToReport) := reportableRecvSpace dfq in
  (with_dfq w dfq,
   if 0 <? spaceToReport then [Prepend New (varint.Pack64 spaceToReport)] else []).

(** One [select] of [FlowHandler] that takes the case [sel]: the state
    afterwards and the containers passed to [submitUpstream].  [None]
    when the case is not among those of the [select] at hand or its
    channel is not ready.  While the send space is depleted the worker
    waits in the first [select]; a wake-up with send space falls through
    to the second, which is where the worker also is when it is not
    depleted. *)
Definition FlowHandler_step (sel : Select) (w : Worker) : option (Worker * list Container) :=
  if wk_returned w then None
  else if sendSpaceDepleted w then
    match sel with
    | SelWakeSender =>
        if wakeSender (wk_dfq w) then
          let dfq := set_sendSpace (wk_dfq w) (sendSpace (wk_dfq w)) false in
          Some (with_depleted (with_dfq w dfq) (negb (0 <? getSendSpace dfq)), [])
        else None
    | SelForceSpaceReport =>
        if forceSpaceReport (wk_dfq w) then Some (forcedReport w) else None
    | SelCtxDone => Some (with_returned w, [])
    | _ => None
    end
  else
    match sel with
    | SelReadyToSend => Some (w, [])
    | SelSendQueue =>
        match wk_sendQueue w with
        | [] => None
        | None :: q => Some (with_returned (with_sendQueue w q), [])
        | Some c :: q =>
            let '(dfq, space) := reportableRecvSpace (wk_dfq w) in
            let c := Prepend c (varint.Pack64 space) in
            let '(dfq, v) := decrementSendSpace dfq in
            let w := with_depleted (with_sendQueue (with_dfq w dfq) q) (v <=? 0) in
            let w :=
              match flushFinished w, q with
              | _ :: _, [] => with_flush w [] (finished w ++ flushFinished w)
              | _, _ => w
              end in
            Some (w, [c])
        end
    | SelForceSpaceReport =>
        if forceSpaceReport (wk_dfq w) then Some (forcedReport w) else None
    | SelFlush fn =>
        match wk_sendQueue w with
        | [] => Some (with_flush w (flushFinished w) (finished w ++ [fn]), [])
        | _ :: _ => Some (with_flush w (flushFinished w ++ [fn]) (finished w), [])
        end
    | SelCtxDone => Some (with_returned w, [])
    | SelWakeSender => None
    end.

(** [Send] adds the container to the send queue; it blocks, [None], while
    the queue is full.  Its other case, a context that is done, returns
    [ErrStopping] and leaves the queue as it is. *)
Definition Send (w : Worker) (c : option Container) : option Worker :=
  if len (wk_sendQueue w) <? cap (wk_dfq w)
  then Some (with_sendQueue w (wk_sendQueue w ++ [c]))
  else None.

Section Receiving.
Variable forceReportBelow : Z -> Z.

(** [shouldReportRecvSpace] *)
Definition shouldReportRecvSpace (dfq : DuplexFlowQueue) : bool :=
  reportedSpace dfq <? forceReportBelow (cap dfq).

(** [Receive] hands out the receive queue, after forcing a report when
    the reported space is low. *)
Definition Receive (dfq : DuplexFlowQueue) : DuplexFlowQueue :=
  if shouldReportRecvSpace dfq
  then set_recv dfq (recvQueue dfq) (reportedSpace dfq) true
  else dfq.

(** Receiving from the queue that [Receive] handed out. *)
Definition take (dfq : DuplexFlowQueue) : option (Container * DuplexFlowQueue) :=
  match recvQueue dfq with
  | [] => None
  | c :: q => Some (c, set_recv dfq q (reportedSpace dfq) (forceSpaceReport dfq))
  end.

(** [Deliver] as the other goroutines see it.  Between the send on
    [recvQueue] and [decrementReportedRecvSpace] the container is in the
    queue while the reported space still counts its slot:
    [Deliver_enqueue] is the call up to and including the send, with
    [Enqueued] when the call goes on and [Returned] with its result when
    it returns before; [Deliver_finish] is the rest. *)
Inductive Delivery : Type :=
| Returned (err : option Error)
| Enqueued.

Definition Deliver_enqueue (dfq : DuplexFlowQueue) (c : option Container)
  : DuplexFlowQueue * Delivery :=
  match c with
  | None => (dfq, Returned (Some (ErrMalformedData "no data"%string)))
  | Some c =>
      match GetNextN16 c with
      | Ok (addSpace, c) =>
          let dfq := if 0 <? addSpace then addToSendSpace dfq (int32 addSpace) else dfq in
          if negb (HoldsData c) then (dfq, Returned None)
          else if len (recvQueue dfq) <? cap dfq then
            (set_recv dfq (recvQueue dfq ++ [c]) (reportedSpace dfq) (forceSpaceReport dfq),
             Enqueued)
          else (dfq, Returned (Some ErrQueueOverflow))
      | _ => (dfq, Returned (Some (ErrMalformedData "failed to parse reported space"%string)))
      end
  end.

Definition Deliver_finish (dfq : DuplexFlowQueue) : DuplexFlowQueue :=
  let '(reported, shouldReportRecvSpace) := decrementReportedRecvSpace forceReportBelow dfq in
  set_recv dfq (recvQueue dfq) reported
    (if shouldReportRecvSpace then true else forceSpaceReport dfq).

(** *** Two flow queues, one at each end

    What one end submits upstream reaches the [Deliver] of the other end
    in order and unchanged: the terminals and the crane frame, carry and
    unframe it.  [toA] and [toB] hold what is on the way; [deliveringA]
    and [deliveringB] count the calls of [Deliver] at the end that have
    put their container on [recvQueue] and not yet lowered the reported
    space. *)
Record System : Type := mkSystem {
  sideA : Worker;
  sideB : Worker;
  toA : list Container;
  toB : list Container;
  deliveringA : nat;
  deliveringB : nat
}.

Definition NewSystem (queueSize : Z) : System :=
  {| sideA := NewWorker queueSize; sideB := NewWorker queueSize; toA := []; toB := [];
     deliveringA := 0; deliveringB := 0 |}.

(** What happens at one end. *)
Inductive Action : Type :=
| ActSelect (sel : Select)          (* the worker takes a case of its select *)
| ActSend (c : option Container)    (* a caller of Send *)
| ActDeliver                        (* the next container arrives at Deliver *)
| ActDelivered                      (* a call of Deliver goes on after the enqueue *)
| ActReceive                        (* a caller of Receive *)
| ActTake.                          (* a caller receives from the receive queue *)

(** An action at the end with the worker [w], [delivering] calls of
    [Deliver] under way, the containers [inbound] on the way to it and
    [outbound] on the way from it.  The last component is what a call of
    [Deliver] returns, where one returns. *)
Definition act (a : Action) (w : Worker) (delivering : nat) (inbound outbound : list Container)
  : option (Worker * nat * list Container * list Container * option Error) :=
  match a with
  | ActSelect sel =>
      match FlowHandler_step sel w with
      | Some (w, submitted) => Some (w, delivering, inbound, outbound ++ submitted, None)
      | None => None
      end
  | ActSend c =>
      match Send w c with
      | Some w => Some (w, delivering, inbound, outbound, None)
      | None => None
      end
  | ActDeliver =>
      match inbound with
      | [] => None
      | c :: inbound =>
          match Deliver_enqueue (wk_dfq w) (Some c) with
          | (dfq, Returned err) => Some (with_dfq w dfq, delivering, inbound, outbound, err)
          | (dfq, Enqueued) => Some (with_dfq w dfq, S delivering, inbound, outbound, None)
          end
      end
  | ActDelivered =>
      match delivering with
      | O => None
      | S delivering =>
          Some (with_dfq w (Deliver_finish (wk_dfq w)), delivering, inbound, outbound, None)
      end
  | ActReceive => Some (with_dfq w (Receive (wk_dfq w)), delivering, inbound, outbound, None)
  | ActTake =>
      match take (wk_dfq w) with
      | Some (_, dfq) => Some (with_dfq w dfq, delivering, inbound, outbound, None)
      | None => None
      end
  end.

(** An action at end A ([atA]) or at end B. *)
Definition sys_step (atA : bool) (a : Action) (s : System) : option (System * option Error) :=
  if atA then
    match act a (sideA s) (deliveringA s) (toA s) (toB s) with
    | Some (w, delivering, inbound, outbound, err) =>
        Some ({| sideA := w; sideB := sideB s; toA := inbound; toB := outbound;
                 deliveringA := delivering; deliveringB := deliveringB s |}, err)
    | None => None
    end
  else
    match act a (sideB s) (deliveringB s) (toB s) (toA s) with
    | Some (w, delivering, inbound, outbound, err) =>
        Some ({| sideA := sideA s; sideB := w; toA := outbound; toB := inbound;
                 deliveringA := deliveringA s; deliveringB := delivering |}, err)
    | None => None
    end.

(** A run of the two ends. *)
Fixpoint sys_run (steps : list (bool * Action)) (s : System) : option System :=
  match steps with
  | [] => Some s
  | (atA, a) :: steps =>
      match sys_step atA a s with
      | Some (s, _) => sys_run steps s
      | None => None
      end
  end.

End Receiving.

End flow.

(** ** Runs of the worker and of two ends *)

Module flow_runs.
Import container terminal flow.

(** *** Runs of one worker

    What the worker sees: the cases its [select] takes, the calls of
    [Send], and whatever [Deliver], [Receive] and the receivers do to the
    counters and the receive queue in between, which for the worker is a
    new content of [wk_dfq]. *)
Inductive WorkerEvent : Type :=
| WSelect (sel : Select)
| WSend (c : option Container)
| WOther (dfq : DuplexFlowQueue).

Definition worker_step (ev : WorkerEvent) (w : Worker) : option Worker :=
  match ev with
  | WSelect sel => option_map fst (FlowHandler_step sel w)
  | WSend c => Send w c
  | WOther dfq => Some (with_dfq w dfq)
  end.

Fixpoint worker_run (evs : list WorkerEvent) (w : Worker) : option Worker :=
  match evs with
  | [] => Some w
  | ev :: evs =>
      match worker_step ev w with
      | Some w => worker_run evs w
      | None => None
      end
  end.

(** The flush requests that reach the worker in a run, in order. *)
Fixpoint flushes (evs : list WorkerEvent) : list nat :=
  match evs with
  | [] => []
  | WSelect (SelFlush fn) :: evs => fn :: flushes evs
  | _ :: evs => flushes evs
  end.

(** No flush function waits at an empty send queue. *)
Definition flush_inv (w : Worker) : Prop :=
  wk_returned w = false -> flushFinished w <> [] -> wk_sendQueue w <> [].

(** *** What is on the way between two ends

    The space that a container on the way reports, and whether it
    carries data that will take a slot of the receive queue. *)
Definition reported (c : Container) : Z :=
  match GetNextN16 c with
  | Ok (addSpace, _) => addSpace
  | _ => 0
  end.

Definition carries (c : Container) : Z :=
  match GetNextN16 c with
  | Ok (_, c) => if HoldsData c then 1 else 0
  | _ => 0
  end.

Definition readable (c : Container) : Prop :=
  exists addSpace c', GetNextN16 c = Ok (addSpace, c').

Definition credits (l : list Container) : Z := fold_right (fun c n => reported c + n) 0 l.
Definition payloads (l : list Container) : Z := fold_right (fun c n => carries c + n) 0 l.

(** The send space that the end [S] holds, the space on the way to it,
    the data on the way from it and [lost], the send space that it has
    spent on containers without data, add up to the space that the end
    [R] has reported, less one for each call of [Deliver] at [R] that has
    yet to lower it; that is covered by the free slots of the receive
    queue of [R]; [S] is not depleted only while it holds send space. *)
Definition credit_inv (queueSize : Z) (S R : Worker) (deliveringR : nat)
    (fromS toS : list Container) (lost : Z) : Prop :=
  cap (wk_dfq S) = queueSize
  /\ 0 <= sendSpace (wk_dfq S)
  /\ (sendSpaceDepleted S = false -> 0 < sendSpace (wk_dfq S))
  /\ 0 <= lost
  /\ sendSpace (wk_dfq S) + credits toS + payloads fromS + lost
     = reportedSpace (wk_dfq R) - Z.of_nat deliveringR
  /\ reportedSpace (wk_dfq R) - Z.of_nat deliveringR
     <= cap (wk_dfq R) - len (recvQueue (wk_dfq R))
  /\ reportedSpace (wk_dfq R) <= cap (wk_dfq R)
  /\ Forall readable fromS.

Definition sys_inv (queueSize : Z) (s : System) (lostA lostB : Z) : Prop :=
  credit_inv queueSize (sideA s) (sideB s) (deliveringB s) (toB s) (toA s) lostA
  /\ credit_inv queueSize (sideB s) (sideA s) (deliveringA s) (toA s) (toB s) lostB.

(** A container with data, or the nil that shuts the worker down. *)
Definition holds_data (c : option Container) : Prop :=
  match c with
  | Some c => HoldsData c = true
  | None => True
  end.

(** The step hands no container without data to [Send]. *)
Definition data_only (step : bool * Action) : Prop :=
  match snd step with
  | ActSend c => holds_data c
  | _ => True
  end.

(** The send queues of both ends hold containers with data only. *)
Definition queues_hold_data (s : System) : Prop :=
  Forall holds_data (wk_sendQueue (sideA s)) /\ Forall holds_data (wk_sendQueue (sideB s)).

End flow_runs.

(** ** The calls on a token handler *)

Module token_runs.
Import token.

Section Calls.
Context {L : PBlindLib}.
Variable dsd : Dsd.

(** A token as [Verify] wants it: there, signed so that the check
    passes ([verifies]), and with a serial in the accepted range. *)
Definition acceptable (pbh : PBlindHandler) (t : option PBlindToken) : Prop :=
  verifies pbh t /\ exists tok, t = Some tok /\ serial_valid pbh (Serial tok) = true.

(** The calls that change a handler, and the handler after a call. *)
Inductive Call : Type :=
| CallCreateTokenRequest (requestSetup : PBlindSetupResponse) (rnd : nat -> Draw)
| CallProcessIssuedTokens (issuedTokens : IssuedPBlindTokens) (seed : string + Z)
| CallGetToken
| CallLoad (data : list Z)
| CallClear.

Definition call (c : Call) (pbh : PBlindHandler) : PBlindHandler :=
  match c with
  | CallCreateTokenRequest requestSetup rnd => fst (CreateTokenRequest pbh requestSetup rnd)
  | CallProcessIssuedTokens issuedTokens seed => fst (ProcessIssuedTokens pbh issuedTokens seed)
  | CallGetToken => fst (fst (GetToken dsd pbh))
  | CallLoad data => fst (Load dsd pbh data)
  | CallClear => Clear pbh
  end.

Definition calls (cs : list Call) (pbh : PBlindHandler) : PBlindHandler :=
  fold_left (fun pbh c => call c pbh) cs pbh.

End Calls.
End token_runs.

(** ** The token handler: the issuer's setup *)

Module token_setup.
Import token.

(** What [CreateSetup] uses of rot256/pblind besides [PBlindLib]: the
    secret key, [pblind.CreateSigner], and [CreateMessage1] of the
    signer, whose state is passed through like that of the requester. *)
Class PBlindSignerLib (L : PBlindLib) : Type := {
  SecretKey : Type;
  CreateSigner : SecretKey -> Info -> string + StateSigner;
  signer_CreateMessage1 : StateSigner -> StateSigner * (string + Message1)
}.

Section Setup.
Context {L : PBlindLib} {SL : PBlindSignerLib L}.

(** The batch loop of [CreateSetup], at index [i] with [n] rounds to go.
    [privateKey] is the field of the handler, a pointer that is nil on a
    handler made from a public key; [signers] is the slice of pointers
    [state.signers].  The signer is stored before [CreateMessage1]
    advances it, through the pointer. *)
Fixpoint CreateSetup_loop (pbh : PBlindHandler) (privateKey : option SecretKey) (n i : nat)
    (signers : list (option StateSigner)) (msgs : PBlindSetupResponse)
  : outcome TokenError (list (option StateSigner) * PBlindSetupResponse) :=
  match n with
  | O => Ok (signers, msgs)
  | S n' =>
      match makeInfo pbh (Z.of_nat i + 1) with
      | inl _ => Err (ErrOther "failed to create info")
      | inr info =>
          match privateKey with
          | None => Panic
          | Some key =>
              match CreateSigner key info with
              | inl _ => Err (ErrOther "failed to create signer")
              | inr signer =>
                  let '(signer, r) := signer_CreateMessage1 signer in
                  let signers := update i (fun _ => Some signer) signers in
                  match r with
                  | inl _ => Err (ErrOther "failed to create setup msg")
                  | inr setupMsg =>
                      CreateSetup_loop pbh privateKey n' (S i) signers
                        (update i (fun _ => Some setupMsg) msgs)
                  end
              end
          end
      end
  end.

(** [CreateSetup] sets up signers for a request.  [make] with a negative
    length panics. *)
Definition CreateSetup (pbh : PBlindHandler) (privateKey : option SecretKey)
  : outcome TokenError (list (option StateSigner) * PBlindSetupResponse) :=
  let B := BatchSize (opts pbh) in
  if B <? 0 then Panic
  else CreateSetup_loop pbh privateKey (Z.to_nat B) 0 (make B None) (make B None).

(** The signers behind the pointers of a state in which every slot is
    filled. *)
Fixpoint filled {A : Type} (l : list (option A)) : option (list A) :=
  match l with
  | [] => Some []
  | None :: _ => None
  | Some x :: l =>
      match filled l with
      | Some xs => Some (x :: xs)
      | None => None
      end
  end.

End Setup.

(** The signer of the small instance of the libraries: a signer is its
    key. *)
Definition sampleSigner : PBlindSignerLib samplePBlind :=
  @Build_PBlindSignerLib samplePBlind Z
    (fun key _ => @inr string (@StateSigner samplePBlind) key)
    (fun st => (st, @inr string (@Message1 samplePBlind) tt)).

End token_setup.

(** ** Crane init procedures *)

Module crane_init.
Import container varint_more container_blocks.

Definition CraneMsgTypeEnd : Z := 0.
Definition CraneMsgTypeInfo : Z := 1.
Definition CraneMsgTypeRequestHubInfo : Z := 2.
Definition CraneMsgTypeVerify : Z := 3.
Definition CraneMsgTypeStartEncrypted : Z := 4.
Definition CraneMsgTypeStartUnencrypted : Z := 5.

(** The terminal errors that the init procedures return, with the
    message that [With] or [Wrap] adds. *)
Inductive CraneErrorKind : Type :=
| KindStopping
| KindIncorrectUsage
| KindInternalError
| KindShipSunk
| KindMalformedData
| KindTimeout
| KindIntegrity.

Inductive CraneError : Type :=
| CraneErr (kind : CraneErrorKind) (msg : string)
| CraneWrap (err : CraneError) (msg : string).

(** What the init procedures use of [cabin.Identity]: the results of
    [ExportAnnouncement] and [ExportStatus]. *)
Record Identity : Type := mkIdentity {
  ExportAnnouncement : string + list Z;
  ExportStatus : string + list Z
}.

(** How [startRemote] ends when it returns no error: the controller has
    been started with [initMsg], and [jession] is the encryption session
    that was set, if any. *)
Record Started (Session : Type) : Type := mkStarted {
  initMsg : Container;
  jession : option Session
}.
Arguments mkStarted {Session} initMsg jession.
Arguments initMsg {Session} s.
Arguments jession {Session} s.

Section Crane.

(** The ship, the identity of the crane, and the code that the init
    procedures call: [dsd.Dump(info.GetInfo(), dsd.JSON)],
    [handleCraneVerification], the letters and sessions of jess, and the
    controller terminal.  [ship_Load] is the error of [crane.ship.Load];
    what a procedure has loaded on the ship is the first component of its
    result, oldest first. *)
Variable ship_Load : list Z -> option string.
Variable identity : option Identity.
Variable infoData : string + list Z.
Variable handleCraneVerification : Container -> list (list Z) * option CraneError.
Variable Letter : Type.
Variable Session : Type.
Variable LetterFromWireData : list Z -> string + Letter.
Variable WireCorrespondence : Letter -> Identity -> string + Session.
Variable Open : Session -> Letter -> string + list Z.
Variable NewRemoteCraneControllerTerminal : Container -> option CraneError.

(** [msg.PrependLength()] and [crane.ship.Load(msg.CompileData())], with
    the error [failed] when the ship does not take it. *)
Definition loadMsg (msg : Container) (failed : string) : list (list Z) * option CraneError :=
  let data := CompileData (PrependLength msg) in
  match ship_Load data with
  | Some _ => ([data], Some (CraneErr KindShipSunk failed))
  | None => ([data], None)
  end.

Definition endInit : list (list Z) * option CraneError :=
  loadMsg (Prepend New (Pack8 CraneMsgTypeEnd)) "failed to send end msg".

Definition handleCraneInfo : list (list Z) * option CraneError :=
  match infoData with
  | inl _ => ([], Some (CraneErr KindInternalError "failed to pack info"))
  | inr infoData => loadMsg (Prepend New infoData) "failed to send info reply"
  end.

Definition handleCraneHubInfo : list (list Z) * option CraneError :=
  let msg := New in
  match identity with
  | None =>
      ([], Some (CraneErr KindIncorrectUsage
                   "cannot handle hub info request without designated identity"))
  | Some identity =>
      match ExportAnnouncement identity with
      | inl _ => ([], Some (CraneErr KindInternalError "failed to export announcement"))
      | inr announcementData =>
          let msg := AppendAsBlock msg announcementData in
          match ExportStatus identity with
          | inl _ => ([], Some (CraneErr KindInternalError "failed to export status"))
          | inr statusData =>
              let msg := AppendAsBlock msg statusData in
              loadMsg msg "failed to send hub info reply"
          end
      end
  end.

(** The request for the hub info that [startLocal] sends, and its start
    message on a secure ship, where the data of the controller goes out
    unencrypted. *)
Definition hubInfoRequest : list Z :=
  CompileData (PrependLength (Prepend New (Pack8 CraneMsgTypeRequestHubInfo))).

Definition startUnencryptedMsg (initData : Container) : list Z :=
  CompileData (PrependLength (PrependNumber initData CraneMsgTypeStartUnencrypted)).

(** The two blocks that [startLocal] takes off the reply to its
    request. *)
Definition readHubInfoReply (reply : Container) : CraneError + (list Z * list Z) :=
  match GetNextBlock reply with
  | Ok (announcementData, reply) =>
      match GetNextBlock reply with
      | Ok (statusData, _) => inr (announcementData, statusData)
      | _ => inl (CraneErr KindMalformedData "failed to get status")
      end
  | _ => inl (CraneErr KindMalformedData "failed to get announcement")
  end.

(** [startRemote]: [unloading] holds the requests in the order in which
    they arrive; when it is used up, the wait for the next request times
    out. *)
Fixpoint startRemote (unloading : list Container)
  : list (list Z) * (CraneError + Started Session) :=
  match unloading with
  | [] => ([], inl (CraneErr KindTimeout "timed out waiting for crane init msg"))
  | request :: unloading =>
      match GetNextN8 request with
      | Ok (msgType, request) =>
          let start (s : Started Session) : CraneError + Started Session :=
            match NewRemoteCraneControllerTerminal (initMsg s) with
            | Some err => inl (CraneWrap err "failed to start crane controller")
            | None => inr s
            end in
          let continue (handled : list (list Z) * option CraneError) :=
            match handled with
            | (loaded, Some err) => (loaded, inl err)
            | (loaded, None) =>
                let '(more, r) := startRemote unloading in (loaded ++ more, r)
            end in
          if msgType =? CraneMsgTypeEnd then ([], inl (CraneErr KindStopping ""))
          else if msgType =? CraneMsgTypeInfo then continue handleCraneInfo
          else if msgType =? CraneMsgTypeRequestHubInfo then continue handleCraneHubInfo
          else if msgType =? CraneMsgTypeVerify then continue (handleCraneVerification request)
          else if msgType =? CraneMsgTypeStartUnencrypted then
            ([], start (mkStarted request None))
          else if msgType =? CraneMsgTypeStartEncrypted then
            match identity with
            | None =>
                ([], inl (CraneErr KindIncorrectUsage
                            "cannot start incoming crane without designated identity"))
            | Some identity =>
                match LetterFromWireData (CompileData request) with
                | inl _ => ([], inl (CraneErr KindMalformedData "failed to unpack initial packet"))
                | inr letter =>
                    match WireCorrespondence letter identity with
                    | inl _ =>
                        ([], inl (CraneErr KindInternalError
                                    "failed to create encryption session"))
                    | inr session =>
                        match Open session letter with
                        | inl _ =>
                            ([], inl (CraneErr KindIntegrity "failed to decrypt initial packet"))
                        | inr initMsgData =>
                            ([], start (mkStarted (Prepend New initMsgData) (Some session)))
                        end
                    end
                end
            end
          else startRemote unloading
      | _ => ([], inl (CraneErr KindMalformedData "failed to parse crane msg type"))
      end
  end.

End Crane.

End crane_init.


(** * Verification *)

(** ** Machine integers *)

Lemma u8_small x : 0 <= x < 256 -> u8 x = x.
Proof. intros H. unfold u8. apply Z.mod_small. change (2 ^ 8) with 256. lia. Qed.

Lemma u32_small x : is_u32 x -> u32 x = x.
Proof. intros H. unfold u32. now apply Z.mod_small. Qed.

Lemma u64_small x : 0 <= x < 2 ^ 64 -> u64 x = x.
Proof. intros H. unfold u64. now apply Z.mod_small. Qed.

Lemma int32_small x : is_int32 x -> int32 x = x.
Proof.
  unfold is_int32, MinInt32, MaxInt32, int32. intros H.
  rewrite Z.mod_small; lia.
Qed.

Lemma int32_range x : is_int32 (int32 x).
Proof.
  unfold is_int32, MinInt32, MaxInt32, int32.
  assert (0 <= (x + 2 ^ 31) mod 2 ^ 32 < 2 ^ 32) by (apply Z.mod_pos_bound; lia).
  lia.
Qed.

Lemma int32_congr x y : x mod 2 ^ 32 = y mod 2 ^ 32 -> int32 x = int32 y.
Proof.
  intros H. unfold int32.
  rewrite (Zplus_mod x), (Zplus_mod y), H. reflexivity.
Qed.

Lemma int32_le x : MinInt32 <= x -> int32 x <= x.
Proof.
  unfold MinInt32, int32. intros H.
  assert ((x + 2 ^ 31) mod 2 ^ 32 <= x + 2 ^ 31) by (apply Z.mod_le; lia).
  lia.
Qed.

Lemma int32_repr x : exists k, int32 x = x + k * 2 ^ 32.
Proof.
  exists (- ((x + 2 ^ 31) / 2 ^ 32)). unfold int32.
  rewrite Z.mod_eq by lia. lia.
Qed.

(** Adding back a difference, [a + (b - a)], gives [b] also in 32 bits. *)
Lemma add32_sub32 a b : add32 a (sub32 (int32 b) a) = int32 b.
Proof.
  rewrite <- (int32_small (int32 b) (int32_range b)) at 2.
  unfold add32, sub32. apply int32_congr.
  destruct (int32_repr (int32 b - a)) as [k ->].
  replace (a + (int32 b - a + k * 2 ^ 32)) with (int32 b + k * 2 ^ 32) by ring.
  apply Z_mod_plus_full.
Qed.

Lemma add32_small a b : is_int32 (a + b) -> a + b = add32 a b.
Proof. intros H. unfold add32. now rewrite int32_small. Qed.

(** ** Varints: what [PutUvarint] writes, [Uvarint] reads *)

Module varint_facts.
Import varint.

(** The low seven bits of a continuation byte are those of the number. *)
Lemma low7 x : Z.land (Z.lor (u8 x) 0x80) 0x7f = Z.land x 0x7f.
Proof.
  unfold u8. change 0x7f with (Z.ones 7). change 0x80 with (2 ^ 7).
  apply Z.bits_inj'. intros k Hk.
  rewrite !Z.land_spec, Z.lor_spec, Z.testbit_mod_pow2 by lia.
  rewrite Z.pow2_bits_eqb by lia.
  destruct (Z.ltb_spec k 7).
  - rewrite Z.ones_spec_low by lia.
    replace (7 =? k) with false by (symmetry; apply Z.eqb_neq; lia).
    replace (k <? 8) with true by (symmetry; apply Z.ltb_lt; lia).
    now rewrite orb_false_r.
  - rewrite Z.ones_spec_high by lia. now rewrite !andb_false_r.
Qed.

(** A continuation byte has its high bit set. *)
Lemma high_bit x : 0 <= x -> 0x80 <= Z.lor (u8 x) 0x80.
Proof.
  intros Hx. unfold u8. change 0x80 with (2 ^ 7).
  set (y := Z.lor (x mod 2 ^ 8) (2 ^ 7)).
  assert (Hy : 0 <= y).
  { apply Z.lor_nonneg. split; [apply Z.mod_pos_bound|]; lia. }
  assert (Hbit : Z.testbit y 7 = true).
  { unfold y. rewrite Z.lor_spec, Z.pow2_bits_true by lia. apply orb_true_r. }
  destruct (Z.lt_ge_cases y (2 ^ 7)) as [Hlt|]; [|assumption].
  rewrite <- (Z.mod_small y (2 ^ 7)) in Hbit by lia.
  rewrite Z.mod_pow2_bits_high in Hbit by lia. discriminate.
Qed.

(** Seven bits at shift [s] and the rest at shift [s + 7] make up the
    number at shift [s]. *)
Lemma split7 x s : 0 <= s ->
  Z.lor (Z.shiftl (Z.land x 0x7f) s) (Z.shiftl (Z.shiftr x 7) (s + 7)) = Z.shiftl x s.
Proof.
  intros Hs. change 0x7f with (Z.ones 7).
  apply Z.bits_inj'. intros k Hk.
  rewrite Z.lor_spec, !Z.shiftl_spec by lia.
  destruct (Z.ltb_spec k s).
  - rewrite !Z.testbit_neg_r by lia. reflexivity.
  - rewrite Z.land_spec. destruct (Z.ltb_spec (k - s) 7).
    + rewrite Z.ones_spec_low by lia.
      rewrite (Z.testbit_neg_r _ (k - (s + 7))) by lia.
      now rewrite andb_true_r, orb_false_r.
    + rewrite Z.ones_spec_high by lia.
      rewrite Z.shiftr_spec by lia.
      rewrite andb_false_r. simpl. f_equal. lia.
Qed.

Lemma shiftl_bound x s n : 0 <= x < 2 ^ n -> 0 <= s -> 0 <= n ->
  0 <= Z.shiftl x s < 2 ^ (n + s).
Proof.
  intros Hx Hs Hn. rewrite Z.shiftl_mul_pow2 by lia.
  rewrite Z.pow_add_r by lia.
  assert (0 < 2 ^ s) by (apply Z.pow_pos_nonneg; lia). nia.
Qed.

Lemma shiftr7_bound x n : 0 <= x < 2 ^ (7 * Z.of_nat (S n)) ->
  0 <= Z.shiftr x 7 < 2 ^ (7 * Z.of_nat n).
Proof.
  intros Hx. rewrite Z.shiftr_div_pow2 by lia. split.
  - apply Z.div_pos; lia.
  - apply Z.div_lt_upper_bound; [lia|].
    rewrite <- Z.pow_add_r by lia.
    replace (7 + 7 * Z.of_nat n) with (7 * Z.of_nat (S n)) by lia. lia.
Qed.

(** A number of at most [7 * n] bits fits a buffer of [n] bytes. *)
Lemma PutUvarint_fits n x : 0 <= x < 2 ^ (7 * Z.of_nat n) -> (0 < n)%nat ->
  exists bs, PutUvarint n x = Some bs /\ (0 < List.length bs <= n)%nat.
Proof.
  revert x. induction n as [|n IH]; intros x Hx Hn; [lia|].
  simpl. destruct (Z.leb_spec 0x80 x) as [Hge|Hlt].
  - destruct n as [|n'].
    { exfalso. change (2 ^ (7 * Z.of_nat 1)) with 128 in Hx. lia. }
    destruct (IH (Z.shiftr x 7)) as (bs & Hbs & Hlen);
      [now apply shiftr7_bound | lia |].
    rewrite Hbs. simpl. eexists; split; [reflexivity|]. simpl. lia.
  - eexists; split; [reflexivity|]. simpl. lia.
Qed.

(** The decoding loop, run over what [PutUvarint] wrote, shifts the number
    into the accumulator and counts the bytes. *)
Lemma Uvarint_loop_PutUvarint n : forall x bs i acc s rest,
  PutUvarint n x = Some bs ->
  0 <= x < 2 ^ (7 * Z.of_nat n) ->
  0 <= i -> s = 7 * i -> i + Z.of_nat n <= 9 ->
  Uvarint_loop (bs ++ rest) i acc s
  = (Z.lor acc (Z.shiftl x s), i + Z.of_nat (List.length bs)).
Proof.
  induction n as [|n IH]; intros x bs i acc s rest Hput Hx Hi Hs Hin; [discriminate|].
  assert (Hi10 : (i =? MaxVarintLen64) = false)
    by (apply Z.eqb_neq; unfold MaxVarintLen64; lia).
  simpl in Hput. destruct (Z.leb_spec 0x80 x) as [Hge|Hlt].
  - destruct (PutUvarint n (Z.shiftr x 7)) as [bs'|] eqn:Hbs'; [|discriminate].
    simpl in Hput. injection Hput as <-.
    assert (Hx7 := shiftr7_bound _ _ Hx).
    cbn [app Uvarint_loop]. rewrite Hi10.
    replace (Z.lor (u8 x) 0x80 <? 0x80) with false
      by (symmetry; apply Z.ltb_ge; apply high_bit; lia).
    rewrite low7.
    rewrite u64_small.
    2:{ assert (H7 : 0 <= Z.land x 0x7f < 2 ^ 7).
        { change 0x7f with (Z.ones 7). rewrite Z.land_ones by lia.
          apply Z.mod_pos_bound. lia. }
        assert (Hb := shiftl_bound (Z.land x 0x7f) s 7 H7 ltac:(lia) ltac:(lia)).
        split; [lia|]. eapply Z.lt_le_trans; [apply Hb|].
        apply Z.pow_le_mono_r; lia. }
    rewrite (IH _ _ _ _ _ _ Hbs' Hx7) by lia.
    f_equal.
    + rewrite <- Z.lor_assoc. f_equal. apply split7. lia.
    + cbn [List.length]. lia.
  - injection Hput as <-.
    cbn [app Uvarint_loop].
    rewrite (u8_small x) by lia. rewrite Hi10.
    replace (x <? 0x80) with true by (symmetry; apply Z.ltb_lt; lia).
    replace (i =? MaxVarintLen64 - 1) with false
      by (symmetry; apply Z.eqb_neq; unfold MaxVarintLen64; lia).
    cbn [andb].
    rewrite u64_small.
    2:{ assert (Hb := shiftl_bound x s 7 ltac:(change (2 ^ 7) with 128; lia)
                        ltac:(lia) ltac:(lia)).
        split; [lia|]. eapply Z.lt_le_trans; [apply Hb|].
        apply Z.pow_le_mono_r; lia. }
    f_equal.
Qed.

End varint_facts.

(** ** Containers *)

Module container_facts.
Import varint varint_facts container.

Lemma gather_app n (bs rest : list Z) : (List.length bs <= n)%nat ->
  gather n (bs ++ rest) = bs ++ firstn (n - List.length bs) rest.
Proof.
  intros H. unfold gather. rewrite firstn_app.
  now rewrite firstn_all2 by assumption.
Qed.

Lemma skip_app (bs rest : list Z) :
  skip (Z.of_nat (List.length bs)) (bs ++ rest) = rest.
Proof.
  unfold skip. rewrite Nat2Z.id, skipn_app, skipn_all, Nat.sub_diag. reflexivity.
Qed.

(** A 32 bit number that [Pack32] wrote in front of a container is read
    back by [GetNextN32], which leaves the container as it was before. *)
Lemma GetNextN32_Pack32 v c : is_u32 v ->
  GetNextN32 (Prepend c (Pack32 v)) = Ok (v, c).
Proof.
  intros Hv. assert (Hv' := Hv). unfold is_u32 in Hv'.
  assert (Hfit : 0 <= v < 2 ^ (7 * Z.of_nat 5)).
  { change (2 ^ (7 * Z.of_nat 5)) with (2 ^ 35).
    assert (2 ^ 32 < 2 ^ 35) by (apply Z.pow_lt_mono_r; lia). lia. }
  destruct (PutUvarint_fits 5 v Hfit ltac:(lia)) as (bs & Hbs & Hlen).
  unfold Pack32, Prepend. rewrite (u32_small v Hv), Hbs.
  unfold GetNextN32, Unpack32, unpack, Uvarint.
  rewrite gather_app by lia.
  rewrite (Uvarint_loop_PutUvarint 5 v bs 0 0 0 _ Hbs Hfit) by lia.
  rewrite Z.shiftl_0_r, Z.lor_0_l, Z.add_0_l.
  replace (Z.of_nat (List.length bs) =? 0) with false
    by (symmetry; apply Z.eqb_neq; lia).
  replace (Z.of_nat (List.length bs) <? 0) with false
    by (symmetry; apply Z.ltb_ge; lia).
  replace (4294967295 <? v) with false
    by (symmetry; apply Z.ltb_ge; change (2 ^ 32) with 4294967296 in Hv'; lia).
  now rewrite skip_app, (u32_small v Hv).
Qed.

Lemma GetNextN32_range c v c' : GetNextN32 c = Ok (v, c') -> is_u32 v.
Proof.
  unfold GetNextN32. destruct (Unpack32 (gather 5 c)) as [[num n]|e|]; try discriminate.
  intros [= <- _]. apply Z.mod_pos_bound. lia.
Qed.

Lemma GetNextN16_range c v c' : GetNextN16 c = Ok (v, c') -> 0 <= v <= 65535.
Proof.
  unfold GetNextN16. destruct (Unpack16 (gather 3 c)) as [[num n]|e|]; try discriminate.
  intros [= <- _]. unfold u16.
  assert (0 <= num mod 2 ^ 16 < 2 ^ 16) by (apply Z.mod_pos_bound; lia).
  change (2 ^ 16) with 65536 in *. lia.
Qed.

End container_facts.

(** ** The ID|Type header *)

Module terminal_msg_facts.
Import container container_facts terminal_msg.

(** With the two low bits of [id] clear, [id | m] is [id + m]. *)
Lemma lor_low2 id m : 0 <= id -> id mod 4 = 0 -> 0 <= m < 4 -> Z.lor id m = id + m.
Proof.
  intros Hid Hmod Hm.
  rewrite <- (Z.add_lor_land id m).
  assert (Hland : Z.land id m = 0); [|lia].
  apply Z.bits_inj'. intros k Hk. rewrite Z.land_spec, Z.bits_0.
  destruct (Z.ltb_spec k 2).
  - rewrite <- (Z.mod_pow2_bits_low id 2 k) by lia.
    change (2 ^ 2) with 4. rewrite Hmod, Z.bits_0. reflexivity.
  - rewrite <- (Z.mod_small m (2 ^ 2)) by (change (2 ^ 2) with 4; lia).
    rewrite Z.mod_pow2_bits_high by lia. apply andb_false_r.
Qed.

Lemma ParseIDType_of_varint c idType c' :
  GetNextN32 c = Ok (idType, c') ->
  ParseIDType c = Ok (idType - idType mod 4, idType mod 4, c').
Proof.
  intros H. unfold ParseIDType. rewrite H.
  apply GetNextN32_range in H. unfold is_u32 in H.
  change (2 ^ 32) with 4294967296 in H.
  assert (Hm : 0 <= idType mod 4 < 4) by (apply Z.mod_pos_bound; lia).
  assert (Hle : idType mod 4 <= idType) by (apply Z.mod_le; lia).
  rewrite (u8_small (idType mod 4)) by lia.
  rewrite (u32_small (idType mod 4))
    by (unfold is_u32; change (2 ^ 32) with 4294967296; lia).
  rewrite u32_small by (unfold is_u32; change (2 ^ 32) with 4294967296; lia).
  reflexivity.
Qed.

(** C7: for a 32 bit [id] with its two low bits clear and a message type
    Init, Data or Stop, [ParseIDType] of the container that [AddIDType]
    prepared returns exactly [id] and the message type, and leaves the
    container as it was before the header was added; and in general, for
    the varint [idType] read off the container, [ParseIDType] returns the
    type [idType mod 4] and the ID [idType - idType mod 4]. *)
Theorem ParseIDType_AddIDType :
  (forall c id msgType,
      is_u32 id -> id mod 4 = 0 -> is_msg_type msgType ->
      ParseIDType (AddIDType c id msgType) = Ok (id, msgType, c))
  /\ (forall c idType c',
      GetNextN32 c = Ok (idType, c') ->
      ParseIDType c = Ok (idType - idType mod 4, idType mod 4, c')).
Proof.
  split; [|exact ParseIDType_of_varint].
  intros c id msgType Hid Hmod Hty. unfold is_u32 in Hid.
  change (2 ^ 32) with 4294967296 in Hid.
  assert (Hm : 1 <= msgType <= 3).
  { unfold is_msg_type, MsgTypeInit, MsgTypeData, MsgTypeStop in Hty. lia. }
  assert (Hid4 : id <= 4294967292).
  { apply Z.div_exact in Hmod; lia. }
  unfold AddIDType.
  rewrite (u32_small msgType) by (unfold is_u32; change (2 ^ 32) with 4294967296; lia).
  rewrite lor_low2 by lia.
  rewrite (ParseIDType_of_varint _ (id + msgType) c).
  - assert (Hr : (id + msgType) mod 4 = msgType).
    { rewrite Z.add_mod, Hmod by lia. simpl. rewrite Z.mod_mod by lia.
      apply Z.mod_small. lia. }
    rewrite Hr. replace (id + msgType - msgType) with id by lia. reflexivity.
  - apply GetNextN32_Pack32. unfold is_u32. change (2 ^ 32) with 4294967296. lia.
Qed.

Lemma ParseIDType_AddIDType_witness :
  ParseIDType (AddIDType [104; 105] 8 MsgTypeData) = Ok (8, MsgTypeData, [104; 105])
  /\ ParseIDType [0xAF; 0x02; 7] = Ok (300, 3, [7]).
Proof.
  split.
  - apply (proj1 ParseIDType_AddIDType);
      [split; [discriminate | reflexivity] | reflexivity |].
    right; left; reflexivity.
  - apply (proj2 ParseIDType_AddIDType [0xAF; 0x02; 7] 303 [7]). reflexivity.
Defined.

End terminal_msg_facts.

(** ** The duplex flow queue *)

Module terminal_facts.
Import container container_facts terminal.

Section FlowQueue_facts.
Variable forceReportBelow : Z -> Z.

(** [Deliver] on a container that starts with a varint, case by case. *)
Lemma Deliver_eq dfq c addSpace c' :
  GetNextN16 c = Ok (addSpace, c') ->
  Deliver forceReportBelow dfq (Some c) =
  let dfq1 := if 0 <? addSpace then addToSendSpace dfq addSpace else dfq in
  if negb (HoldsData c') then (dfq1, None)
  else if len (recvQueue dfq) <? cap dfq then
    let reported := add32 (reportedSpace dfq) (-1) in
    (set_recv dfq1 (recvQueue dfq ++ [c']) reported
       (if reported <? forceReportBelow (cap dfq) then true else forceSpaceReport dfq),
     None)
  else (dfq1, Some ErrQueueOverflow).
Proof.
  intros Hget. assert (Hrange := GetNextN16_range _ _ _ Hget).
  unfold Deliver. rewrite Hget.
  rewrite int32_small by (unfold is_int32, MinInt32, MaxInt32; lia).
  destruct (0 <? addSpace); reflexivity.
Qed.

(** C1: [Deliver] on a non-nil container whose leading varint [addSpace]
    is read by [GetNextN16], leaving [c']: if [addSpace > 0], [sendSpace]
    is increased by [addSpace] (in [int32]; exactly, when the sum fits);
    if [c'] holds no data, the call returns nil and nothing is enqueued;
    otherwise, if [recvQueue] has a free slot, [c'] is enqueued and
    [reportedSpace] is decremented by one, and if [recvQueue] is full, the
    call returns [ErrQueueOverflow] and [recvQueue] is unchanged. *)
Theorem Deliver_spec dfq c addSpace c' :
  GetNextN16 c = Ok (addSpace, c') ->
  let dfq' := fst (Deliver forceReportBelow dfq (Some c)) in
  let err := snd (Deliver forceReportBelow dfq (Some c)) in
  (0 < addSpace ->
     sendSpace dfq' = add32 (sendSpace dfq) addSpace
     /\ (is_int32 (sendSpace dfq) -> sendSpace dfq + addSpace <= MaxInt32 ->
         sendSpace dfq' = sendSpace dfq + addSpace))
  /\ (addSpace = 0 -> sendSpace dfq' = sendSpace dfq)
  /\ (HoldsData c' = false ->
        err = None /\ recvQueue dfq' = recvQueue dfq
        /\ reportedSpace dfq' = reportedSpace dfq)
  /\ (HoldsData c' = true -> len (recvQueue dfq) < cap dfq ->
        err = None /\ recvQueue dfq' = recvQueue dfq ++ [c']
        /\ reportedSpace dfq' = add32 (reportedSpace dfq) (-1)
        /\ (is_int32 (reportedSpace dfq) -> MinInt32 < reportedSpace dfq ->
            reportedSpace dfq' = reportedSpace dfq - 1))
  /\ (HoldsData c' = true -> cap dfq <= len (recvQueue dfq) ->
        err = Some ErrQueueOverflow /\ recvQueue dfq' = recvQueue dfq).
Proof.
  intros Hget dfq' err. subst dfq' err.
  rewrite (Deliver_eq _ _ _ _ Hget).
  assert (Hrange := GetNextN16_range _ _ _ Hget).
  destruct (Z.ltb_spec 0 addSpace) as [Hpos|Hzero];
    destruct (HoldsData c');
    destruct (Z.ltb_spec (len (recvQueue dfq)) (cap dfq)) as [Hfree|Hfull];
    cbn; repeat split; intros;
    try reflexivity; try discriminate; try lia;
    try (symmetry; apply add32_small; unfold is_int32, MinInt32, MaxInt32 in *; lia).
Qed.

(** C10: [Deliver] with a nil container returns a malformed-data error
    and changes no state: [sendSpace], [reportedSpace] and [recvQueue]
    are as before. *)
Theorem Deliver_nil dfq :
  Deliver forceReportBelow dfq None = (dfq, Some (ErrMalformedData "no data"))
  /\ sendSpace (fst (Deliver forceReportBelow dfq None)) = sendSpace dfq
  /\ reportedSpace (fst (Deliver forceReportBelow dfq None)) = reportedSpace dfq
  /\ recvQueue (fst (Deliver forceReportBelow dfq None)) = recvQueue dfq.
Proof. repeat split. Qed.

End FlowQueue_facts.

Lemma Deliver_spec_witness :
  let f := fun c => 3 * c / 4 in
  let dfq := NewDuplexFlowQueue 4 in
  let r := Deliver f dfq (Some [3; 104; 105]) in
  sendSpace (fst r) = 7 /\ snd r = None
  /\ recvQueue (fst r) = [[104; 105]] /\ reportedSpace (fst r) = 3.
Proof.
  intros f dfq r. subst r.
  pose proof (Deliver_spec f dfq [3; 104; 105] 3 [104; 105] eq_refl) as H.
  cbv zeta in H. destruct H as (Hadd & _ & _ & Henq & _).
  destruct (Hadd eq_refl) as (_ & Hsend).
  destruct (Henq eq_refl eq_refl) as (Herr & Hq & _ & Hrep).
  split; [|split; [|split]].
  - transitivity (sendSpace dfq + 3); [|reflexivity].
    apply Hsend; [split; discriminate | discriminate].
  - exact Herr.
  - exact Hq.
  - transitivity (reportedSpace dfq - 1); [|reflexivity].
    apply Hrep; [split; discriminate | reflexivity].
Defined.

(** C2, as amended: with [toReport = (cap - len) - reportedSpace] as the
    code computes it (in [int32], which is the exact difference whenever
    that fits): if [toReport <= 1], [reportableRecvSpace] returns 0 and
    changes nothing; otherwise it adds [toReport] to [reportedSpace] and
    returns it.  It never returns 1.  When it returns a non-zero value,
    the new [reportedSpace] is the free receive space, so does not exceed
    it; when it returns 0, [reportedSpace] stays as it was, and is
    within the free receive space if it was so before the call. *)
Theorem reportableRecvSpace_spec dfq :
  len (recvQueue dfq) <= cap dfq ->
  let free := cap dfq - len (recvQueue dfq) in
  let toReport := sub32 (int32 free) (reportedSpace dfq) in
  let dfq' := fst (reportableRecvSpace dfq) in
  let ret := snd (reportableRecvSpace dfq) in
  (is_int32 free -> is_int32 (free - reportedSpace dfq) ->
     toReport = free - reportedSpace dfq)
  /\ (toReport <= 1 -> ret = 0 /\ dfq' = dfq)
  /\ (1 < toReport ->
        ret = toReport
        /\ reportedSpace dfq' = add32 (reportedSpace dfq) toReport
        /\ reportedSpace dfq' = int32 free
        /\ recvQueue dfq' = recvQueue dfq /\ cap dfq' = cap dfq)
  /\ ret <> 1
  /\ (ret <> 0 -> reportedSpace dfq' <= free)
  /\ (reportedSpace dfq <= free -> reportedSpace dfq' <= free).
Proof.
  intros Hlen free toReport dfq' ret.
  assert (Hfree : 0 <= free) by (unfold free; lia).
  assert (Hle : int32 free <= free) by (apply int32_le; unfold MinInt32; lia).
  assert (Hback : add32 (reportedSpace dfq) toReport = int32 free)
    by apply add32_sub32.
  assert (Hrun : reportableRecvSpace dfq
                 = if toReport <=? 1 then (dfq, 0)
                   else (set_recv dfq (recvQueue dfq)
                           (add32 (reportedSpace dfq) toReport) (forceSpaceReport dfq),
                         toReport)) by reflexivity.
  subst dfq' ret. rewrite Hrun.
  split.
  { intros H1 H2. unfold toReport, sub32. rewrite (int32_small free H1).
    now apply int32_small. }
  destruct (Z.leb_spec toReport 1) as [Hsmall|Hbig]; cbn;
    repeat split; intros; try reflexivity; try lia.
Qed.

Lemma reportableRecvSpace_spec_witness :
  let dfq := mkDFQ 4 [] 4 false [[104]] 1 false in
  snd (reportableRecvSpace dfq) = 2
  /\ reportedSpace (fst (reportableRecvSpace dfq)) = 3.
Proof.
  intros dfq.
  pose proof (reportableRecvSpace_spec dfq ltac:(discriminate)) as H.
  cbv zeta in H. destruct H as (_ & _ & Hbig & _).
  destruct (Hbig eq_refl) as (Hret & _ & Hrep & _).
  split; [exact Hret | exact Hrep].
Defined.

(** C2, as stated, fails.  When [Deliver] has put a container on
    [recvQueue] and has not yet decremented [reportedSpace], the reported
    space is one above the free space: [toReport] is -1,
    [reportableRecvSpace] returns 0 and leaves [reportedSpace] above the
    free receive space. *)
Lemma reportableRecvSpace_exceeds_free :
  let dfq := mkDFQ 4 [] 4 false [[104]] 4 false in
  let free := cap dfq - len (recvQueue dfq) in
  let toReport := free - reportedSpace dfq in
  let dfq' := fst (reportableRecvSpace dfq) in
  let ret := snd (reportableRecvSpace dfq) in
  ~ ((toReport <= 1 -> ret = 0 /\ reportedSpace dfq' = reportedSpace dfq)
     /\ (1 < toReport ->
           ret = toReport /\ reportedSpace dfq' = reportedSpace dfq + toReport)
     /\ ret <> 1
     /\ reportedSpace dfq' <= free).
Proof.
  cbv zeta. intros (_ & _ & _ & H). vm_compute in H. apply H. reflexivity.
Qed.

End terminal_facts.

(** ** The token handler *)

Module token_facts.
Import token.

Section Handler_facts.
Context {L : PBlindLib}.
Variable dsd : Dsd.

Lemma len_nonneg {A} (l : list A) : 0 <= len l.
Proof. unfold len. lia. Qed.

Lemma len_zero {A} (l : list A) : len l = 0 <-> l = [].
Proof.
  unfold len. destruct l; simpl; split; intros H; try reflexivity; try discriminate; lia.
Qed.

(** *** shouldRequest *)

Lemma shouldRequest_iff pbh :
  shouldRequest pbh = true
  <-> Storage pbh = [] \/ 11 * len (Storage pbh) <= BatchSize (opts pbh).
Proof.
  unfold shouldRequest. rewrite orb_true_iff, Z.eqb_eq, Z.ltb_lt, len_zero.
  assert (Hl := len_nonneg (Storage pbh)).
  destruct (Z.eq_dec (len (Storage pbh)) 0) as [E|E].
  { apply len_zero in E. tauto. }
  set (l := len (Storage pbh)) in *. set (B := BatchSize (opts pbh)).
  split; intros [H|H]; auto; right.
  - destruct (Z.lt_ge_cases B 0) as [Hneg|Hpos].
    + assert (Z.quot B l <= 0) by (apply Z.quot_le_upper_bound; lia). lia.
    + assert (0 <= l * Z.quot B l <= B) by (apply Z.mul_quot_le; lia). nia.
  - assert (11 <= Z.quot B l); [|lia].
    apply Z.quot_le_lower_bound; lia.
Qed.

(** C6, at the input where the code departs from it: with the storage at
    exactly 10% of the batch size, [BatchSize / len(Storage)] is 10, which
    is not above 10, and [ShouldRequest] returns false, although the
    storage is at or below 10%. *)
Theorem shouldRequest_at_ten_percent pbh :
  0 < len (Storage pbh) ->
  BatchSize (opts pbh) = 10 * len (Storage pbh) ->
  ShouldRequest pbh = false.
Proof.
  intros Hpos Hten. unfold ShouldRequest.
  destruct (shouldRequest pbh) eqn:E; [|reflexivity].
  apply shouldRequest_iff in E. destruct E as [E|E].
  - apply len_zero in E. lia.
  - lia.
Qed.

(** *** Save *)

(** [GetToken] pops the head of the storage and runs the same check on
    what is left. *)
Lemma GetToken_signal pbh t rest data :
  Storage pbh = t :: rest -> Dump_token dsd t = inr data ->
  GetToken dsd pbh
  = (with_Storage pbh rest, Ok {| Zone := opt_Zone (opts pbh); Data := data |},
     SignalShouldRequest (opts pbh) && shouldRequest (with_Storage pbh rest)).
Proof. intros Hs Hd. unfold GetToken. now rewrite Hs, Hd. Qed.

(** C9: with an empty [Storage], [Save] returns [ErrEmpty] and no data;
    so whenever [Save] returns a blob, it is the serialization of a
    storage of at least one token. *)
Theorem Save_spec pbh :
  (Storage pbh = [] -> Save dsd pbh = Err ErrEmpty)
  /\ (forall data, Save dsd pbh = Ok data ->
        Storage pbh <> [] /\ 1 <= len (Storage pbh)
        /\ Dump_storage dsd (Storage pbh) = inr data).
Proof.
  unfold Save. split.
  - intros ->. reflexivity.
  - intros data. destruct (Z.eqb_spec (len (Storage pbh)) 0) as [E|E]; [discriminate|].
    assert (Hl := len_nonneg (Storage pbh)).
    destruct (Dump_storage dsd (Storage pbh)) as [e|d]; [discriminate|].
    intros [= ->]. repeat split; try lia.
    intros Hnil. apply E. now apply len_zero.
Qed.

(** *** Verify *)

(** C5: when the zone of the token differs from the zone of the handler,
    [Verify] returns [ErrZoneMismatch], whatever the data; when the zones
    match and the data unpacks, [Verify] returns a token-malformed error
    unless the serial satisfies ([UseSerials] and 1 <= Serial <=
    BatchSize) or (not [UseSerials] and Serial = 0). *)
Theorem Verify_zone_and_serial pbh token :
  (Zone token <> opt_Zone (opts pbh) -> Verify dsd pbh token = Err ErrZoneMismatch)
  /\ (Zone token = opt_Zone (opts pbh) ->
      forall t, Load_token dsd (Data token) = inr t ->
        ~ ((UseSerials (opts pbh) = true /\ 1 <= Serial t <= BatchSize (opts pbh))
           \/ (UseSerials (opts pbh) = false /\ Serial t = 0)) ->
        exists msg, Verify dsd pbh token = Err (ErrTokenMalformed msg)).
Proof.
  unfold Verify. split.
  - intros Hz. apply String.eqb_neq in Hz. now rewrite Hz.
  - intros Hz t Ht Hserial. apply String.eqb_eq in Hz. rewrite Hz, Ht. simpl.
    destruct (serial_valid pbh (Serial t)) eqn:Hv; [|eexists; reflexivity].
    exfalso. apply Hserial. unfold serial_valid in Hv.
    destruct (UseSerials (opts pbh)); simpl in Hv.
    + left. rewrite orb_false_r in Hv.
      apply andb_true_iff in Hv. destruct Hv as [H1 H2].
      apply Z.ltb_lt in H1. apply Z.leb_le in H2. split; [reflexivity|lia].
    + right. apply Z.eqb_eq in Hv. split; [reflexivity|assumption].
Qed.

(** *** Load *)

Lemma Load_check_Ok pbh ts :
  Load_check pbh ts = Ok tt <-> Forall (verifies pbh) ts.
Proof.
  induction ts as [|[t|] ts IH]; simpl.
  - split; auto.
  - split.
    + destruct (makeInfo pbh (Serial t)) as [e|info] eqn:Hi; [discriminate|].
      destruct (Signature_ t) as [sg|] eqn:Hs; [|discriminate].
      destruct (Check (publicKey pbh) sg info (Token_ t)) eqn:Hc; [|discriminate].
      simpl. intros H. constructor; [|now apply IH].
      exists t, info, sg. auto.
    + intros H. apply Forall_cons_iff in H.
      destruct H as [(tok & info & sg & Ht & Hi & Hs & Hc) Hrest].
      injection Ht as <-.
      rewrite Hi, Hs, Hc. simpl. now apply IH.
  - split; [discriminate|].
    intros H. apply Forall_cons_iff in H.
    destruct H as [(tok & ? & ? & Ht & _) _]. discriminate.
Qed.

Lemma Load_Ok pbh data pbh' :
  Load dsd pbh data = (pbh', Ok tt) ->
  exists ts, Load_storage dsd data = inr ts /\ Forall (verifies pbh) ts
             /\ pbh' = with_Storage pbh ts.
Proof.
  unfold Load. destruct (Load_storage dsd data) as [e|ts]; [discriminate|].
  destruct (Load_check pbh ts) as [[]|e|] eqn:Hc; try discriminate.
  intros [= <-]. exists ts. repeat split. now apply Load_check_Ok.
Qed.

Lemma Load_unchanged pbh data :
  snd (Load dsd pbh data) <> Ok tt -> fst (Load dsd pbh data) = pbh.
Proof.
  unfold Load. destruct (Load_storage dsd data) as [e|ts]; [reflexivity|].
  destruct (Load_check pbh ts) as [[]|e|]; simpl; intros H; congruence.
Qed.

Lemma Load_undecodable pbh data e :
  Load_storage dsd data = inl e -> Load dsd pbh data = (pbh, Err (ErrOther e)).
Proof. unfold Load. now intros ->. Qed.

(** The signature check fails on the first token that does not verify
    and has its signature in place. *)
Lemma Load_invalid pbh data good t ts info signature :
  Load_storage dsd data = inr (good ++ Some t :: ts) ->
  Forall (verifies pbh) good ->
  makeInfo pbh (Serial t) = inr info ->
  Signature_ t = Some signature ->
  Check (publicKey pbh) signature info (Token_ t) = false ->
  Load dsd pbh data = (pbh, Err ErrTokenInvalid).
Proof.
  intros Hd Hgood Hi Hs Hc. unfold Load. rewrite Hd.
  assert (E : Load_check pbh (good ++ Some t :: ts) = Err ErrTokenInvalid).
  { clear Hd. induction good as [|g good IH]; simpl.
    - now rewrite Hi, Hs, Hc.
    - apply Forall_cons_iff in Hgood.
      destruct Hgood as [(tok & i & sg & -> & Hgi & Hgs & Hgc) Hgood].
      rewrite Hgi, Hgs, Hgc. simpl. now apply IH. }
  now rewrite E.
Qed.

(** C3, at the input where the code departs from it: when the blob
    unpacks to a list whose first token carries no signature, [Load]
    dereferences the nil signature and panics; it does not return an
    error.  [Storage] is unchanged. *)
Theorem Load_missing_signature_panics pbh data t ts info :
  Load_storage dsd data = inr (Some t :: ts) ->
  makeInfo pbh (Serial t) = inr info ->
  Signature_ t = None ->
  Load dsd pbh data = (pbh, Panic).
Proof.
  intros Hd Hi Hs. unfold Load. rewrite Hd. simpl. now rewrite Hi, Hs.
Qed.

(** *** The batch operations *)

Lemma update_length {A} i (f : A -> A) l : List.length (update i f l) = List.length l.
Proof.
  revert i. induction l as [|x l IH]; intros [|i]; simpl; auto.
Qed.

Lemma len_length {A} (l : list A) (B : Z) : len l = B -> List.length l = Z.to_nat B.
Proof. unfold len. lia. Qed.

Ltac break_match :=
  match goal with
  | |- context [match ?x with _ => _ end] => destruct x eqn:?
  end.

(** A batch with a missing setup message makes the request loop return
    an error. *)
Lemma CreateTokenRequest_loop_nil pbh setup rnd n : forall i rs req j,
  (i + n <= List.length setup)%nat ->
  (i <= j < i + n)%nat -> nth_error setup j = Some None ->
  exists e, snd (CreateTokenRequest_loop pbh setup rnd n i rs req) = Err e.
Proof.
  induction n as [|n IH]; intros i rs req j Hlen Hj Hnil; [lia|].
  assert (Hi : nth_error setup i <> None) by (apply nth_error_Some; lia).
  cbn [CreateTokenRequest_loop].
  destruct (nth_error setup i) as [[msg1|]|] eqn:Hm; [| eexists; reflexivity | congruence].
  assert (Hj' : (S i <= j < S i + n)%nat).
  { destruct (Nat.eq_dec i j) as [->|]; [congruence|lia]. }
  repeat break_match; try (eexists; reflexivity).
  eapply IH; eauto. lia.
Qed.

Lemma IssueTokens_loop_nil request n : forall i signers response j,
  (i + n <= List.length request)%nat ->
  (i + n <= List.length signers)%nat ->
  (i <= j < i + n)%nat -> nth_error request j = Some None ->
  exists e, snd (IssueTokens_loop request n i signers response) = Err e.
Proof.
  induction n as [|n IH]; intros i signers response j Hlen Hsig Hj Hnil; [lia|].
  assert (Hi : nth_error request i <> None) by (apply nth_error_Some; lia).
  assert (Hs : nth_error signers i <> None) by (apply nth_error_Some; lia).
  cbn [IssueTokens_loop].
  destruct (nth_error request i) as [[msg2|]|] eqn:Hm; [| eexists; reflexivity | congruence].
  assert (Hj' : (S i <= j < S i + n)%nat).
  { destruct (Nat.eq_dec i j) as [->|]; [congruence|lia]. }
  destruct (nth_error signers i) as [signer|]; [|congruence].
  repeat break_match; try (eexists; reflexivity).
  eapply IH; eauto; rewrite ?update_length; lia.
Qed.

Lemma nil_slot_index {A} (l : list (option A)) :
  In None l -> exists j, (j < List.length l)%nat /\ nth_error l j = Some None.
Proof.
  intros H. apply In_nth_error in H. destruct H as [j Hj].
  exists j. split; [|assumption]. apply nth_error_Some. congruence.
Qed.

(** [CreateTokenRequest] and [IssueTokens] never write [Storage], and
    they return an error for a batch of the wrong size or with a nil
    slot. *)
Lemma CreateTokenRequest_Storage pbh setup rnd :
  Storage (fst (CreateTokenRequest pbh setup rnd)) = Storage pbh.
Proof.
  unfold CreateTokenRequest. destruct (negb _); [reflexivity|].
  destruct (CreateTokenRequest_loop _ _ _ _ _ _ _). reflexivity.
Qed.

Lemma CreateTokenRequest_rejects pbh setup rnd :
  len setup <> BatchSize (opts pbh) \/ In None setup ->
  exists e, snd (CreateTokenRequest pbh setup rnd) = Err e.
Proof.
  intros H. unfold CreateTokenRequest.
  destruct (Z.eqb_spec (len setup) (BatchSize (opts pbh))) as [E|E]; simpl;
    [|eexists; reflexivity].
  destruct H as [H|H]; [contradiction|].
  destruct (nil_slot_index _ H) as (j & Hj & Hnil).
  destruct (CreateTokenRequest_loop_nil pbh setup rnd (Z.to_nat (BatchSize (opts pbh)))
              0 (make (BatchSize (opts pbh)) zeroRequestState)
              (make (BatchSize (opts pbh)) None) j) as [e He]; auto.
  - rewrite (len_length _ _ E). lia.
  - rewrite <- (len_length _ _ E). lia.
  - exists e. destruct (CreateTokenRequest_loop _ _ _ _ _ _ _). exact He.
Qed.

Lemma IssueTokens_Storage pbh state request :
  fst (fst (IssueTokens pbh state request)) = pbh.
Proof.
  unfold IssueTokens. repeat (destruct (negb _); [reflexivity|]).
  destruct (IssueTokens_loop _ _ _ _ _). reflexivity.
Qed.

Lemma IssueTokens_rejects pbh state request :
  len request <> BatchSize (opts pbh) \/ In None request ->
  exists e, snd (IssueTokens pbh state request) = Err e.
Proof.
  intros H. unfold IssueTokens.
  destruct (Z.eqb_spec (len request) (BatchSize (opts pbh))) as [E|E]; simpl;
    [|eexists; reflexivity].
  destruct (Z.eqb_spec (len state) (BatchSize (opts pbh))) as [Es|Es]; simpl;
    [|eexists; reflexivity].
  destruct H as [H|H]; [contradiction|].
  destruct (nil_slot_index _ H) as (j & Hj & Hnil).
  destruct (IssueTokens_loop_nil request (Z.to_nat (BatchSize (opts pbh)))
              0 state (make (BatchSize (opts pbh)) None) j) as [e He]; auto.
  - rewrite (len_length _ _ E). lia.
  - rewrite (len_length _ _ Es). lia.
  - rewrite <- (len_length _ _ E). lia.
  - exists e. destruct (IssueTokens_loop _ _ _ _ _). exact He.
Qed.

(** [ProcessIssuedTokens] writes [Storage] only when it returns nil. *)
Lemma ProcessIssuedTokens_Storage pbh issued seed :
  snd (ProcessIssuedTokens pbh issued seed) <> Ok tt ->
  Storage (fst (ProcessIssuedTokens pbh issued seed)) = Storage pbh.
Proof.
  unfold ProcessIssuedTokens. destruct (negb _); [reflexivity|].
  destruct (ProcessIssuedTokens_loop _ _ _ _ _); try reflexivity.
  destruct (RandomizeOrder _); [destruct seed|]; simpl; congruence.
Qed.

Lemma ProcessIssuedTokens_wrong_size pbh issued seed :
  len issued <> BatchSize (opts pbh) ->
  exists e, ProcessIssuedTokens pbh issued seed = (pbh, Err e).
Proof.
  intros H. unfold ProcessIssuedTokens.
  destruct (Z.eqb_spec (len issued) (BatchSize (opts pbh))); [contradiction|].
  eexists; reflexivity.
Qed.

Lemma ProcessIssuedTokens_loop_Ok pbh issued n : forall i fin out,
  ProcessIssuedTokens_loop pbh issued n i fin = Ok out ->
  forall j, (i <= j < i + n)%nat -> round_checked pbh issued j.
Proof.
  induction n as [|n IH]; intros i fin out Hloop j Hj; [lia|].
  cbn [ProcessIssuedTokens_loop] in Hloop.
  destruct (nth_error (requestState pbh) i) as [rs|] eqn:Hrs; [|discriminate].
  destruct (nth_error issued i) as [[msg3|]|] eqn:Hm; try discriminate.
  destruct (rs_State rs) as [st|] eqn:Hst; [|discriminate].
  destruct (requester_ProcessMessage3 st msg3) as [st' e] eqn:Hp.
  destruct e; [discriminate|].
  destruct (requester_Signature st') as [|signature] eqn:Hsig; [discriminate|].
  destruct (makeInfo pbh (Z.of_nat i + 1)) as [|info] eqn:Hinfo; [discriminate|].
  destruct (Check (publicKey pbh) signature info (rs_Token rs)) eqn:Hc; [|discriminate].
  simpl in Hloop.
  destruct (Nat.eq_dec i j) as [<-|Hne].
  - exists rs, st, msg3, signature, info. rewrite Hp. simpl. auto 10.
  - eapply IH; [exact Hloop|lia].
Qed.

(** A batch in which a signature check fails is not added. *)
Lemma ProcessIssuedTokens_Ok pbh issued seed :
  snd (ProcessIssuedTokens pbh issued seed) = Ok tt ->
  forall j, 0 <= Z.of_nat j < BatchSize (opts pbh) -> round_checked pbh issued j.
Proof.
  unfold ProcessIssuedTokens. destruct (negb _); [discriminate|].
  destruct (ProcessIssuedTokens_loop _ _ _ _ _) as [out| |] eqn:Hloop; try discriminate.
  intros _ j Hj. eapply ProcessIssuedTokens_loop_Ok; [exact Hloop|]. lia.
Qed.

(** The first signature check that fails ends the batch with an error. *)
Lemma ProcessIssuedTokens_loop_invalid pbh issued n : forall i fin j,
  (i <= j < i + n)%nat ->
  (forall k, (i <= k < j)%nat -> round_checked pbh issued k) ->
  (exists rs st msg3 signature info,
    nth_error (requestState pbh) j = Some rs /\ rs_State rs = Some st
    /\ nth_error issued j = Some (Some msg3)
    /\ requester_ProcessMessage3 st msg3 = (fst (requester_ProcessMessage3 st msg3), None)
    /\ requester_Signature (fst (requester_ProcessMessage3 st msg3)) = inr signature
    /\ makeInfo pbh (Z.of_nat j + 1) = inr info
    /\ Check (publicKey pbh) signature info (rs_Token rs) = false) ->
  exists e, ProcessIssuedTokens_loop pbh issued n i fin = Err e.
Proof.
  induction n as [|n IH]; intros i fin j Hj Hbefore Hbad; [lia|].
  cbn [ProcessIssuedTokens_loop].
  destruct (Nat.eq_dec i j) as [->|Hne].
  - destruct Hbad as (rs & st & msg3 & sg & info & -> & -> & -> & Hp & Hs & Hi & Hc).
    rewrite Hp, Hs, Hi, Hc. simpl. eexists; reflexivity.
  - destruct (Hbefore i ltac:(lia)) as (rs & st & msg3 & sg & info & -> & -> & -> & Hs & Hi & Hc).
    destruct (requester_ProcessMessage3 st msg3) as [st' [e|]] eqn:Hp;
      [eexists; reflexivity|].
    simpl in Hs. rewrite Hs, Hi, Hc. simpl.
    apply (IH _ _ j); auto; try lia.
    intros k Hk. apply Hbefore. lia.
Qed.

(** C4, at the input where the code departs from it: when the issued
    batch has the right size and a nil first slot, [ProcessIssuedTokens]
    dereferences the nil message and panics; it does not return an error.
    [Storage] is unchanged. *)
Theorem ProcessIssuedTokens_nil_slot_panics pbh issued rest seed :
  issued = None :: rest ->
  len issued = BatchSize (opts pbh) ->
  snd (ProcessIssuedTokens pbh issued seed) = Panic
  /\ Storage (fst (ProcessIssuedTokens pbh issued seed)) = Storage pbh.
Proof.
  intros -> Hlen. unfold ProcessIssuedTokens.
  rewrite Hlen, Z.eqb_refl. simpl negb. cbv iota.
  assert (Hn : exists n, Z.to_nat (BatchSize (opts pbh)) = S n).
  { rewrite <- Hlen. unfold len. simpl List.length. rewrite Nat2Z.id. eauto. }
  destruct Hn as [n ->]. cbn [ProcessIssuedTokens_loop nth_error].
  destruct (requestState pbh) as [|rs ?]; simpl; auto.
Qed.

End Handler_facts.

Lemma shouldRequest_at_ten_percent_witness :
  ShouldRequest (sampleHandler true 100 [7; 7; 7; 7; 7; 7; 7; 7; 7; 7]) = false.
Proof.
  apply shouldRequest_at_ten_percent; reflexivity.
Defined.

Lemma Save_spec_witness :
  Save sampleDsd (sampleHandler true 16 []) = Err ErrEmpty
  /\ 1 <= len (Storage (sampleHandler true 16 [7; 7])).
Proof.
  split.
  - apply (proj1 (Save_spec sampleDsd (sampleHandler true 16 []))). reflexivity.
  - apply (proj2 (Save_spec sampleDsd (sampleHandler true 16 [7; 7])) [7; 7]). reflexivity.
Defined.

Lemma Verify_zone_and_serial_witness :
  Verify sampleDsd (sampleHandler true 16 []) (mkToken "other"%string [1; 7])
  = Err ErrZoneMismatch
  /\ exists msg,
       Verify sampleDsd (sampleHandler true 16 []) (mkToken "test"%string [17; 7])
       = Err (ErrTokenMalformed msg).
Proof.
  split.
  - apply (proj1 (Verify_zone_and_serial sampleDsd (sampleHandler true 16 [])
                    (mkToken "other"%string [1; 7]))).
    discriminate.
  - apply (proj2 (Verify_zone_and_serial sampleDsd (sampleHandler true 16 [])
                    (mkToken "test"%string [17; 7]))
             eq_refl (@mkPBlindToken samplePBlind 17 [7] (Some 7)) eq_refl).
    intros [[_ [_ H]]|[H _]]; [apply H; reflexivity | discriminate].
Defined.

Lemma Load_missing_signature_panics_witness :
  Load sampleDsd (sampleHandler false 16 [7]) [1; 9]
  = (sampleHandler false 16 [7], Panic).
Proof.
  eapply (Load_missing_signature_panics sampleDsd (sampleHandler false 16 [7]) [1; 9]);
    reflexivity.
Defined.

Lemma ProcessIssuedTokens_nil_slot_panics_witness :
  let pbh := fst (CreateTokenRequest (sampleHandler true 1 [7]) [Some tt]
                    (fun _ => mkDraw [42] 32 None)) in
  snd (ProcessIssuedTokens pbh [None] (inr 0)) = Panic
  /\ Storage (fst (ProcessIssuedTokens pbh [None] (inr 0))) = Storage pbh.
Proof.
  intros pbh.
  apply (ProcessIssuedTokens_nil_slot_panics pbh [None] [] (inr 0)); reflexivity.
Defined.
(** The model at work on the small instance: a batch of two goes through
    request, issue and processing, and ends up in the storage; a batch
    with a signature that does not check is dropped with an error. *)
Example sample_batch :
  let pbh := sampleHandler true 2 [] in
  let requested := CreateTokenRequest pbh [Some tt; Some tt]
                     (fun i => mkDraw [Z.of_nat i] 32 None) in
  let issued := IssueTokens (fst requested) [7; 7] [Some tt; Some tt] in
  snd requested = Ok [Some tt; Some tt]
  /\ snd issued = Ok [Some 7; Some 7]
  /\ (let processed := ProcessIssuedTokens (fst requested) [Some 7; Some 7] (inr 0) in
      snd processed = Ok tt
      /\ Storage (fst processed)
         = [Some (@mkPBlindToken samplePBlind 1 [0] (Some 7));
            Some (@mkPBlindToken samplePBlind 2 [1] (Some 7))])
  /\ (let processed := ProcessIssuedTokens (fst requested) [Some 7; Some 8] (inr 0) in
      snd processed = Err (ErrOther "invalid signature")
      /\ Storage (fst processed) = []).
Proof. cbv zeta. repeat split. Qed.

End token_facts.

(** ** Bootstrap hubs *)

Module hub_facts.
Import hub.

Lemma split_first_no_occurrence c s :
  contains c s = false -> split_first c s = (s, None).
Proof.
  induction s as [|a s IH]; simpl; [reflexivity|].
  intros H. apply orb_false_iff in H. destruct H as [Ha Hs].
  rewrite Ha, (IH Hs). reflexivity.
Qed.

(** An address without [#] has no option. *)
Lemma ParseTransport_no_fragment s t :
  contains "#" s = false -> ParseTransport s = inr t -> Option_ t = EmptyString.
Proof.
  intros Hc. unfold ParseTransport. rewrite (split_first_no_occurrence _ _ Hc).
  repeat match goal with
         | |- context [match ?x with _ => _ end] => destruct x
         end; try discriminate; intros [= <-]; reflexivity.
Qed.

Section Bootstrap_facts.
Context {L : HubLib}.

(** What [ParseBootstrapHub] does with a transport that parsed. *)
Lemma ParseBootstrapHub_parsed s mapName t :
  ParseTransport s = inr t ->
  (Option_ t = EmptyString -> ParseBootstrapHub s mapName = inl ErrMissingHubID)
  /\ (forall e, Option_ t <> EmptyString -> FromBase58 (Option_ t) = inl e ->
        ParseBootstrapHub s mapName = inl (ErrInvalidHubID e))
  /\ (ParseIP (Domain t) = None -> exists e, ParseBootstrapHub s mapName = inl e).
Proof.
  intros Ht. unfold ParseBootstrapHub. rewrite Ht. repeat split.
  - intros ->. reflexivity.
  - intros e Hne He. apply String.eqb_neq in Hne. now rewrite Hne, He.
  - intros Hip. destruct (String.eqb _ _); [eexists; reflexivity|].
    destruct (FromBase58 _); [eexists; reflexivity|].
    rewrite Hip. eexists; reflexivity.
Qed.

(** C8: for the address [tcp://1.2.3.4:17/#<id>] whose fragment [id]
    decodes as a base58 labeled hash, [ParseBootstrapHub] returns the hub
    whose ID is that fragment (the hub ID, which decodes to the hash),
    whose IPv4 address is 1.2.3.4 and whose only transport is [tcp://:17],
    without host and fragment.  It returns an error when the address has
    no fragment, when the fragment does not decode, and when the host is
    not an IP address. *)
Theorem ParseBootstrapHub_spec :
  (forall id mapName h,
      id <> EmptyString -> FromBase58 id = inr h ->
      ParseBootstrapHub ("tcp://1.2.3.4:17/#" ++ id) mapName
      = inr {| ID := id; Map := mapName; hub_Status := ZeroStatus;
               Info := {| ann_ID := id; Transports := ["tcp://:17"%string];
                          ann_IPv4 := Some [1; 2; 3; 4]; ann_IPv6 := None |} |})
  /\ (forall s mapName,
      contains "#" s = false -> exists e, ParseBootstrapHub s mapName = inl e)
  /\ (forall s mapName t,
      ParseTransport s = inr t ->
      (Option_ t = EmptyString -> ParseBootstrapHub s mapName = inl ErrMissingHubID)
      /\ (forall e, Option_ t <> EmptyString -> FromBase58 (Option_ t) = inl e ->
            ParseBootstrapHub s mapName = inl (ErrInvalidHubID e))
      /\ (ParseIP (Domain t) = None -> exists e, ParseBootstrapHub s mapName = inl e)).
Proof.
  split; [|split; [|exact ParseBootstrapHub_parsed]].
  - intros id mapName h Hne Hh. unfold ParseBootstrapHub.
    cbn. apply String.eqb_neq in Hne. rewrite Hne, Hh. reflexivity.
  - intros s mapName Hc. unfold ParseBootstrapHub.
    destruct (ParseTransport s) as [e|t] eqn:Ht; [eexists; reflexivity|].
    rewrite (ParseTransport_no_fragment _ _ Hc Ht). eexists; reflexivity.
Qed.

End Bootstrap_facts.

Lemma ParseBootstrapHub_spec_witness :
  @ParseBootstrapHub sampleHubLib "tcp://1.2.3.4:17/#ZwtKsZSxop" "main"
  = inr {| ID := "ZwtKsZSxop"; Map := "main"; hub_Status := ZeroStatus;
           Info := {| ann_ID := "ZwtKsZSxop"; Transports := ["tcp://:17"%string];
                      ann_IPv4 := Some [1; 2; 3; 4]; ann_IPv6 := None |} |}
  /\ @ParseBootstrapHub sampleHubLib "tcp://1.2.3.4:17/" "main" = inl ErrMissingHubID
  /\ @ParseBootstrapHub sampleHubLib "tcp://1.2.3.4:17/#0OIl" "main"
     = inl (ErrInvalidHubID "invalid base58")
  /\ exists e,
       @ParseBootstrapHub sampleHubLib "tcp://example.com:17/#ZwtKsZSxop" "main" = inl e.
Proof.
  destruct (@ParseBootstrapHub_spec sampleHubLib) as (Hok & _ & Hparsed).
  split; [|split; [|split]].
  - apply (Hok "ZwtKsZSxop"%string "main"%string "ZwtKsZSxop"%string);
      [discriminate | reflexivity].
  - apply (proj1 (Hparsed "tcp://1.2.3.4:17/"%string "main"%string _ eq_refl)).
    reflexivity.
  - apply (proj1 (proj2 (Hparsed "tcp://1.2.3.4:17/#0OIl"%string "main"%string _ eq_refl)));
      [discriminate | reflexivity].
  - apply (proj2 (proj2 (Hparsed "tcp://example.com:17/#ZwtKsZSxop"%string "main"%string
                           _ eq_refl))).
    reflexivity.
Defined.

End hub_facts.

(** ** Blocks and frames *)

Module frames_facts.
Import varint varint_facts container container_facts.
Import varint_more container_blocks terminal_msg terminal_frames.

Lemma PutUvarint_more_fuel n : forall m x bs,
  PutUvarint n x = Some bs -> (n <= m)%nat -> PutUvarint m x = Some bs.
Proof.
  induction n as [|n IH]; intros m x bs H Hle; [discriminate|].
  destruct m as [|m]; [lia|]. simpl in *.
  destruct (0x80 <=? x); [|assumption].
  destruct (PutUvarint n (Z.shiftr x 7)) as [bs'|] eqn:E; [|discriminate].
  rewrite (IH m _ _ E) by lia. assumption.
Qed.

(** A number of at most [7 * k] bits, [k] up to 9, is written by [Pack64]
    in at most [k] bytes, which [Uvarint] reads back, whatever follows. *)
Lemma Uvarint_Pack64 k x rest :
  (0 < k <= 9)%nat -> 0 <= x < 2 ^ (7 * Z.of_nat k) ->
  (0 < List.length (Pack64 x) <= k)%nat
  /\ Uvarint (Pack64 x ++ rest) = (x, Z.of_nat (List.length (Pack64 x))).
Proof.
  intros Hk Hx.
  destruct (PutUvarint_fits k x Hx ltac:(lia)) as (bs & Hbs & Hlen).
  assert (H64 : u64 x = x).
  { apply u64_small. split; [lia|].
    eapply Z.lt_le_trans; [apply Hx|]. apply Z.pow_le_mono_r; lia. }
  unfold Pack64. rewrite H64, (PutUvarint_more_fuel k 10 x bs Hbs) by lia.
  split; [assumption|]. unfold Uvarint.
  rewrite (Uvarint_loop_PutUvarint k x bs 0 0 0 rest Hbs Hx) by lia.
  rewrite Z.shiftl_0_r, Z.lor_0_l, Z.add_0_l. reflexivity.
Qed.

Lemma unpack_checks (n r : Z) : 0 < r ->
  ((r =? 0) = false) /\ ((r <? 0) = false).
Proof. intros H. split; [apply Z.eqb_neq | apply Z.ltb_ge]; lia. Qed.

(** The space report that [Pack64] wrote in front of a payload is read
    back by [GetNextN16] when it is at most 65535. *)
Lemma GetNextN16_Pack64 n p : 0 <= n <= 65535 ->
  GetNextN16 (Prepend p (Pack64 n)) = Ok (n, p).
Proof.
  intros Hn.
  destruct (Uvarint_Pack64 3 n (firstn (3 - List.length (Pack64 n)) p)) as (Hlen & Hdec);
    [lia | change (2 ^ (7 * Z.of_nat 3)) with 2097152; lia |].
  unfold GetNextN16, Unpack16, unpack, Prepend.
  rewrite gather_app by lia. rewrite Hdec.
  destruct (unpack_checks n (Z.of_nat (List.length (Pack64 n))) ltac:(lia)) as (-> & ->).
  replace (65535 <? n) with false by (symmetry; apply Z.ltb_ge; lia).
  rewrite skip_app. unfold u16. rewrite Z.mod_small by (change (2 ^ 16) with 65536; lia).
  reflexivity.
Qed.

Lemma GetNextN64_Pack64 n p : 0 <= n < 2 ^ 63 ->
  GetNextN64 (Prepend p (Pack64 n)) = Ok (n, p).
Proof.
  intros Hn.
  destruct (Uvarint_Pack64 9 n (firstn (10 - List.length (Pack64 n)) p)) as (Hlen & Hdec);
    [lia | change (2 ^ (7 * Z.of_nat 9)) with (2 ^ 63); lia |].
  unfold GetNextN64, Unpack64, Prepend.
  rewrite gather_app by lia. rewrite Hdec.
  destruct (unpack_checks n (Z.of_nat (List.length (Pack64 n))) ltac:(lia)) as (-> & ->).
  rewrite skip_app, u64_small; [reflexivity|].
  assert (2 ^ 63 < 2 ^ 64) by (apply Z.pow_lt_mono_r; lia). lia.
Qed.

Lemma Get_app (b rest : list Z) : Get (len b) (b ++ rest) = Ok (b, rest).
Proof.
  unfold Get, len. rewrite Nat2Z.id.
  rewrite gather_app by lia. rewrite Nat.sub_diag. simpl. rewrite app_nil_r.
  rewrite Z.ltb_irrefl. now rewrite skip_app.
Qed.

(** A block written with its length in front is read back by
    [GetNextBlock], which leaves what follows the block. *)
Lemma GetNextBlock_PrependLength (b rest : list Z) : Length b < 2 ^ 63 ->
  GetNextBlock (PrependLength b ++ rest) = Ok (b, rest).
Proof.
  intros Hlen. unfold Length in Hlen. assert (0 <= len b) by (unfold len; lia).
  unfold GetNextBlock, PrependLength, Prepend, Length. rewrite <- app_assoc.
  change (Pack64 (len b) ++ b ++ rest) with (Prepend (b ++ rest) (Pack64 (len b))).
  rewrite GetNextN64_Pack64 by lia.
  replace (len b <? 2 ^ 63) with true by (symmetry; apply Z.ltb_lt; lia).
  apply Get_app.
Qed.

(** X1: a message made by [MakeMsg] reads back.  For a terminal ID that
    is a multiple of 4 and one of the three message types, [GetNextBlock]
    takes exactly the message off the front of the stream, whatever
    follows it, and [ParseIDType] then returns the ID, the type and the
    data as they were given. *)
Theorem MakeMsg_roundtrip c id msgType rest :
  is_u32 id -> id mod 4 = 0 -> is_msg_type msgType ->
  Length (AddIDType c id msgType) < 2 ^ 63 ->
  GetNextBlock (MakeMsg c id msgType ++ rest) = Ok (AddIDType c id msgType, rest)
  /\ ParseIDType (AddIDType c id msgType) = Ok (id, msgType, c).
Proof.
  intros Hid Hmod Hty Hlen. split.
  - unfold MakeMsg. now apply GetNextBlock_PrependLength.
  - unfold is_u32 in Hid. change (2 ^ 32) with 4294967296 in Hid.
    assert (Hm : 1 <= msgType <= 3).
    { unfold is_msg_type, MsgTypeInit, MsgTypeData, MsgTypeStop in Hty. lia. }
    assert (Hid4 : id <= 4294967292) by (apply Z.div_exact in Hmod; lia).
    unfold AddIDType.
    rewrite (u32_small msgType) by (unfold is_u32; change (2 ^ 32) with 4294967296; lia).
    rewrite terminal_msg_facts.lor_low2 by lia.
    rewrite (terminal_msg_facts.ParseIDType_of_varint _ (id + msgType) c).
    + assert (Hr : (id + msgType) mod 4 = msgType).
      { rewrite Z.add_mod, Hmod by lia. simpl. rewrite Z.mod_mod by lia.
        apply Z.mod_small. lia. }
      rewrite Hr. replace (id + msgType - msgType) with id by lia. reflexivity.
    + apply GetNextN32_Pack32. unfold is_u32. change (2 ^ 32) with 4294967296. lia.
Qed.

Lemma MakeMsg_roundtrip_witness :
  GetNextBlock (MakeMsg [104; 105] 8 MsgTypeData ++ [0])
  = Ok (AddIDType [104; 105] 8 MsgTypeData, [0])
  /\ ParseIDType (AddIDType [104; 105] 8 MsgTypeData) = Ok (8, MsgTypeData, [104; 105]).
Proof.
  apply (MakeMsg_roundtrip [104; 105] 8 MsgTypeData [0]).
  - unfold is_u32. split; [lia | reflexivity].
  - reflexivity.
  - right. left. reflexivity.
  - reflexivity.
Defined.

End frames_facts.

(** ** The worker: what it sends *)

Module flow_facts.
Import varint varint_facts container container_facts terminal terminal_facts.
Import frames_facts flow.

(** *** One worker *)

Lemma reportableRecvSpace_range dfq :
  0 <= snd (reportableRecvSpace dfq) <= MaxInt32.
Proof.
  unfold reportableRecvSpace.
  set (t := sub32 _ _).
  assert (Ht : is_int32 t) by apply int32_range.
  unfold is_int32 in Ht.
  destruct (Z.leb_spec t 1); simpl; unfold MaxInt32 in *; lia.
Qed.

(** The three leading bytes of a number of 2^21 or more are all
    continuation bytes, and [Uvarint] sees no end in them. *)
Lemma Uvarint_loop_cont bs : forall i x s,
  Forall (fun b => 0x80 <= b) bs -> i + Z.of_nat (List.length bs) <= 9 -> 0 <= i ->
  Uvarint_loop bs i x s = (0, 0).
Proof.
  induction bs as [|b bs IH]; intros i x s Hall Hlen Hi; [reflexivity|].
  apply Forall_cons_iff in Hall. destruct Hall as [Hb Hall].
  cbn [Uvarint_loop List.length] in *.
  replace (i =? MaxVarintLen64) with false
    by (symmetry; apply Z.eqb_neq; unfold MaxVarintLen64; lia).
  replace (b <? 0x80) with false by (symmetry; apply Z.ltb_ge; lia).
  apply IH; auto; lia.
Qed.

Lemma PutUvarint_cont n x bs : PutUvarint (S n) x = Some bs -> 0x80 <= x ->
  exists bs', bs = Z.lor (u8 x) 0x80 :: bs' /\ PutUvarint n (Z.shiftr x 7) = Some bs'.
Proof.
  simpl. intros H Hx.
  replace (0x80 <=? x) with true in H by (symmetry; apply Z.leb_le; lia).
  destruct (PutUvarint n (Z.shiftr x 7)) as [bs'|]; [|discriminate].
  injection H as <-. eauto.
Qed.

Lemma shiftr7_ge x k : 0 <= k -> 2 ^ (k + 7) <= x -> 2 ^ k <= Z.shiftr x 7.
Proof.
  intros Hk Hx. rewrite Z.shiftr_div_pow2 by lia.
  apply Z.div_le_lower_bound; [lia|]. rewrite <- Z.pow_add_r by lia.
  now rewrite Z.add_comm.
Qed.

Lemma GetNextN16_too_big n p : 65535 < n <= MaxInt32 ->
  exists e, GetNextN16 (Prepend p (Pack64 n)) = Err e.
Proof.
  intros Hn. unfold MaxInt32 in Hn.
  destruct (Z.lt_ge_cases n (2 ^ 21)) as [Hsmall|Hbig].
  - destruct (Uvarint_Pack64 3 n (firstn (3 - List.length (Pack64 n)) p)) as (Hlen & Hdec);
      [lia | change (2 ^ (7 * Z.of_nat 3)) with (2 ^ 21); lia |].
    unfold GetNextN16, Unpack16, unpack, Prepend.
    rewrite gather_app by lia. rewrite Hdec.
    destruct (frames_facts.unpack_checks n (Z.of_nat (List.length (Pack64 n))) ltac:(lia))
      as (-> & ->).
    replace (65535 <? n) with true by (symmetry; apply Z.ltb_lt; lia).
    eexists; reflexivity.
  - assert (Hfit : 0 <= n < 2 ^ (7 * Z.of_nat 5)).
    { change (2 ^ (7 * Z.of_nat 5)) with (2 ^ 35).
      assert (2 ^ 31 < 2 ^ 35) by (apply Z.pow_lt_mono_r; lia). lia. }
    destruct (PutUvarint_fits 5 n Hfit ltac:(lia)) as (bs & Hbs & _).
    assert (H64 : u64 n = n).
    { apply u64_small. assert (2 ^ 31 < 2 ^ 64) by (apply Z.pow_lt_mono_r; lia). lia. }
    assert (H1 : 2 ^ 14 <= Z.shiftr n 7) by (apply shiftr7_ge; [lia | exact Hbig]).
    assert (H2 : 2 ^ 7 <= Z.shiftr (Z.shiftr n 7) 7) by (apply shiftr7_ge; [lia | exact H1]).
    assert (P7 : 2 ^ 7 = 128) by reflexivity.
    assert (P14 : 2 ^ 14 = 16384) by reflexivity.
    assert (P21 : 2 ^ 21 = 2097152) by reflexivity.
    destruct (PutUvarint_cont _ _ _ Hbs ltac:(lia)) as (b1 & -> & Hb1).
    destruct (PutUvarint_cont _ _ _ Hb1 ltac:(lia)) as (b2 & -> & Hb2).
    destruct (PutUvarint_cont _ _ _ Hb2 ltac:(lia)) as (b3 & -> & Hb3).
    unfold GetNextN16, Unpack16, unpack, Uvarint, Prepend, Pack64.
    rewrite H64, (PutUvarint_more_fuel 5 10 n _ Hbs) by lia.
    cbn [gather firstn app].
    rewrite Uvarint_loop_cont; [eexists; reflexivity | | simpl; lia | lia].
    repeat constructor; apply varint_facts.high_bit.
    + lia.
    + rewrite Z.shiftr_div_pow2 by lia. apply Z.div_pos; lia.
    + lia.
Qed.

Section OneWorker.
Variable forceReportBelow : Z -> Z.

(** X3: a report of more than 65535 slots cannot be read at the other
    end.  The worker writes the reportable space as a varint of up to 64
    bits in front of the container, and [Deliver] reads a varint of at
    most 16 bits: when the reportable space is above 65535, which a queue
    of more than 65535 slots allows, [Deliver] at the other end returns
    [ErrMalformedData] and changes nothing. *)
Theorem oversized_report_rejected w c q peer :
  wk_returned w = false -> sendSpaceDepleted w = false ->
  wk_sendQueue w = Some c :: q ->
  65535 < snd (reportableRecvSpace (wk_dfq w)) ->
  exists w' e,
    FlowHandler_step SelSendQueue w = Some (w', [e])
    /\ Deliver forceReportBelow peer (Some e)
       = (peer, Some (ErrMalformedData "failed to parse reported space")).
Proof.
  intros Hret Hdep Hq Hbig. unfold FlowHandler_step. rewrite Hret, Hdep, Hq.
  assert (Hrange := reportableRecvSpace_range (wk_dfq w)).
  destruct (reportableRecvSpace (wk_dfq w)) as [dfq space]. simpl in Hbig, Hrange.
  cbn [decrementSendSpace].
  eexists _, _. split; [reflexivity|].
  destruct (GetNextN16_too_big space c ltac:(lia)) as [e He].
  unfold Deliver. rewrite He. reflexivity.
Qed.

End OneWorker.

Lemma oversized_report_rejected_witness :
  let w := mkWorker (mkDFQ 70000 [] 70000 false [] 0 false) [Some [104]] false [] [] false in
  exists w' e,
    FlowHandler_step SelSendQueue w = Some (w', [e])
    /\ Deliver (fun c => 3 * c / 4) (NewDuplexFlowQueue 70000) (Some e)
       = (NewDuplexFlowQueue 70000, Some (ErrMalformedData "failed to parse reported space")).
Proof.
  intros w.
  apply (oversized_report_rejected (fun c => 3 * c / 4) w [104] [] (NewDuplexFlowQueue 70000)).
  - reflexivity.
  - reflexivity.
  - reflexivity.
  - reflexivity.
Defined.

End flow_facts.

(** ** The worker: flush functions *)

Module flush_facts.
Import container terminal flow flow_runs.

Lemma forcedReport_flush w :
  let w' := fst (forcedReport w) in
  flushFinished w' = flushFinished w /\ finished w' = finished w
  /\ wk_sendQueue w' = wk_sendQueue w /\ wk_returned w' = wk_returned w.
Proof.
  unfold forcedReport. destruct (reportableRecvSpace _). simpl. auto.
Qed.

(** The worker takes a container off the send queue. *)
Lemma FlowHandler_step_send w c q :
  wk_returned w = false -> sendSpaceDepleted w = false ->
  wk_sendQueue w = Some c :: q ->
  FlowHandler_step SelSendQueue w =
  let dfq := fst (reportableRecvSpace (wk_dfq w)) in
  let space := snd (reportableRecvSpace (wk_dfq w)) in
  let v := add32 (sendSpace dfq) (-1) in
  Some ({| wk_dfq := set_sendSpace dfq v (wakeSender dfq);
           wk_sendQueue := q;
           sendSpaceDepleted := v <=? 0;
           flushFinished := match q with [] => [] | _ => flushFinished w end;
           finished := match q with
                       | [] => finished w ++ flushFinished w
                       | _ => finished w
                       end;
           wk_returned := false |},
        [Prepend c (varint.Pack64 space)]).
Proof.
  intros Hret Hdep Hq. unfold FlowHandler_step. rewrite Hret, Hdep, Hq.
  destruct (reportableRecvSpace (wk_dfq w)) as [dfq space].
  cbn [decrementSendSpace fst snd]. unfold with_flush, with_depleted, with_sendQueue, with_dfq.
  cbn [wk_dfq wk_sendQueue sendSpaceDepleted flushFinished finished wk_returned].
  rewrite Hret.
  destruct (flushFinished w) as [|f fs], q as [|c' q]; rewrite ?app_nil_r; reflexivity.
Qed.

(** One step: the requests finished or pending are those from before and
    the one that came in; requests are finished only at an empty queue;
    and none is left pending at an empty queue. *)
Lemma worker_step_flush ev w w' :
  worker_step ev w = Some w' -> flush_inv w ->
  finished w' ++ flushFinished w' = finished w ++ flushFinished w ++ flushes [ev]
  /\ (finished w' <> finished w -> wk_sendQueue w' = [])
  /\ flush_inv w'.
Proof.
  unfold flush_inv. intros Hstep Hinv.
  destruct ev as [sel|c|dfq]; cbn [worker_step flushes] in *.
  - destruct (wk_returned w) eqn:Hret.
    { unfold FlowHandler_step in Hstep. rewrite Hret in Hstep. discriminate. }
    specialize (Hinv eq_refl).
    assert (Hfr := forcedReport_flush w). cbv zeta in Hfr.
    destruct Hfr as (F1 & F2 & F3 & F4).
    destruct (sendSpaceDepleted w) eqn:Hdep.
    + (* waiting for send space *)
      unfold FlowHandler_step in Hstep. rewrite Hret, Hdep in Hstep.
      destruct sel; try discriminate;
        try (destruct (wakeSender (wk_dfq w)); [|discriminate]);
        try (destruct (forceSpaceReport (wk_dfq w)); [|discriminate]);
        injection Hstep as <-; cbn; rewrite ?F1, ?F2, ?F3, ?F4, ?app_nil_r;
        (split; [reflexivity|split]); intros; try congruence; auto.
    + destruct sel.
      * unfold FlowHandler_step in Hstep. rewrite Hret, Hdep in Hstep. discriminate.
      * unfold FlowHandler_step in Hstep. rewrite Hret, Hdep in Hstep.
        destruct (forceSpaceReport (wk_dfq w)); [|discriminate].
        injection Hstep as <-. rewrite F1, F2, F3, F4, app_nil_r.
        (split; [reflexivity|split]); intros; try congruence; auto.
      * unfold FlowHandler_step in Hstep. rewrite Hret, Hdep in Hstep.
        injection Hstep as <-. cbn. rewrite app_nil_r.
        (split; [reflexivity|split]); intros; try congruence; auto.
      * unfold FlowHandler_step in Hstep. rewrite Hret, Hdep in Hstep.
        injection Hstep as <-. cbn. rewrite app_nil_r.
        (split; [reflexivity|split]); intros; try congruence; auto.
      * (* a container, or nil, from the send queue *)
        destruct (wk_sendQueue w) as [|[c|] q] eqn:Hq.
        -- unfold FlowHandler_step in Hstep. rewrite Hret, Hdep, Hq in Hstep. discriminate.
        -- rewrite (FlowHandler_step_send w c q Hret Hdep Hq) in Hstep.
           cbv zeta in Hstep. injection Hstep as <-. cbn.
           destruct q; rewrite ?app_nil_r;
             (split; [reflexivity|split]); intros; try congruence; auto.
        -- unfold FlowHandler_step in Hstep. rewrite Hret, Hdep, Hq in Hstep.
           injection Hstep as <-. cbn. rewrite app_nil_r.
           (split; [reflexivity|split]); intros; try congruence; auto.
      * (* a flush request *)
        unfold FlowHandler_step in Hstep. rewrite Hret, Hdep in Hstep.
        destruct (wk_sendQueue w) as [|c q] eqn:Hq; injection Hstep as <-; cbn.
        -- assert (Hnil : flushFinished w = []).
           { destruct (flushFinished w); [reflexivity|]. exfalso. apply Hinv; congruence. }
           rewrite Hq, Hnil, !app_nil_r. (split; [reflexivity|split]); intros; try congruence; auto.
        -- rewrite Hq. (split; [reflexivity|split]); intros; try congruence; auto.
  - unfold Send in Hstep. destruct (_ <? _); [|discriminate].
    injection Hstep as <-. cbn. rewrite app_nil_r.
    split; [reflexivity|split]; [congruence|].
    intros _ _ H. destruct (wk_sendQueue w); discriminate.
  - injection Hstep as <-. cbn. rewrite app_nil_r.
    split; [reflexivity|split]; [congruence|assumption].
Qed.

Lemma flushes_app evs evs' : flushes (evs ++ evs') = flushes evs ++ flushes evs'.
Proof.
  induction evs as [|[[]| |] evs IH]; simpl; rewrite ?IH; reflexivity.
Qed.

Lemma worker_run_flush evs : forall w w',
  worker_run evs w = Some w' -> flush_inv w ->
  finished w' ++ flushFinished w' = finished w ++ flushFinished w ++ flushes evs
  /\ flush_inv w'.
Proof.
  induction evs as [|ev evs IH]; intros w w' Hrun Hinv; simpl in Hrun.
  - injection Hrun as <-. simpl. rewrite app_nil_r. auto.
  - destruct (worker_step ev w) as [w1|] eqn:Hstep; [|discriminate].
    destruct (worker_step_flush _ _ _ Hstep Hinv) as (H1 & _ & Hinv1).
    destruct (IH _ _ Hrun Hinv1) as (H2 & Hinv').
    split; [|assumption].
    rewrite H2, app_assoc, H1. change (ev :: evs) with ([ev] ++ evs).
    rewrite flushes_app, <- !app_assoc. reflexivity.
Qed.

(** X4: the flush functions of a worker.  After any run of a new worker
    (cases of its select, calls of [Send], changes by the receiving
    side), the flush functions that it has called, followed by those it
    still holds, are exactly those that were handed to it, in their
    order; while it runs it holds one only if the send queue is not
    empty; and whenever a step calls one, the send queue is empty after
    that step. *)
Theorem Flush_callbacks queueSize evs w :
  worker_run evs (NewWorker queueSize) = Some w ->
  finished w ++ flushFinished w = flushes evs
  /\ (wk_returned w = false -> flushFinished w <> [] -> wk_sendQueue w <> [])
  /\ (forall ev w', worker_step ev w = Some w' ->
        finished w' <> finished w -> wk_sendQueue w' = []).
Proof.
  intros Hrun.
  assert (Hinit : flush_inv (NewWorker queueSize)).
  { unfold flush_inv. simpl. congruence. }
  destruct (worker_run_flush _ _ _ Hrun Hinit) as (H1 & Hinv).
  split; [exact H1|]. split; [exact Hinv|].
  intros ev w' Hstep. now destruct (worker_step_flush _ _ _ Hstep Hinv) as (_ & H & _).
Qed.

Lemma Flush_callbacks_witness :
  let evs := [WSend (Some [104]); WSelect (SelFlush 1); WSelect SelSendQueue] in
  exists w,
    worker_run evs (NewWorker 4) = Some w
    /\ finished w ++ flushFinished w = flushes evs
    /\ (wk_returned w = false -> flushFinished w <> [] -> wk_sendQueue w <> [])
    /\ (forall ev w', worker_step ev w = Some w' ->
          finished w' <> finished w -> wk_sendQueue w' = []).
Proof.
  intros evs. eexists. split; [vm_compute; reflexivity|].
  apply (Flush_callbacks 4 evs). vm_compute. reflexivity.
Defined.

End flush_facts.

(** ** The worker: reports of space *)

Module report_facts.
Import varint varint_facts container container_facts terminal terminal_facts.
Import frames_facts flow flow_facts flow_runs flush_facts.

Lemma reportableRecvSpace_sendSpace dfq :
  sendSpace (fst (reportableRecvSpace dfq)) = sendSpace dfq
  /\ wakeSender (fst (reportableRecvSpace dfq)) = wakeSender dfq.
Proof. unfold reportableRecvSpace. destruct (_ <=? 1); split; reflexivity. Qed.

(** X6: space is not reported twice.  A second call of
    [reportableRecvSpace], with nothing received or taken in between,
    returns 0 and changes nothing, whatever the first call returned and
    whatever the counters are. *)
Theorem reportableRecvSpace_again dfq :
  reportableRecvSpace (fst (reportableRecvSpace dfq)) = (fst (reportableRecvSpace dfq), 0).
Proof.
  unfold reportableRecvSpace at 2 3.
  destruct (Z.leb_spec (sub32 (int32 (cap dfq - len (recvQueue dfq))) (reportedSpace dfq)) 1)
    as [Hle|Hgt]; cbn [fst].
  - unfold reportableRecvSpace.
    replace (_ <=? 1) with true by (symmetry; apply Z.leb_le; exact Hle). reflexivity.
  - unfold reportableRecvSpace. cbn [cap queueSize recvQueue reportedSpace set_recv].
    fold (cap dfq). rewrite add32_sub32.
    unfold sub32. rewrite Z.sub_diag. reflexivity.
Qed.

Section Sent.
Variable forceReportBelow : Z -> Z.

(** X2: what the worker sends reads back.  When the worker takes a
    container off the send queue it submits the container with the
    reportable space in front; as long as that space is at most 65535,
    [GetNextN16], which is how [Deliver] at the other end starts, returns
    that space and leaves the container as it was handed to [Send]. *)
Theorem sent_container_read_back w c q :
  wk_returned w = false -> sendSpaceDepleted w = false ->
  wk_sendQueue w = Some c :: q ->
  snd (reportableRecvSpace (wk_dfq w)) <= 65535 ->
  exists w',
    FlowHandler_step SelSendQueue w
    = Some (w', [Prepend c (Pack64 (snd (reportableRecvSpace (wk_dfq w))))])
    /\ wk_sendQueue w' = q
    /\ GetNextN16 (Prepend c (Pack64 (snd (reportableRecvSpace (wk_dfq w)))))
       = Ok (snd (reportableRecvSpace (wk_dfq w)), c).
Proof.
  intros Hret Hdep Hq Hfit.
  rewrite (FlowHandler_step_send w c q Hret Hdep Hq). cbv zeta.
  assert (Hrange := reportableRecvSpace_range (wk_dfq w)).
  destruct (reportableRecvSpace (wk_dfq w)) as [dfq space]. cbn [fst snd] in *.
  eexists. split; [reflexivity|]. split.
  - cbn [with_depleted with_sendQueue with_dfq wk_sendQueue].
    destruct (flushFinished w), q; reflexivity.
  - apply GetNextN16_Pack64. lia.
Qed.

(** X7: an empty container costs send space and takes no slot.  Sent
    through the worker, a container without data lowers the send space of
    the sender by one like any other; [Deliver] at the other end takes
    what arrives for a report of space only: it returns no error and
    leaves the receive queue and the reported space as they were, so
    that the space it can report is what it was before: the space that
    was spent is not reported back. *)
Theorem empty_container_costs_credit w q peer :
  wk_returned w = false -> sendSpaceDepleted w = false ->
  wk_sendQueue w = Some New :: q ->
  snd (reportableRecvSpace (wk_dfq w)) <= 65535 ->
  exists w' e,
    FlowHandler_step SelSendQueue w = Some (w', [e])
    /\ sendSpace (wk_dfq w') = add32 (sendSpace (wk_dfq w)) (-1)
    /\ snd (Deliver forceReportBelow peer (Some e)) = None
    /\ recvQueue (fst (Deliver forceReportBelow peer (Some e))) = recvQueue peer
    /\ reportedSpace (fst (Deliver forceReportBelow peer (Some e))) = reportedSpace peer
    /\ snd (reportableRecvSpace (fst (Deliver forceReportBelow peer (Some e))))
       = snd (reportableRecvSpace peer).
Proof.
  intros Hret Hdep Hq Hfit.
  rewrite (FlowHandler_step_send w New q Hret Hdep Hq). cbv zeta.
  assert (Hrange := reportableRecvSpace_range (wk_dfq w)).
  destruct (reportableRecvSpace_sendSpace (wk_dfq w)) as [Hs _].
  destruct (reportableRecvSpace (wk_dfq w)) as [dfq space]. cbn [fst snd] in *.
  eexists _, _. split; [reflexivity|]. split.
  - rewrite <- Hs. destruct (flushFinished w), q; reflexivity.
  - assert (Hget : GetNextN16 (Prepend New (Pack64 space)) = Ok (space, New))
      by (apply GetNextN16_Pack64; lia).
    rewrite (Deliver_eq forceReportBelow _ _ _ _ Hget). cbv zeta. cbn [HoldsData New negb].
    destruct (0 <? space); cbn [fst snd]; repeat split; try reflexivity.
    unfold reportableRecvSpace, addToSendSpace, cap.
    cbn [queueSize recvQueue reportedSpace set_sendSpace].
    now destruct (_ <=? 1).
Qed.

End Sent.

Lemma sent_container_read_back_witness :
  let w := mkWorker (NewDuplexFlowQueue 4) [Some [104]] false [] [] false in
  exists w',
    FlowHandler_step SelSendQueue w
    = Some (w', [Prepend [104] (Pack64 (snd (reportableRecvSpace (wk_dfq w))))])
    /\ wk_sendQueue w' = []
    /\ GetNextN16 (Prepend [104] (Pack64 (snd (reportableRecvSpace (wk_dfq w)))))
       = Ok (snd (reportableRecvSpace (wk_dfq w)), [104]).
Proof.
  intros w. apply (sent_container_read_back w [104] []).
  - reflexivity.
  - reflexivity.
  - reflexivity.
  - vm_compute. discriminate.
Defined.

Lemma empty_container_costs_credit_witness :
  let f := fun c => 3 * c / 4 in
  let w := mkWorker (NewDuplexFlowQueue 4) [Some New] false [] [] false in
  let peer := NewDuplexFlowQueue 4 in
  exists w' e,
    FlowHandler_step SelSendQueue w = Some (w', [e])
    /\ sendSpace (wk_dfq w') = add32 (sendSpace (wk_dfq w)) (-1)
    /\ snd (Deliver f peer (Some e)) = None
    /\ recvQueue (fst (Deliver f peer (Some e))) = recvQueue peer
    /\ reportedSpace (fst (Deliver f peer (Some e))) = reportedSpace peer
    /\ snd (reportableRecvSpace (fst (Deliver f peer (Some e))))
       = snd (reportableRecvSpace peer).
Proof.
  intros f w peer. apply (empty_container_costs_credit f w [] peer).
  - reflexivity.
  - reflexivity.
  - reflexivity.
  - vm_compute. discriminate.
Defined.

End report_facts.

(** ** Two ends: send space and free slots *)

Module credit_facts.
Import varint container container_facts terminal terminal_facts.
Import frames_facts flow flow_runs flush_facts.

Lemma len_ge0 {A} (l : list A) : 0 <= len l.
Proof. unfold len. lia. Qed.

Lemma reported_range c : 0 <= reported c <= 65535.
Proof.
  unfold reported. destruct (GetNextN16 c) as [[n p]| |] eqn:E; try lia.
  exact (GetNextN16_range _ _ _ E).
Qed.

Lemma carries_range c : 0 <= carries c <= 1.
Proof.
  unfold carries. destruct (GetNextN16 c) as [[n p]| |]; try lia.
  destruct (HoldsData p); lia.
Qed.

Lemma credits_nonneg l : 0 <= credits l.
Proof.
  induction l as [|c l IH]; simpl; [lia|]. assert (H := reported_range c). lia.
Qed.

Lemma payloads_nonneg l : 0 <= payloads l.
Proof.
  induction l as [|c l IH]; simpl; [lia|]. assert (H := carries_range c). lia.
Qed.

Lemma credits_cons c l : credits (c :: l) = reported c + credits l.
Proof. reflexivity. Qed.

Lemma payloads_cons c l : payloads (c :: l) = carries c + payloads l.
Proof. reflexivity. Qed.

Lemma credits_app l l' : credits (l ++ l') = credits l + credits l'.
Proof. induction l as [|c l IH]; simpl; lia. Qed.

Lemma payloads_app l l' : payloads (l ++ l') = payloads l + payloads l'.
Proof. induction l as [|c l IH]; simpl; lia. Qed.

(** A container as the worker sends it: the space report, then the
    payload. *)
Lemma sent_container n p : 0 <= n <= 65535 ->
  readable (Prepend p (Pack64 n))
  /\ reported (Prepend p (Pack64 n)) = n
  /\ carries (Prepend p (Pack64 n)) = (if HoldsData p then 1 else 0).
Proof.
  intros Hn. unfold readable, reported, carries.
  rewrite (GetNextN16_Pack64 n p Hn). eauto.
Qed.

(** The report of space while the reported space is within the
    capacity and the capacity within 16 bits: no wrap-around, and the
    reported space stays or moves up to the free slots. *)
Lemma reportableRecvSpace_bounded dfq :
  0 <= reportedSpace dfq <= cap dfq -> len (recvQueue dfq) <= cap dfq -> cap dfq <= 65535 ->
  let dfq' := fst (reportableRecvSpace dfq) in
  let space := snd (reportableRecvSpace dfq) in
  0 <= space <= 65535
  /\ reportedSpace dfq' = reportedSpace dfq + space
  /\ (space = 0 \/ reportedSpace dfq' = cap dfq - len (recvQueue dfq))
  /\ recvQueue dfq' = recvQueue dfq /\ cap dfq' = cap dfq
  /\ sendSpace dfq' = sendSpace dfq /\ wakeSender dfq' = wakeSender dfq.
Proof.
  intros Hrep Hlen' Hcap. assert (Hlen : 0 <= len (recvQueue dfq)) by (unfold len; lia).
  set (free := cap dfq - len (recvQueue dfq)) in *.
  unfold reportableRecvSpace. fold free.
  assert (Hfree : int32 free = free).
  { apply int32_small. unfold is_int32, MinInt32, MaxInt32. lia. }
  assert (Hsub : sub32 (int32 free) (reportedSpace dfq) = free - reportedSpace dfq).
  { unfold sub32. rewrite Hfree. apply int32_small.
    unfold is_int32, MinInt32, MaxInt32. lia. }
  rewrite Hsub.
  destruct (Z.leb_spec (free - reportedSpace dfq) 1); cbn.
  - repeat split; try lia.
  - assert (Hadd : add32 (reportedSpace dfq) (free - reportedSpace dfq) = free).
    { unfold add32. replace (reportedSpace dfq + (free - reportedSpace dfq)) with free by lia.
      exact Hfree. }
    rewrite Hadd. repeat split; try lia.
Qed.

Section TwoEnds.
Variable forceReportBelow : Z -> Z.
Variable size : Z.
Hypothesis size_range : 1 <= size <= 65535.

Ltac inv_bounds Hw Hp :=
  destruct Hw as (Wcap & Wsend & Wdep & Wlost & Wcov & Wfree & Wtop & Wread);
  destruct Hp as (Pcap & Psend & Pdep & Plost & Pcov & Pfree & Ptop & Pread).

Ltac nonneg inbound outbound w p :=
  assert (Hc := credits_nonneg outbound); assert (Hpl := payloads_nonneg inbound);
  assert (Hc' := credits_nonneg inbound); assert (Hpl' := payloads_nonneg outbound);
  assert (Hl := len_ge0 (recvQueue (wk_dfq w)));
  assert (Hl' := len_ge0 (recvQueue (wk_dfq p))).

(** The forced report keeps the invariant. *)
Lemma forcedReport_inv w p dw dp inbound outbound lw lp w' submitted :
  credit_inv size w p dp outbound inbound lw ->
  credit_inv size p w dw inbound outbound lp ->
  forcedReport w = (w', submitted) ->
  credit_inv size w' p dp (outbound ++ submitted) inbound lw
  /\ credit_inv size p w' dw inbound (outbound ++ submitted) lp.
Proof.
  intros Hw Hp Hrep. inv_bounds Hw Hp. nonneg inbound outbound w p.
  unfold forcedReport in Hrep.
  set (dfq1 := set_recv (wk_dfq w) (recvQueue (wk_dfq w)) (reportedSpace (wk_dfq w)) false) in *.
  assert (Hb := reportableRecvSpace_bounded dfq1). cbv zeta in Hb.
  destruct (reportableRecvSpace dfq1) as [dfq2 space] eqn:E. cbn [fst snd] in Hb.
  destruct Hb as (Hs & Hr & Hf & Hq & Hcap' & Hss & _);
    [unfold cap in *; cbn; lia | unfold cap in *; cbn; lia | unfold cap in *; cbn; lia |].
  cbn in Hr, Hf, Hq, Hcap', Hss.
  injection Hrep as <- <-.
  assert (Hsub : readable (Prepend New (Pack64 space))
                 /\ reported (Prepend New (Pack64 space)) = space
                 /\ carries (Prepend New (Pack64 space)) = 0)
    by (apply (sent_container space [] Hs)).
  destruct Hsub as (Hrd & Hrp & Hcr).
  unfold credit_inv. cbn [wk_dfq sendSpaceDepleted with_dfq].
  rewrite Hss, Hr, Hq, Hcap'. unfold cap in *.
  destruct (Z.ltb_spec 0 space).
  - rewrite credits_app, payloads_app. cbn [credits payloads fold_right].
    rewrite Hrp, Hcr.
    repeat split; try lia; try assumption.
    apply Forall_app. split; [assumption|]. constructor; [assumption|constructor].
  - rewrite !app_nil_r. assert (space = 0) by lia. subst space.
    repeat split; try lia; try assumption.
Qed.

(** Sending a container keeps the invariant: the send space goes down
    by one, the data on the way up by one, or, for a container without
    data, the lost space; and the space reported along is added to the
    reported space at this end. *)
Lemma send_inv w p dw dp inbound outbound lw lp c q w' submitted :
  credit_inv size w p dp outbound inbound lw ->
  credit_inv size p w dw inbound outbound lp ->
  wk_returned w = false -> sendSpaceDepleted w = false ->
  wk_sendQueue w = Some c :: q ->
  FlowHandler_step SelSendQueue w = Some (w', submitted) ->
  credit_inv size w' p dp (outbound ++ submitted) inbound
    (lw + (if HoldsData c then 0 else 1))
  /\ credit_inv size p w' dw inbound (outbound ++ submitted) lp.
Proof.
  intros Hw Hp Hret Hdepl Hq Hstep. inv_bounds Hw Hp. nonneg inbound outbound w p.
  rewrite (FlowHandler_step_send w c q Hret Hdepl Hq) in Hstep. cbv zeta in Hstep.
  assert (Hb := reportableRecvSpace_bounded (wk_dfq w)). cbv zeta in Hb.
  destruct (reportableRecvSpace (wk_dfq w)) as [dfq space]. cbn [fst snd] in Hb, Hstep.
  destruct Hb as (Hs & Hr & Hf & Hqq & Hcap' & Hss & _);
    [unfold cap in *; lia | unfold cap in *; lia | unfold cap in *; lia |].
  injection Hstep as <- <-.
  destruct (sent_container space c Hs) as (Hrd & Hrp & Hcr).
  specialize (Wdep Hdepl).
  assert (Hdec : add32 (sendSpace dfq) (-1) = sendSpace (wk_dfq w) - 1).
  { rewrite Hss. symmetry. replace (sendSpace (wk_dfq w) - 1)
      with (sendSpace (wk_dfq w) + -1) by lia.
    apply add32_small. unfold is_int32, MinInt32, MaxInt32. unfold cap in *. lia. }
  unfold credit_inv. cbn [wk_dfq sendSpaceDepleted sendSpace]. unfold cap in *.
  cbn [queueSize sendSpace set_sendSpace reportedSpace recvQueue].
  rewrite credits_app, payloads_app. cbn [credits payloads fold_right].
  rewrite Hdec, Hr, Hqq, Hcap', Hrp, Hcr.
  assert (Hfa : Forall readable (outbound ++ [Prepend c (Pack64 space)])).
  { apply Forall_app. split; [assumption|]. constructor; [assumption|constructor]. }
  destruct (HoldsData c); repeat split; try lia; try assumption.
Qed.

(** The other cases of the select move no send space. *)
Lemma quiet_inv w p dw dp inbound outbound lw lp w' :
  credit_inv size w p dp outbound inbound lw ->
  credit_inv size p w dw inbound outbound lp ->
  wk_dfq w' = wk_dfq w ->
  (sendSpaceDepleted w' = false -> sendSpaceDepleted w = true -> 0 < sendSpace (wk_dfq w)) ->
  credit_inv size w' p dp outbound inbound lw
  /\ credit_inv size p w' dw inbound outbound lp.
Proof.
  intros Hw Hp Hdfq Hwake. inv_bounds Hw Hp. unfold credit_inv. rewrite Hdfq.
  repeat split; try lia; try assumption.
  intros Hnd. destruct (sendSpaceDepleted w) eqn:E; auto.
Qed.

(** A case of the select keeps the invariant; send space is lost only
    on a container without data, and the send queue only gets
    shorter. *)
Lemma select_inv sel w p dw dp inbound outbound lw lp w' submitted :
  credit_inv size w p dp outbound inbound lw ->
  credit_inv size p w dw inbound outbound lp ->
  FlowHandler_step sel w = Some (w', submitted) ->
  exists lw',
    credit_inv size w' p dp (outbound ++ submitted) inbound lw'
    /\ credit_inv size p w' dw inbound (outbound ++ submitted) lp
    /\ (Forall holds_data (wk_sendQueue w) ->
        lw' = lw /\ Forall holds_data (wk_sendQueue w')).
Proof.
  intros Hw Hp Hstep.
  destruct (wk_returned w) eqn:Hret.
  { unfold FlowHandler_step in Hstep. rewrite Hret in Hstep. discriminate. }
  assert (Hquiet : forall w1, wk_dfq w1 = wk_dfq w ->
            (sendSpaceDepleted w1 = false -> sendSpaceDepleted w = true ->
             0 < sendSpace (wk_dfq w)) ->
            (Forall holds_data (wk_sendQueue w) -> Forall holds_data (wk_sendQueue w1)) ->
            exists lw',
              credit_inv size w1 p dp (outbound ++ []) inbound lw'
              /\ credit_inv size p w1 dw inbound (outbound ++ []) lp
              /\ (Forall holds_data (wk_sendQueue w) ->
                  lw' = lw /\ Forall holds_data (wk_sendQueue w1))).
  { intros w1 Hd Hwk Hsq. exists lw. rewrite app_nil_r.
    destruct (quiet_inv w p dw dp inbound outbound lw lp w1 Hw Hp Hd Hwk) as [H1 H2].
    auto. }
  assert (Hforced : forall w1 sub1, forcedReport w = (w1, sub1) ->
            exists lw',
              credit_inv size w1 p dp (outbound ++ sub1) inbound lw'
              /\ credit_inv size p w1 dw inbound (outbound ++ sub1) lp
              /\ (Forall holds_data (wk_sendQueue w) ->
                  lw' = lw /\ Forall holds_data (wk_sendQueue w1))).
  { intros w1 sub1 E. exists lw.
    destruct (forcedReport_inv _ _ _ _ _ _ _ _ _ _ Hw Hp E) as [H1 H2].
    split; [exact H1|]. split; [exact H2|]. intros Hq. split; [reflexivity|].
    assert (Hf := forcedReport_flush w). cbv zeta in Hf. rewrite E in Hf. cbn [fst] in Hf.
    destruct Hf as (_ & _ & -> & _). exact Hq. }
  destruct (sendSpaceDepleted w) eqn:Hdepl.
  - unfold FlowHandler_step in Hstep. rewrite Hret, Hdepl in Hstep.
    destruct sel; try discriminate.
    + destruct (wakeSender (wk_dfq w)); [|discriminate].
      injection Hstep as <- <-.
      pose (w1 := with_depleted w (negb (0 <? sendSpace (wk_dfq w)))).
      destruct (Hquiet w1 eq_refl) as (lw' & H1 & H2 & H3).
      { cbn. intros Hnd _. apply negb_false_iff, Z.ltb_lt in Hnd. exact Hnd. }
      { auto. }
      exists lw'. unfold credit_inv in *. cbn in *. unfold cap in *. cbn in *. auto.
    + destruct (forceSpaceReport (wk_dfq w)); [|discriminate].
      destruct (forcedReport w) as [w1 sub1] eqn:E. injection Hstep as <- <-.
      exact (Hforced _ _ eq_refl).
    + injection Hstep as <- <-. apply Hquiet; auto. cbn. congruence.
  - destruct sel.
    + unfold FlowHandler_step in Hstep. rewrite Hret, Hdepl in Hstep. discriminate.
    + unfold FlowHandler_step in Hstep. rewrite Hret, Hdepl in Hstep.
      destruct (forceSpaceReport (wk_dfq w)); [|discriminate].
      destruct (forcedReport w) as [w1 sub1] eqn:E. injection Hstep as <- <-.
      exact (Hforced _ _ eq_refl).
    + unfold FlowHandler_step in Hstep. rewrite Hret, Hdepl in Hstep.
      injection Hstep as <- <-. apply Hquiet; auto. cbn. congruence.
    + unfold FlowHandler_step in Hstep. rewrite Hret, Hdepl in Hstep.
      injection Hstep as <- <-. apply Hquiet; auto. congruence.
    + destruct (wk_sendQueue w) as [|[c|] q] eqn:Hq.
      * unfold FlowHandler_step in Hstep. rewrite Hret, Hdepl, Hq in Hstep. discriminate.
      * destruct (send_inv _ _ _ _ _ _ _ _ _ _ _ _ Hw Hp Hret Hdepl Hq Hstep) as [H1 H2].
        eexists. split; [exact H1|]. split; [exact H2|].
        intros Hall. apply Forall_cons_iff in Hall. destruct Hall as [Hc Hall].
        cbn [holds_data] in Hc. rewrite Hc. split; [lia|].
        rewrite (FlowHandler_step_send w c q Hret Hdepl Hq) in Hstep. cbv zeta in Hstep.
        injection Hstep as <- _. exact Hall.
      * unfold FlowHandler_step in Hstep. rewrite Hret, Hdepl, Hq in Hstep.
        injection Hstep as <- <-. apply Hquiet; auto; [cbn; congruence|].
        cbn. intros Hall. now apply Forall_cons_iff in Hall.
    + unfold FlowHandler_step in Hstep. rewrite Hret, Hdepl in Hstep.
      destruct (wk_sendQueue w) eqn:Hq; injection Hstep as <- <-;
        apply Hquiet; cbn; rewrite ?Hq; auto; congruence.
Qed.

(** A container on the way arrives: [Deliver] finds room for it and
    returns no error. *)
Lemma enqueue_inv w p dw dp c inbound outbound lw lp dfq r :
  credit_inv size w p dp outbound (c :: inbound) lw ->
  credit_inv size p w dw (c :: inbound) outbound lp ->
  Deliver_enqueue (wk_dfq w) (Some c) = (dfq, r) ->
  let dw' := match r with Enqueued => S dw | Returned _ => dw end in
  (forall e, r = Returned e -> e = None)
  /\ credit_inv size (with_dfq w dfq) p dp outbound inbound lw
  /\ credit_inv size p (with_dfq w dfq) dw' inbound outbound lp.
Proof.
  intros Hw Hp Hdel. inv_bounds Hw Hp. nonneg inbound outbound w p.
  apply Forall_cons_iff in Pread. destruct Pread as [(n & c' & Hget) Pread].
  assert (Hn := GetNextN16_range _ _ _ Hget).
  assert (Hrp : reported c = n) by (unfold reported; now rewrite Hget).
  assert (Hcr : carries c = if HoldsData c' then 1 else 0)
    by (unfold carries; now rewrite Hget).
  rewrite credits_cons, Hrp in Wcov. rewrite payloads_cons, Hcr in Pcov.
  unfold Deliver_enqueue in Hdel. rewrite Hget in Hdel. cbv zeta in Hdel.
  assert (Hint : int32 n = n).
  { apply int32_small. unfold is_int32, MinInt32, MaxInt32. lia. }
  rewrite Hint in Hdel.
  assert (Hadd : add32 (sendSpace (wk_dfq w)) n = sendSpace (wk_dfq w) + n).
  { symmetry. apply add32_small. unfold is_int32, MinInt32, MaxInt32. unfold cap in *. lia. }
  assert (Hsend' : sendSpace (if 0 <? n then addToSendSpace (wk_dfq w) n else wk_dfq w)
                   = sendSpace (wk_dfq w) + n).
  { destruct (Z.ltb_spec 0 n); cbn; [exact Hadd | lia]. }
  set (dfq1 := if 0 <? n then addToSendSpace (wk_dfq w) n else wk_dfq w) in *.
  assert (Hq1 : queueSize dfq1 = queueSize (wk_dfq w)
                /\ recvQueue dfq1 = recvQueue (wk_dfq w)
                /\ reportedSpace dfq1 = reportedSpace (wk_dfq w)).
  { unfold dfq1. destruct (0 <? n); cbn; auto. }
  destruct Hq1 as (Q1 & Q2 & Q3).
  unfold credit_inv. cbn [wk_dfq sendSpaceDepleted with_dfq]. unfold cap in *.
  destruct (HoldsData c') eqn:Hhold; cbn [negb] in Hdel.
  - rewrite Q1, Q2 in Hdel.
    replace (len (recvQueue (wk_dfq w)) <? queueSize (wk_dfq w)) with true in Hdel
      by (symmetry; apply Z.ltb_lt; lia).
    injection Hdel as <- <-. cbn [queueSize sendSpace reportedSpace recvQueue set_recv].
    rewrite Hsend', Q1, Q3.
    assert (Hlen : len (recvQueue (wk_dfq w) ++ [c']) = len (recvQueue (wk_dfq w)) + 1).
    { unfold len. rewrite length_app. simpl. lia. }
    rewrite Hlen.
    split; [discriminate|].
    repeat split; try lia; try assumption. intros Hnd. specialize (Wdep Hnd). lia.
  - injection Hdel as <- <-. rewrite Hsend', Q1, Q2, Q3.
    split; [intros e He; now injection He as <-|].
    repeat split; try lia; try assumption. intros Hnd. specialize (Wdep Hnd). lia.
Qed.

(** The rest of [Deliver] lowers the reported space by the slot that its
    container has taken. *)
Lemma finish_inv w p dw dp inbound outbound lw lp :
  credit_inv size w p dp outbound inbound lw ->
  credit_inv size p w (S dw) inbound outbound lp ->
  credit_inv size (with_dfq w (Deliver_finish forceReportBelow (wk_dfq w))) p dp
    outbound inbound lw
  /\ credit_inv size p (with_dfq w (Deliver_finish forceReportBelow (wk_dfq w))) dw
       inbound outbound lp.
Proof.
  intros Hw Hp. inv_bounds Hw Hp. nonneg inbound outbound w p.
  unfold Deliver_finish, decrementReportedRecvSpace.
  assert (Hdec : add32 (reportedSpace (wk_dfq w)) (-1) = reportedSpace (wk_dfq w) - 1).
  { symmetry. replace (reportedSpace (wk_dfq w) - 1)
      with (reportedSpace (wk_dfq w) + -1) by lia.
    apply add32_small. unfold is_int32, MinInt32, MaxInt32. unfold cap in *. lia. }
  unfold credit_inv. cbn [wk_dfq sendSpaceDepleted with_dfq]. unfold cap in *.
  cbn [queueSize sendSpace reportedSpace recvQueue set_recv]. rewrite Hdec.
  repeat split; try lia; try assumption.
Qed.

(** Every action at one end keeps the invariant of both directions, and
    [Deliver] returns no error; no send space is lost while [Send] is
    only given containers with data. *)
Lemma act_inv a w p dw dp inbound outbound lw lp w' dw' inbound' outbound' err :
  credit_inv size w p dp outbound inbound lw ->
  credit_inv size p w dw inbound outbound lp ->
  act forceReportBelow a w dw inbound outbound = Some (w', dw', inbound', outbound', err) ->
  err = None
  /\ exists lw',
       credit_inv size w' p dp outbound' inbound' lw'
       /\ credit_inv size p w' dw' inbound' outbound' lp
       /\ (forall atA, data_only (atA, a) -> Forall holds_data (wk_sendQueue w) ->
           lw' = lw /\ Forall holds_data (wk_sendQueue w')).
Proof.
  intros Hw Hp Hact. destruct a as [sel|c| | | |]; cbn [act] in Hact.
  - destruct (FlowHandler_step sel w) as [[w1 sub1]|] eqn:E; [|discriminate].
    injection Hact as <- <- <- <- <-. split; [reflexivity|].
    destruct (select_inv _ _ _ _ _ _ _ _ _ _ _ Hw Hp E) as (lw' & H1 & H2 & H3).
    exists lw'. auto.
  - unfold Send in Hact. destruct (_ <? _); [|discriminate].
    injection Hact as <- <- <- <- <-. split; [reflexivity|]. exists lw.
    destruct (quiet_inv w p dw dp inbound outbound lw lp
                (with_sendQueue w (wk_sendQueue w ++ [c])) Hw Hp eq_refl) as [H1 H2].
    { cbn. congruence. }
    split; [exact H1|]. split; [exact H2|].
    intros atA Hdata Hall. split; [reflexivity|]. cbn [wk_sendQueue with_sendQueue].
    apply Forall_app. split; [exact Hall|]. constructor; [exact Hdata|constructor].
  - destruct inbound as [|c inbound]; [discriminate|].
    destruct (Deliver_enqueue (wk_dfq w) (Some c)) as [dfq r] eqn:E.
    destruct (enqueue_inv _ _ _ _ _ _ _ _ _ _ _ Hw Hp E) as (He & H1 & H2).
    destruct r as [e|]; injection Hact as <- <- <- <- <-.
    + split; [exact (He _ eq_refl)|]. exists lw. auto.
    + split; [reflexivity|]. exists lw. auto.
  - destruct dw as [|dw]; [discriminate|].
    injection Hact as <- <- <- <- <-. split; [reflexivity|]. exists lw.
    destruct (finish_inv _ _ _ _ _ _ _ _ Hw Hp) as [H1 H2]. auto.
  - injection Hact as <- <- <- <- <-. split; [reflexivity|]. exists lw.
    split; [|split; [|auto]].
    + inv_bounds Hw Hp. unfold credit_inv, Receive, shouldReportRecvSpace.
      cbn [wk_dfq sendSpaceDepleted with_dfq].
      destruct (_ <? _); cbn; unfold cap in *; repeat split; try lia; try assumption.
    + inv_bounds Hw Hp. unfold credit_inv, Receive, shouldReportRecvSpace.
      cbn [wk_dfq sendSpaceDepleted with_dfq].
      destruct (_ <? _); cbn; unfold cap in *; repeat split; try lia; try assumption.
  - unfold take in Hact. destruct (recvQueue (wk_dfq w)) as [|c q] eqn:Hq; [discriminate|].
    injection Hact as <- <- <- <- <-. split; [reflexivity|]. exists lw.
    split; [|split; [|auto]].
    + inv_bounds Hw Hp. unfold credit_inv. cbn [wk_dfq sendSpaceDepleted with_dfq].
      unfold cap in *. cbn [queueSize sendSpace reportedSpace recvQueue set_recv].
      rewrite Hq in *. unfold len in *. cbn [List.length] in *.
      repeat split; try lia; try assumption.
    + inv_bounds Hw Hp. unfold credit_inv. cbn [wk_dfq sendSpaceDepleted with_dfq].
      unfold cap in *. cbn [queueSize sendSpace reportedSpace recvQueue set_recv].
      rewrite Hq in *. unfold len in *. cbn [List.length] in *.
      repeat split; try lia; try assumption.
Qed.

Lemma sys_step_inv atA a s lA lB s' err :
  sys_inv size s lA lB -> sys_step forceReportBelow atA a s = Some (s', err) ->
  err = None
  /\ exists lA' lB',
       sys_inv size s' lA' lB'
       /\ (data_only (atA, a) -> queues_hold_data s ->
           lA' = lA /\ lB' = lB /\ queues_hold_data s').
Proof.
  intros [HA HB] Hstep. unfold sys_step in Hstep. destruct atA.
  - destruct (act _ a (sideA s) (deliveringA s) (toA s) (toB s))
      as [[[[[w d] inb] outb] e]|] eqn:E; [|discriminate].
    injection Hstep as <- <-.
    destruct (act_inv _ _ _ _ _ _ _ _ _ _ _ _ _ _ HA HB E) as (He & lw' & H1 & H2 & H3).
    split; [exact He|]. exists lw', lB. split; [split; assumption|].
    intros Hd [QA QB]. destruct (H3 true Hd QA) as [-> QA']. unfold queues_hold_data. auto.
  - destruct (act _ a (sideB s) (deliveringB s) (toB s) (toA s))
      as [[[[[w d] inb] outb] e]|] eqn:E; [|discriminate].
    injection Hstep as <- <-.
    destruct (act_inv _ _ _ _ _ _ _ _ _ _ _ _ _ _ HB HA E) as (He & lw' & H1 & H2 & H3).
    split; [exact He|]. exists lA, lw'. split; [split; assumption|].
    intros Hd [QA QB]. destruct (H3 false Hd QB) as [-> QB']. unfold queues_hold_data. auto.
Qed.

Lemma NewSystem_inv : sys_inv size (NewSystem size) 0 0.
Proof.
  assert (Hq : int32 size = size).
  { apply int32_small. unfold is_int32, MinInt32, MaxInt32. lia. }
  unfold sys_inv, credit_inv, NewSystem, NewWorker, NewDuplexFlowQueue, cap, len. cbn.
  rewrite Hq. repeat split; try lia; constructor.
Qed.

Lemma sys_run_inv steps : forall s lA lB s',
  sys_inv size s lA lB -> sys_run forceReportBelow steps s = Some s' ->
  exists lA' lB',
    sys_inv size s' lA' lB'
    /\ (Forall data_only steps -> queues_hold_data s ->
        lA' = lA /\ lB' = lB /\ queues_hold_data s').
Proof.
  induction steps as [|[atA a] steps IH]; intros s lA lB s' Hinv Hrun; cbn [sys_run] in Hrun.
  - injection Hrun as <-. exists lA, lB. auto.
  - destruct (sys_step forceReportBelow atA a s) as [[s1 e]|] eqn:E; [|discriminate].
    destruct (sys_step_inv _ _ _ _ _ _ _ Hinv E) as (_ & lA1 & lB1 & Hinv1 & Hd1).
    destruct (IH _ _ _ _ Hinv1 Hrun) as (lA2 & lB2 & Hinv2 & Hd2).
    exists lA2, lB2. split; [exact Hinv2|].
    intros Hall Hq. apply Forall_cons_iff in Hall. destruct Hall as [Ha Hall].
    destruct (Hd1 Ha Hq) as (-> & -> & Hq1). exact (Hd2 Hall Hq1).
Qed.

(** X5: the receive queue does not overflow.  Two flow queues are
    created with the same size, between 1 and 65535, and what one end
    submits reaches [Deliver] at the other in order and unchanged.  After
    any interleaving of steps at the two ends (a case of the worker's
    select, a call of [Send] or [Receive], a receive from the queue, and
    [Deliver] in two steps, up to the enqueue and from there), no step
    that can follow makes [Deliver] return an error, neither
    [ErrQueueOverflow] nor [ErrMalformedData], and the send space of each
    end is between 0 and the number of free slots in the receive queue of
    the other. *)
Theorem no_overflow_between_two_ends steps s :
  sys_run forceReportBelow steps (NewSystem size) = Some s ->
  (forall atA a s' err,
      sys_step forceReportBelow atA a s = Some (s', err) -> err = None)
  /\ 0 <= sendSpace (wk_dfq (sideA s))
       <= cap (wk_dfq (sideB s)) - len (recvQueue (wk_dfq (sideB s)))
  /\ 0 <= sendSpace (wk_dfq (sideB s))
       <= cap (wk_dfq (sideA s)) - len (recvQueue (wk_dfq (sideA s))).
Proof.
  intros Hrun.
  destruct (sys_run_inv _ _ _ _ _ NewSystem_inv Hrun) as (lA & lB & Hinv & _).
  split.
  - intros atA a s' err Hstep. exact (proj1 (sys_step_inv _ _ _ _ _ _ _ Hinv Hstep)).
  - destruct Hinv as [HA HB]. inv_bounds HA HB.
    assert (H1 := credits_nonneg (toA s)). assert (H2 := payloads_nonneg (toB s)).
    assert (H3 := credits_nonneg (toB s)). assert (H4 := payloads_nonneg (toA s)).
    repeat split; lia.
Qed.

(** X23: no send space goes missing.  In the same setting, as long as
    [Send] is only given containers with data (or the nil that shuts the
    worker down), the send space of an end, the space on the way to it
    and the data on the way from it add up exactly to the space that the
    other end has reported, less one for each call of [Deliver] there
    that has yet to lower it. *)
Theorem no_send_space_is_lost steps s :
  sys_run forceReportBelow steps (NewSystem size) = Some s ->
  Forall data_only steps ->
  sendSpace (wk_dfq (sideA s)) + credits (toA s) + payloads (toB s)
  = reportedSpace (wk_dfq (sideB s)) - Z.of_nat (deliveringB s)
  /\ sendSpace (wk_dfq (sideB s)) + credits (toB s) + payloads (toA s)
     = reportedSpace (wk_dfq (sideA s)) - Z.of_nat (deliveringA s).
Proof.
  intros Hrun Hdata.
  destruct (sys_run_inv _ _ _ _ _ NewSystem_inv Hrun) as (lA & lB & Hinv & Hlost).
  destruct Hlost as (-> & -> & _); [exact Hdata | split; constructor |].
  destruct Hinv as [HA HB]. inv_bounds HA HB. lia.
Qed.

End TwoEnds.


Lemma no_overflow_between_two_ends_witness :
  let f := fun c => 3 * c / 4 in
  let steps := [(true, ActSend (Some [104])); (true, ActSelect SelSendQueue);
                (false, ActDeliver); (false, ActDelivered);
                (false, ActReceive); (false, ActTake)] in
  exists s,
    sys_run f steps (NewSystem 4) = Some s
    /\ (forall atA a s' err, sys_step f atA a s = Some (s', err) -> err = None)
    /\ 0 <= sendSpace (wk_dfq (sideA s))
         <= cap (wk_dfq (sideB s)) - len (recvQueue (wk_dfq (sideB s)))
    /\ 0 <= sendSpace (wk_dfq (sideB s))
         <= cap (wk_dfq (sideA s)) - len (recvQueue (wk_dfq (sideA s))).
Proof.
  intros f steps. eexists. split; [vm_compute; reflexivity|].
  apply (no_overflow_between_two_ends f 4 ltac:(lia) steps). vm_compute. reflexivity.
Defined.

Lemma no_send_space_is_lost_witness :
  let f := fun c => 3 * c / 4 in
  let steps := [(true, ActSend (Some [104])); (true, ActSelect SelSendQueue);
                (false, ActDeliver); (false, ActDelivered);
                (false, ActReceive); (false, ActTake);
                (false, ActSend (Some [105])); (false, ActSelect SelSendQueue);
                (true, ActDeliver); (true, ActDelivered)] in
  exists s,
    sys_run f steps (NewSystem 4) = Some s
    /\ sendSpace (wk_dfq (sideA s)) + credits (toA s) + payloads (toB s)
       = reportedSpace (wk_dfq (sideB s)) - Z.of_nat (deliveringB s)
    /\ sendSpace (wk_dfq (sideB s)) + credits (toB s) + payloads (toA s)
       = reportedSpace (wk_dfq (sideA s)) - Z.of_nat (deliveringA s).
Proof.
  intros f steps. eexists. split; [vm_compute; reflexivity|].
  apply (no_send_space_is_lost f 4 ltac:(lia) steps).
  - vm_compute. reflexivity.
  - repeat constructor.
Defined.

End credit_facts.

(** ** The token handler: batches *)

Module token_batch_facts.
Import token token_facts token_runs.

Section Batch_facts.
Context {L : PBlindLib}.
Variable dsd : Dsd.

Lemma nth_error_update_eq {A} (f : A -> A) l : forall i x,
  nth_error l i = Some x -> nth_error (update i f l) i = Some (f x).
Proof.
  induction l as [|y l IH]; intros [|i] x H; simpl in *; try discriminate.
  - now injection H as ->.
  - now apply IH.
Qed.

Lemma nth_error_update_neq {A} (f : A -> A) l : forall i j,
  i <> j -> nth_error (update i f l) j = nth_error l j.
Proof.
  induction l as [|y l IH]; intros [|i] [|j] H; simpl; try reflexivity; try congruence.
  apply IH. congruence.
Qed.

Lemma nth_error_in_range {A} (l : list A) i : (i < List.length l)%nat ->
  exists x, nth_error l i = Some x.
Proof.
  intros H. destruct (nth_error l i) eqn:E; [eauto|].
  apply nth_error_None in E. lia.
Qed.

Lemma make_length {A} n (z : A) : List.length (make n z) = Z.to_nat n.
Proof. unfold make. apply repeat_length. Qed.

(** The info of a token depends on the zone, the curve and, with
    serials, the serial. *)
Lemma makeInfo_ext pbh v serial :
  opt_Zone (opts v) = opt_Zone (opts pbh) -> opt_Curve (opts v) = opt_Curve (opts pbh) ->
  UseSerials (opts v) = UseSerials (opts pbh) ->
  makeInfo v serial = makeInfo pbh serial.
Proof. intros Hz Hc Hu. unfold makeInfo. now rewrite Hz, Hc, Hu. Qed.

Lemma makeInfo_no_serial pbh a b :
  UseSerials (opts pbh) = false -> makeInfo pbh a = makeInfo pbh b.
Proof. intros Hu. unfold makeInfo. now rewrite Hu. Qed.

Lemma verifies_ext pbh v t :
  opt_Zone (opts v) = opt_Zone (opts pbh) -> opt_Curve (opts v) = opt_Curve (opts pbh) ->
  UseSerials (opts v) = UseSerials (opts pbh) -> publicKey v = publicKey pbh ->
  verifies pbh t -> verifies v t.
Proof.
  intros Hz Hc Hu Hk (tok & info & signature & -> & Hi & Hs & Hck).
  exists tok, info, signature. rewrite (makeInfo_ext pbh v _ Hz Hc Hu), Hk. auto.
Qed.

(** *** ProcessIssuedTokens *)

Lemma ProcessIssuedTokens_loop_acceptable pbh issued n : forall i fin out,
  ProcessIssuedTokens_loop pbh issued n i fin = Ok out ->
  List.length fin = (i + n)%nat -> Z.of_nat (i + n) <= BatchSize (opts pbh) ->
  (forall j t, (j < i)%nat -> nth_error fin j = Some t -> acceptable pbh t) ->
  List.length out = List.length fin
  /\ forall j t, nth_error out j = Some t -> acceptable pbh t.
Proof.
  induction n as [|n IH]; intros i fin out Hloop Hlen HB Hfin.
  - injection Hloop as <-. split; [reflexivity|]. intros j t Hj. apply (Hfin j t); [|exact Hj].
    assert (nth_error fin j <> None) by congruence.
    apply nth_error_Some in H. lia.
  - cbn [ProcessIssuedTokens_loop] in Hloop.
    destruct (nth_error (requestState pbh) i) as [rs|] eqn:Hrs; [|discriminate].
    destruct (nth_error issued i) as [[msg3|]|] eqn:Hm; try discriminate.
    destruct (rs_State rs) as [st|] eqn:Hst; [|discriminate].
    destruct (requester_ProcessMessage3 st msg3) as [st' e] eqn:Hp.
    destruct e; [discriminate|].
    destruct (requester_Signature st') as [|signature] eqn:Hsig; [discriminate|].
    destruct (makeInfo pbh (Z.of_nat i + 1)) as [|info] eqn:Hinfo; [discriminate|].
    destruct (Check (publicKey pbh) signature info (rs_Token rs)) eqn:Hc; [|discriminate].
    cbn [negb] in Hloop.
    apply IH in Hloop.
    + destruct Hloop as [Hl Hall]. split; [now rewrite Hl, update_length|exact Hall].
    + rewrite update_length. lia.
    + lia.
    + intros j t Hj Hnth. destruct (Nat.eq_dec i j) as [<-|Hne].
      * destruct (nth_error_in_range fin i ltac:(lia)) as [x Hx].
        rewrite (nth_error_update_eq _ _ _ _ Hx) in Hnth. injection Hnth as <-.
        split.
        -- eexists _, info, signature. cbn [Serial Token_ Signature_].
           split; [reflexivity|]. split; [|split; [reflexivity|exact Hc]].
           destruct (UseSerials (opts pbh)) eqn:Hu; [exact Hinfo|].
           rewrite <- Hinfo. now apply makeInfo_no_serial.
        -- eexists. split; [reflexivity|]. cbn [Serial]. unfold serial_valid.
           destruct (UseSerials (opts pbh)); cbn [andb orb negb]; [|reflexivity].
           rewrite orb_false_r. apply andb_true_iff. split.
           ++ apply Z.ltb_lt. lia.
           ++ apply Z.leb_le. lia.
      * rewrite nth_error_update_neq in Hnth by exact Hne.
        apply (Hfin j t); [lia|exact Hnth].
Qed.

(** X8: a batch that [ProcessIssuedTokens] accepts is a batch of tokens
    that [Verify] will take.  When the call returns no error, the storage
    is the old storage followed by [BatchSize] new tokens, each with a
    signature that checks against the info of the token's own serial and
    with a serial in the accepted range, and the request state is reset.
    The shuffle of math/rand is taken to permute its list. *)
Theorem ProcessIssuedTokens_adds_valid_batch pbh issued seed :
  (forall (A : Type) (s : Z) (l : list A), Permutation (Shuffle A s l) l) ->
  snd (ProcessIssuedTokens pbh issued seed) = Ok tt ->
  exists new,
    Storage (fst (ProcessIssuedTokens pbh issued seed)) = Storage pbh ++ new
    /\ len new = BatchSize (opts pbh)
    /\ Forall (acceptable pbh) new
    /\ requestState (fst (ProcessIssuedTokens pbh issued seed))
       = make (BatchSize (opts pbh)) zeroRequestState.
Proof.
  intros Hperm. unfold ProcessIssuedTokens.
  destruct (Z.eqb_spec (len issued) (BatchSize (opts pbh))) as [HB|]; [|discriminate].
  cbn [negb]. assert (H0 := len_nonneg issued).
  destruct (ProcessIssuedTokens_loop _ _ _ _ _) as [out| |] eqn:Hloop; try discriminate.
  apply ProcessIssuedTokens_loop_acceptable in Hloop;
    [|rewrite make_length; lia | lia | intros j t Hj; lia].
  destruct Hloop as [Hl Hall]. rewrite make_length in Hl.
  assert (Hgood : Forall (acceptable pbh) out).
  { apply Forall_forall. intros t Hin. apply In_nth_error in Hin. destruct Hin as [j Hj].
    exact (Hall j t Hj). }
  assert (Hlen : len out = BatchSize (opts pbh)) by (unfold len; rewrite Hl; lia).
  destruct (RandomizeOrder (opts pbh)).
  - destruct seed as [|rInt]; [discriminate|]. intros _.
    exists (Shuffle _ rInt out). cbn [fst Storage with_Storage with_requestState requestState].
    split; [reflexivity|]. split; [|split; [|reflexivity]].
    + unfold len. rewrite (Permutation_length (Hperm _ rInt out)). exact Hlen.
    + eapply Permutation_Forall; [|exact Hgood]. apply Permutation_sym, Hperm.
  - intros _. exists out. cbn [fst Storage with_Storage with_requestState requestState].
    auto.
Qed.

(** X9: issued tokens that were not requested.  On a handler without
    request state, as it is before the first [CreateTokenRequest], a
    batch of the right size makes [ProcessIssuedTokens] index the empty
    [requestState]: it panics instead of returning an error.  The
    storage stays as it was. *)
Theorem ProcessIssuedTokens_unrequested_panics pbh issued seed :
  requestState pbh = [] ->
  0 < BatchSize (opts pbh) ->
  len issued = BatchSize (opts pbh) ->
  snd (ProcessIssuedTokens pbh issued seed) = Panic
  /\ Storage (fst (ProcessIssuedTokens pbh issued seed)) = Storage pbh.
Proof.
  intros Hrs HB Hlen. unfold ProcessIssuedTokens.
  replace (len issued =? BatchSize (opts pbh)) with true by (symmetry; now apply Z.eqb_eq).
  cbn [negb].
  destruct (Z.to_nat (BatchSize (opts pbh))) as [|n] eqn:Hn; [lia|].
  cbn [ProcessIssuedTokens_loop]. rewrite Hrs. cbn. auto.
Qed.

(** *** CreateTokenRequest, IssueTokens *)

Lemma CreateTokenRequest_loop_no_panic pbh setup rnd n : forall i rs req,
  (i + n <= List.length setup)%nat ->
  snd (CreateTokenRequest_loop pbh setup rnd n i rs req) <> Panic.
Proof.
  induction n as [|n IH]; intros i rs req Hlen; cbn [CreateTokenRequest_loop]; [discriminate|].
  destruct (nth_error_in_range setup i ltac:(lia)) as [x ->].
  destruct x as [msg1|]; [|discriminate].
  destruct (draw_err (rnd i)); [discriminate|].
  destruct (negb _); [discriminate|].
  destruct (makeInfo _ _); [discriminate|].
  destruct (CreateRequester _ _ _); [discriminate|].
  destruct (requester_ProcessMessage1 _ _) as [r e]. destruct e; [discriminate|].
  destruct (requester_CreateMessage2 _) as [r' m]. destruct m; [discriminate|].
  apply IH. lia.
Qed.

Lemma IssueTokens_loop_no_panic request n : forall i signers response,
  (i + n <= List.length request)%nat -> (i + n <= List.length signers)%nat ->
  snd (IssueTokens_loop request n i signers response) <> Panic.
Proof.
  induction n as [|n IH]; intros i signers response Hr Hs; cbn [IssueTokens_loop];
    [discriminate|].
  destruct (nth_error_in_range request i ltac:(lia)) as [x ->].
  destruct x as [msg2|]; [|discriminate].
  destruct (nth_error_in_range signers i ltac:(lia)) as [sg ->].
  destruct (signer_ProcessMessage2 _ _) as [s e]. destruct e; [discriminate|].
  destruct (signer_CreateMessage3 _) as [s' m]. destruct m; [discriminate|].
  apply IH; rewrite ?update_length; lia.
Qed.

(** X10: [CreateTokenRequest] and [IssueTokens] never panic.  Their
    checks of the batch size keep every index in range and every nil
    slot is checked before it is dereferenced, whatever the batches
    hold. *)
Theorem request_and_issue_never_panic pbh setup rnd state request :
  snd (CreateTokenRequest pbh setup rnd) <> Panic
  /\ snd (IssueTokens pbh state request) <> Panic.
Proof.
  split.
  - unfold CreateTokenRequest.
    destruct (Z.eqb_spec (len setup) (BatchSize (opts pbh))) as [HB|]; [|discriminate].
    cbn [negb].
    assert (H := CreateTokenRequest_loop_no_panic pbh setup rnd
                   (Z.to_nat (BatchSize (opts pbh))) 0
                   (make (BatchSize (opts pbh)) zeroRequestState)
                   (make (BatchSize (opts pbh)) None)).
    destruct (CreateTokenRequest_loop _ _ _ _ _ _ _) as [rs r]. cbn [snd] in *.
    apply H. unfold len in HB. lia.
  - unfold IssueTokens.
    destruct (Z.eqb_spec (len request) (BatchSize (opts pbh))) as [HB|]; [|discriminate].
    destruct (Z.eqb_spec (len state) (BatchSize (opts pbh))) as [HS|]; [|discriminate].
    cbn [negb].
    assert (H := IssueTokens_loop_no_panic request (Z.to_nat (BatchSize (opts pbh))) 0
                   state (make (BatchSize (opts pbh)) None)).
    destruct (IssueTokens_loop _ _ _ _ _) as [sg r]. cbn [snd] in *.
    apply H; unfold len in *; lia.
Qed.

End Batch_facts.

Lemma ProcessIssuedTokens_adds_valid_batch_witness :
  let pbh := fst (CreateTokenRequest (sampleHandler true 2 []) [Some tt; Some tt]
                    (fun i => mkDraw [Z.of_nat i] 32 None)) in
  exists new,
    Storage (fst (ProcessIssuedTokens pbh [Some 7; Some 7] (inr 0))) = Storage pbh ++ new
    /\ len new = BatchSize (opts pbh)
    /\ Forall (acceptable pbh) new
    /\ requestState (fst (ProcessIssuedTokens pbh [Some 7; Some 7] (inr 0)))
       = make (BatchSize (opts pbh)) zeroRequestState.
Proof.
  intros pbh. apply (ProcessIssuedTokens_adds_valid_batch pbh [Some 7; Some 7] (inr 0)).
  - intros A s l. apply Permutation_refl.
  - reflexivity.
Defined.

Lemma ProcessIssuedTokens_unrequested_panics_witness :
  snd (ProcessIssuedTokens (sampleHandler true 1 []) [Some 7] (inr 0)) = Panic
  /\ Storage (fst (ProcessIssuedTokens (sampleHandler true 1 []) [Some 7] (inr 0)))
     = Storage (sampleHandler true 1 []).
Proof.
  apply (ProcessIssuedTokens_unrequested_panics (sampleHandler true 1 []) [Some 7] (inr 0)).
  - reflexivity.
  - reflexivity.
  - reflexivity.
Defined.

End token_batch_facts.

(** ** The token handler: requests, storage and verification *)

Module token_store_facts.
Import token token_facts token_runs token_batch_facts.

Section Store_facts.
Context {L : PBlindLib}.
Variable dsd : Dsd.

(** *** From the request to the issued tokens *)

Lemma CreateTokenRequest_loop_Ok pbh setup rnd n : forall i rs req rs' req',
  CreateTokenRequest_loop pbh setup rnd n i rs req = (rs', Ok req') ->
  List.length rs = (i + n)%nat -> List.length req = (i + n)%nat ->
  (forall j r, (j < i)%nat -> nth_error rs j = Some r -> rs_State r <> None) ->
  (forall j m, (j < i)%nat -> nth_error req j = Some m -> m <> None) ->
  List.length rs' = List.length rs /\ List.length req' = List.length req
  /\ (forall j r, nth_error rs' j = Some r -> rs_State r <> None)
  /\ (forall j m, nth_error req' j = Some m -> m <> None).
Proof.
  induction n as [|n IH]; intros i rs req rs' req' Hloop Hrs Hreq Prs Preq.
  - injection Hloop as <- <-. repeat split; try reflexivity.
    + intros j r Hj. apply (Prs j r); [|exact Hj].
      assert (nth_error rs j <> None) by congruence. apply nth_error_Some in H. lia.
    + intros j m Hj. apply (Preq j m); [|exact Hj].
      assert (nth_error req j <> None) by congruence. apply nth_error_Some in H. lia.
  - cbn [CreateTokenRequest_loop] in Hloop.
    destruct (nth_error setup i) as [[msg1|]|]; try (injection Hloop; discriminate).
    destruct (draw_err (rnd i)); [injection Hloop; discriminate|].
    destruct (negb _); [injection Hloop; discriminate|].
    destruct (makeInfo _ _) as [|info]; [injection Hloop; discriminate|].
    destruct (CreateRequester _ _ _) as [|requester]; [injection Hloop; discriminate|].
    destruct (requester_ProcessMessage1 _ _) as [r1 e].
    destruct e; [injection Hloop; discriminate|].
    destruct (requester_CreateMessage2 _) as [r2 m].
    destruct m as [|requestMsg]; [injection Hloop; discriminate|].
    apply IH in Hloop.
    + destruct Hloop as (H1 & H2 & H3 & H4).
      unfold set_State, set_Token in H1. rewrite !update_length in H1.
      rewrite update_length in H2. auto.
    + unfold set_State, set_Token. rewrite !update_length. lia.
    + rewrite update_length. lia.
    + intros j r Hj Hnth. unfold set_State in Hnth.
      destruct (Nat.eq_dec i j) as [<-|Hne].
      * destruct (nth_error_in_range (set_Token rs i (draw_token (rnd i))) i) as [x Hx].
        { unfold set_Token. rewrite update_length. lia. }
        rewrite (nth_error_update_eq _ _ _ _ Hx) in Hnth. injection Hnth as <-.
        discriminate.
      * rewrite nth_error_update_neq in Hnth by exact Hne.
        unfold set_Token in Hnth. rewrite nth_error_update_neq in Hnth by exact Hne.
        apply (Prs j r); [lia|exact Hnth].
    + intros j m Hj Hnth.
      destruct (Nat.eq_dec i j) as [<-|Hne].
      * destruct (nth_error_in_range req i ltac:(lia)) as [x Hx].
        rewrite (nth_error_update_eq _ _ _ _ Hx) in Hnth. injection Hnth as <-.
        discriminate.
      * rewrite nth_error_update_neq in Hnth by exact Hne.
        apply (Preq j m); [lia|exact Hnth].
Qed.

Lemma ProcessIssuedTokens_loop_no_panic pbh issued n : forall i fin,
  (i + n <= List.length (requestState pbh))%nat ->
  (i + n <= List.length issued)%nat ->
  (forall j r, nth_error (requestState pbh) j = Some r -> rs_State r <> None) ->
  ~ In None issued ->
  ProcessIssuedTokens_loop pbh issued n i fin <> Panic.
Proof.
  induction n as [|n IH]; intros i fin Hrs Hiss Hst Hnil; cbn [ProcessIssuedTokens_loop];
    [discriminate|].
  destruct (nth_error_in_range (requestState pbh) i ltac:(lia)) as [rs Hr]. rewrite Hr.
  destruct (nth_error_in_range issued i ltac:(lia)) as [m Hm]. rewrite Hm.
  destruct m as [msg3|]; [|exfalso; apply Hnil; eapply nth_error_In; exact Hm].
  destruct (rs_State rs) as [st|] eqn:Es; [|exfalso; exact (Hst _ _ Hr Es)].
  destruct (requester_ProcessMessage3 _ _) as [st' e]. destruct e; [discriminate|].
  destruct (requester_Signature _); [discriminate|].
  destruct (makeInfo _ _); [discriminate|].
  destruct (negb _); [discriminate|].
  apply IH; auto; lia.
Qed.


(** *** From the storage to the verifier *)

(** X12: from the storage to the verifier.  [GetToken] on a storage
    whose first token is signed and numbered as [Verify] wants it hands
    out that token and removes it from the storage; if the token
    unpacks as it was packed, a handler with the same zone, curve,
    serials, batch size and public key accepts it in [Verify], up to the
    answer of the double spend protection, which is asked last. *)
Theorem GetToken_then_Verify pbh v tok rest data :
  Storage pbh = Some tok :: rest ->
  acceptable pbh (Some tok) ->
  Dump_token dsd (Some tok) = inr data ->
  Load_token dsd data = inr tok ->
  opt_Zone (opts v) = opt_Zone (opts pbh) -> opt_Curve (opts v) = opt_Curve (opts pbh) ->
  UseSerials (opts v) = UseSerials (opts pbh) -> BatchSize (opts v) = BatchSize (opts pbh) ->
  publicKey v = publicKey pbh ->
  exists token,
    fst (GetToken dsd pbh) = (with_Storage pbh rest, Ok token)
    /\ Verify dsd v token
       = match DoubleSpendProtection (opts v) with
         | Some f => match f (Token_ tok) with
                     | Some e => Err (ErrTokenUsed e)
                     | None => Ok tt
                     end
         | None => Ok tt
         end.
Proof.
  intros Hst [Hver (tok' & Heq & Hserial)] Hdump Hload Hz Hc Hu Hb Hk.
  injection Heq as <-.
  destruct Hver as (tok' & info & signature & Heq & Hinfo & Hsig & Hck).
  injection Heq as <-.
  rewrite (GetToken_signal dsd pbh _ _ _ Hst Hdump). cbn [fst].
  eexists. split; [reflexivity|].
  unfold Verify. cbn [Zone Data]. rewrite Hz, String.eqb_refl. cbn [negb].
  rewrite Hload.
  replace (serial_valid v (Serial tok)) with true
    by (symmetry; unfold serial_valid in *; now rewrite Hu, Hb).
  rewrite (makeInfo_ext pbh v _ Hz Hc Hu), Hinfo, Hsig, Hk, Hck. reflexivity.
Qed.

(** *** Load and Save *)

(** X15: [Load] is all or nothing.  Either it returns no error, and then
    the storage is replaced by exactly the tokens of the blob, all of
    which carry a signature that checks; or the handler is left as it
    was. *)
Theorem Load_all_or_nothing pbh data :
  (snd (Load dsd pbh data) = Ok tt
   /\ exists ts, Load_storage dsd data = inr ts /\ Forall (verifies pbh) ts
                 /\ fst (Load dsd pbh data) = with_Storage pbh ts)
  \/ (snd (Load dsd pbh data) <> Ok tt /\ fst (Load dsd pbh data) = pbh).
Proof.
  destruct (Load dsd pbh data) as [pbh' r] eqn:E. cbn [fst snd].
  destruct r as [[]|e|].
  - left. split; [reflexivity|]. destruct (Load_Ok dsd pbh data pbh' E) as (ts & H1 & H2 & H3).
    exists ts. auto.
  - right. split; [discriminate|].
    assert (H := Load_unchanged dsd pbh data). rewrite E in H. apply H. discriminate.
  - right. split; [discriminate|].
    assert (H := Load_unchanged dsd pbh data). rewrite E in H. apply H. discriminate.
Qed.

(** X14: what [Save] returns, [Load] takes.  If the blob decodes to the
    tokens that were saved and these carry signatures that check, [Load]
    on a handler with the same zone, curve, serials and public key
    returns no error, and its storage becomes the saved storage, in
    place of what it held. *)
Theorem Save_then_Load pbh v data :
  Load_storage dsd data = inr (Storage pbh) ->
  opt_Zone (opts v) = opt_Zone (opts pbh) -> opt_Curve (opts v) = opt_Curve (opts pbh) ->
  UseSerials (opts v) = UseSerials (opts pbh) -> publicKey v = publicKey pbh ->
  Forall (verifies pbh) (Storage pbh) ->
  Save dsd pbh = Ok data ->
  Load dsd v data = (with_Storage v (Storage pbh), Ok tt).
Proof.
  intros Hround Hz Hc Hu Hk Hgood Hsave.
  unfold Save in Hsave. destruct (_ =? 0); [discriminate|].
  destruct (Dump_storage dsd (Storage pbh)) as [|d] eqn:Hd; [discriminate|].
  injection Hsave as <-.
  unfold Load. rewrite Hround.
  assert (Hck : Load_check v (Storage pbh) = Ok tt).
  { apply Load_check_Ok. eapply Forall_impl; [|exact Hgood].
    intros t. now apply verifies_ext. }
  rewrite Hck. reflexivity.
Qed.

(** *** The storage over the life of a handler *)

Lemma call_keeps pbh c :
  (forall (A : Type) (s : Z) (l : list A), Permutation (Shuffle A s l) l) ->
  Forall (verifies pbh) (Storage pbh) ->
  opts (call dsd c pbh) = opts pbh /\ publicKey (call dsd c pbh) = publicKey pbh
  /\ Forall (verifies pbh) (Storage (call dsd c pbh)).
Proof.
  intros Hperm Hgood. destruct c as [setup rnd|issued seed| |data|]; cbn [call].
  - unfold CreateTokenRequest. destruct (negb _); [auto|].
    destruct (CreateTokenRequest_loop _ _ _ _ _ _ _). cbn. auto.
  - unfold ProcessIssuedTokens.
    destruct (Z.eqb_spec (len issued) (BatchSize (opts pbh))) as [HB|]; [|cbn; auto].
    cbn [negb]. assert (H0 := len_nonneg issued).
    destruct (ProcessIssuedTokens_loop _ _ _ _ _) as [out| |] eqn:Hloop; cbn; auto.
    apply ProcessIssuedTokens_loop_acceptable in Hloop;
      [|rewrite make_length; lia | lia | intros j t Hj; lia].
    destruct Hloop as [_ Hall].
    assert (Hout : Forall (verifies pbh) out).
    { apply Forall_forall. intros t Hin. apply In_nth_error in Hin. destruct Hin as [j Hj].
      exact (proj1 (Hall j t Hj)). }
    destruct (RandomizeOrder (opts pbh)); [destruct seed as [|rInt]|]; cbn; auto.
    + repeat split; auto. apply Forall_app. split; [exact Hgood|].
      eapply Permutation_Forall; [|exact Hout]. apply Permutation_sym, Hperm.
    + repeat split; auto. apply Forall_app. auto.
  - unfold GetToken. destruct (Storage pbh) as [|t rest] eqn:Hs; [cbn; rewrite Hs; auto|].
    destruct (Dump_token dsd t); cbn; [rewrite Hs; auto|].
    repeat split; auto. now apply Forall_cons_iff in Hgood.
  - destruct (Load dsd pbh data) as [pbh' r] eqn:E. cbn [fst].
    destruct r as [[]|e|].
    + destruct (Load_Ok dsd pbh data pbh' E) as (ts & H1 & H2 & ->). cbn. auto.
    + assert (H := Load_unchanged dsd pbh data). rewrite E in H. cbn in H.
      rewrite H by discriminate. auto.
    + assert (H := Load_unchanged dsd pbh data). rewrite E in H. cbn in H.
      rewrite H by discriminate. auto.
  - auto.
Qed.

(** X13: the storage only holds tokens whose signature checks.  From a
    handler whose storage is so, in particular from an empty one, after
    any sequence of [CreateTokenRequest], [ProcessIssuedTokens],
    [GetToken], [Load] and [Clear], with any arguments and whatever they
    return, every token of the storage is there, carries a signature and
    passes the check of the public key; the options and the key stay as
    they were.  The shuffle of math/rand is taken to permute its list. *)
Theorem stored_tokens_verify cs : forall pbh,
  (forall (A : Type) (s : Z) (l : list A), Permutation (Shuffle A s l) l) ->
  Forall (verifies pbh) (Storage pbh) ->
  opts (calls dsd cs pbh) = opts pbh /\ publicKey (calls dsd cs pbh) = publicKey pbh
  /\ Forall (verifies pbh) (Storage (calls dsd cs pbh)).
Proof.
  induction cs as [|c cs IH]; intros pbh Hperm Hgood; [cbn; auto|].
  unfold calls. cbn [fold_left]. fold (calls dsd cs (call dsd c pbh)).
  destruct (call_keeps pbh c Hperm Hgood) as (Ho & Hk & Hs).
  assert (Hext : forall t, verifies pbh t -> verifies (call dsd c pbh) t).
  { intros t. apply verifies_ext; congruence. }
  assert (Hext' : forall t, verifies (call dsd c pbh) t -> verifies pbh t).
  { intros t. apply verifies_ext; congruence. }
  destruct (IH (call dsd c pbh) Hperm) as (Ho' & Hk' & Hs').
  { eapply Forall_impl; [exact Hext|exact Hs]. }
  repeat split; try congruence.
  eapply Forall_impl; [exact Hext'|exact Hs'].
Qed.

End Store_facts.


Lemma GetToken_then_Verify_witness :
  let pbh := sampleHandler false 16 [7] in
  exists token,
    fst (GetToken sampleDsd pbh) = (with_Storage pbh [], Ok token)
    /\ Verify sampleDsd pbh token = Ok tt.
Proof.
  intros pbh.
  assert (Hacc : acceptable pbh (Some (@mkPBlindToken samplePBlind 0 [7] (Some 7)))).
  { split.
    - eexists _, _, _. split; [reflexivity|]. split; [reflexivity|].
      split; reflexivity.
    - eexists. split; reflexivity. }
  exact (GetToken_then_Verify sampleDsd pbh pbh _ [] [0; 7]
           eq_refl Hacc eq_refl eq_refl eq_refl eq_refl eq_refl eq_refl eq_refl).
Defined.

Lemma stored_tokens_verify_witness :
  let pbh := sampleHandler false 16 [] in
  let cs := [CallLoad [7; 7]; CallGetToken] in
  opts (calls sampleDsd cs pbh) = opts pbh
  /\ publicKey (calls sampleDsd cs pbh) = publicKey pbh
  /\ Forall (verifies pbh) (Storage (calls sampleDsd cs pbh)).
Proof.
  intros pbh cs. apply (stored_tokens_verify sampleDsd cs pbh).
  - intros A s l. apply Permutation_refl.
  - constructor.
Defined.

Lemma Save_then_Load_witness :
  Load sampleDsd (sampleHandler false 16 [9]) [7; 7]
  = (with_Storage (sampleHandler false 16 [9]) (Storage (sampleHandler false 16 [7; 7])),
     Ok tt).
Proof.
  apply (Save_then_Load sampleDsd (sampleHandler false 16 [7; 7])
           (sampleHandler false 16 [9]) [7; 7]).
  - reflexivity.
  - reflexivity.
  - reflexivity.
  - reflexivity.
  - reflexivity.
  - repeat (constructor;
            [eexists _, _, _; split; [reflexivity|]; split; [reflexivity|];
             split; reflexivity|]).
    constructor.
  - reflexivity.
Defined.

End token_store_facts.

(** ** Bootstrap hubs: what a parsed hub holds *)

Module hub_result_facts.
Import hub.

Section Result_facts.
Context {L : HubLib}.

(** X16: what [ParseBootstrapHub] returns.  A hub that it returns has
    the fragment of the address, which is not empty and decodes as a
    hash, as its ID and as the ID of its info, the given map, and exactly
    one transport, the one of the address without host and fragment.  The
    host of the address parsed as an IP address, and of [IPv4] and [IPv6]
    exactly one is set: [IPv4], in four bytes, when the address has a
    four byte form, else [IPv6]. *)
Theorem ParseBootstrapHub_result s mapName h :
  ParseBootstrapHub s mapName = inr h ->
  exists t ip,
    ParseTransport s = inr t /\ Option_ t <> EmptyString
    /\ (exists lh, FromBase58 (Option_ t) = inr lh)
    /\ ParseIP (Domain t) = Some ip
    /\ ID h = Option_ t /\ ann_ID (Info h) = Option_ t /\ Map h = mapName
    /\ Transports (Info h)
       = [Transport_String (mkTransport (Protocol t) EmptyString (Port t) (Path t)
                              EmptyString)]
    /\ ((exists ip4, To4 ip = Some ip4 /\ List.length ip4 = 4%nat
                     /\ ann_IPv4 (Info h) = Some ip4 /\ ann_IPv6 (Info h) = None)
        \/ (To4 ip = None /\ ann_IPv4 (Info h) = None /\ ann_IPv6 (Info h) = Some ip)).
Proof.
  unfold ParseBootstrapHub. intros H.
  destruct (ParseTransport s) as [|t] eqn:Ht; [discriminate|].
  destruct (String.eqb_spec (Option_ t) EmptyString) as [|Hne]; [discriminate|].
  destruct (FromBase58 (Option_ t)) as [|lh] eqn:Hid; [discriminate|].
  destruct (ParseIP (Domain t)) as [ip|] eqn:Hip; [|discriminate].
  injection H as <-. exists t, ip. cbn [ID Map Info].
  split; [first [reflexivity | exact Ht]|]. split; [exact Hne|]. split; [eauto|].
  split; [first [reflexivity | exact Hip]|].
  destruct (To4 ip) as [ip4|] eqn:H4; cbn [ann_ID Transports ann_IPv4 ann_IPv6].
  - repeat (split; [reflexivity|]). left. exists ip4.
    split; [reflexivity|]. split; [|split; reflexivity].
    unfold To4 in H4.
    repeat (match type of H4 with
            | match ?x with _ => _ end = _ => destruct x; try discriminate
            end);
      injection H4 as <-; reflexivity.
  - repeat (split; [reflexivity|]). right. repeat split.
Qed.

End Result_facts.

Lemma ParseBootstrapHub_result_witness :
  exists t ip,
    ParseTransport "tcp://1.2.3.4:17/#abc" = inr t /\ Option_ t <> EmptyString
    /\ (exists lh, @FromBase58 sampleHubLib (Option_ t) = inr lh)
    /\ @ParseIP sampleHubLib (Domain t) = Some ip
    /\ Option_ t = "abc"%string.
Proof.
  destruct (@ParseBootstrapHub_result sampleHubLib "tcp://1.2.3.4:17/#abc" "main"
              {| ID := "abc"; Map := "main"; hub_Status := ZeroStatus;
                 Info := {| ann_ID := "abc"; Transports := ["tcp://:17"%string];
                            ann_IPv4 := Some [1; 2; 3; 4]; ann_IPv6 := None |} |}
              eq_refl)
    as (t & ip & H1 & H2 & H3 & H4 & H5 & _).
  exists t, ip. cbn [ID] in H5. auto.
Defined.

End hub_result_facts.

(** ** Crane init messages *)

Module crane_init_facts.
Import varint varint_facts container container_facts.
Import varint_more container_blocks frames_facts crane_init.

Lemma land_bit7 t : 0 <= t < 256 -> Z.land t 0x80 = if t <? 128 then 0 else 128.
Proof.
  intros Ht. change 0x80 with (2 ^ 7). change 128 with (2 ^ 7).
  assert (P7 : 2 ^ 7 = 128) by reflexivity.
  apply Z.bits_inj'. intros k Hk.
  rewrite Z.land_spec, Z.pow2_bits_eqb by lia.
  destruct (Z.eqb_spec 7 k) as [<-|Hne].
  - rewrite andb_true_r. destruct (Z.ltb_spec t (2 ^ 7)).
    + rewrite Z.bits_0. apply Z.testbit_false; [lia|].
      rewrite Z.div_small; [reflexivity | lia].
    + rewrite Z.pow2_bits_eqb, Z.eqb_refl by lia.
      apply Z.testbit_true; [lia|].
      replace (t / 2 ^ 7) with 1; [reflexivity|].
      apply Z.div_unique with (t - 128); lia.
  - rewrite andb_false_r. destruct (t <? 2 ^ 7); [now rewrite Z.bits_0|].
    rewrite Z.pow2_bits_eqb by lia.
    symmetry. now apply Z.eqb_neq.
Qed.

(** A message type written by [Pack8] is read by [GetNextN8]. *)
Lemma GetNextN8_Pack8 t data : 0 <= t <= 255 ->
  GetNextN8 (Prepend data (Pack8 t)) = Ok (t, data).
Proof.
  intros Ht. unfold GetNextN8, Pack8, Prepend.
  rewrite (u8_small t) by lia.
  destruct (Z.ltb_spec t 128) as [Hlow|Hhigh].
  - cbn [app gather firstn Unpack8]. rewrite land_bit7 by lia.
    replace (t <? 128) with true by (symmetry; apply Z.ltb_lt; lia).
    cbn. now rewrite u8_small by lia.
  - cbn [app gather firstn Unpack8]. rewrite land_bit7 by lia.
    replace (t <? 128) with false by (symmetry; apply Z.ltb_ge; lia).
    cbn. now rewrite u8_small by lia.
Qed.

(** Small numbers are one byte, whether written as 8 or as 64 bits. *)
Lemma Pack64_small t : 0 <= t < 128 -> Pack64 t = [t].
Proof.
  intros Ht. unfold Pack64. rewrite u64_small by (change (2 ^ 64) with 18446744073709551616; lia).
  cbn [PutUvarint]. replace (0x80 <=? t) with false by (symmetry; apply Z.leb_gt; lia).
  now rewrite u8_small by lia.
Qed.

Lemma Pack8_small t : 0 <= t < 128 -> Pack8 t = [t].
Proof.
  intros Ht. unfold Pack8. rewrite u8_small by lia.
  now replace (t <? 128) with true by (symmetry; apply Z.ltb_lt; lia).
Qed.

Lemma Pack64_length n : 0 <= n < 2 ^ 64 -> 1 <= len (Pack64 n) <= 10.
Proof.
  intros Hn. unfold Pack64. rewrite u64_small by exact Hn.
  destruct (PutUvarint_fits 10 n) as (bs & -> & Hl).
  - change (2 ^ (7 * Z.of_nat 10)) with (2 ^ 70).
    assert (2 ^ 64 < 2 ^ 70) by (apply Z.pow_lt_mono_r; lia). lia.
  - lia.
  - unfold len. lia.
Qed.

Lemma len_app {A} (l l' : list A) : len (l ++ l') = len l + len l'.
Proof. unfold len. rewrite length_app. lia. Qed.

(** A block, as [AppendAsBlock] writes it, is read by [GetNextBlock]. *)
Lemma GetNextBlock_block (data rest : list Z) : len data < 2 ^ 63 ->
  GetNextBlock (Pack64 (len data) ++ data ++ rest) = Ok (data, rest).
Proof.
  intros H. rewrite app_assoc. now apply (GetNextBlock_PrependLength data rest).
Qed.

Section Crane_facts.
Variable ship_Load : list Z -> option string.
Variable identity : option Identity.
Variable infoData : string + list Z.
Variable handleCraneVerification : Container -> list (list Z) * option CraneError.
Variable Letter : Type.
Variable Session : Type.
Variable LetterFromWireData : list Z -> string + Letter.
Variable WireCorrespondence : Letter -> Identity -> string + Session.
Variable Open : Session -> Letter -> string + list Z.
Variable NewRemoteCraneControllerTerminal : Container -> option CraneError.

Lemma loadMsg_loaded msg failed :
  fst (loadMsg ship_Load msg failed) = [CompileData (PrependLength msg)].
Proof. unfold loadMsg. now destruct (ship_Load _). Qed.

(** X17: the reply to a request for the hub info reads back.  With an
    identity whose announcement and status export, [handleCraneHubInfo]
    loads one message on the ship; [GetNextBlock] takes the whole reply
    out of it, and the two calls of [GetNextBlock] with which
    [startLocal] reads the reply return the announcement and the status
    as they were exported. *)
Theorem hub_info_reply_is_read_back id announcementData statusData :
  identity = Some id ->
  ExportAnnouncement id = inr announcementData ->
  ExportStatus id = inr statusData ->
  len announcementData + len statusData + 20 < 2 ^ 63 ->
  exists reply,
    fst (handleCraneHubInfo ship_Load identity) = [CompileData (PrependLength reply)]
    /\ GetNextBlock (CompileData (PrependLength reply)) = Ok (reply, [])
    /\ readHubInfoReply reply = inr (announcementData, statusData).
Proof.
  intros Hid Hann Hst Hlen.
  assert (Ha := token_facts.len_nonneg announcementData).
  assert (Hs := token_facts.len_nonneg statusData).
  assert (H63 : 2 ^ 63 < 2 ^ 64) by (apply Z.pow_lt_mono_r; lia).
  assert (La := Pack64_length (len announcementData) ltac:(lia)).
  assert (Ls := Pack64_length (len statusData) ltac:(lia)).
  unfold handleCraneHubInfo. rewrite Hid, Hann, Hst. cbv zeta.
  rewrite loadMsg_loaded.
  exists (AppendAsBlock (AppendAsBlock New announcementData) statusData).
  split; [reflexivity|]. split.
  - unfold CompileData. rewrite <- (app_nil_r (PrependLength _)).
    apply GetNextBlock_PrependLength.
    unfold Length, AppendAsBlock, AppendNumber, Append, New. cbn [app].
    fold (len announcementData). fold (len statusData).
    rewrite !len_app. lia.
  - unfold readHubInfoReply, AppendAsBlock, AppendNumber, Append, New. cbn [app].
    fold (len announcementData). fold (len statusData).
    rewrite <- !app_assoc.
    rewrite GetNextBlock_block by lia.
    rewrite <- (app_nil_r statusData) at 2.
    rewrite GetNextBlock_block by lia.
    reflexivity.
Qed.

(** X18: the unencrypted start message reaches the controller.  The
    message that [startLocal] sends on a secure ship, the data of the
    controller with the number of [CraneMsgTypeStartUnencrypted] and the
    length in front, unframes to a request on which [startRemote] starts
    the controller terminal with exactly that data, loads nothing on the
    ship, sets no encryption session, and returns what the controller
    returns. *)
Theorem unencrypted_start_reaches_controller initData unloading :
  Length initData < 2 ^ 63 - 1 ->
  GetNextBlock (startUnencryptedMsg initData)
  = Ok (PrependNumber initData CraneMsgTypeStartUnencrypted, [])
  /\ (startRemote ship_Load identity infoData handleCraneVerification Letter Session
       LetterFromWireData WireCorrespondence Open NewRemoteCraneControllerTerminal
       (PrependNumber initData CraneMsgTypeStartUnencrypted :: unloading))
     = ([], match NewRemoteCraneControllerTerminal initData with
            | Some err => inl (CraneWrap err "failed to start crane controller")
            | None => inr (mkStarted initData None)
            end).
Proof.
  intros Hlen. assert (H5 : Pack64 CraneMsgTypeStartUnencrypted = [5])
    by (apply Pack64_small; unfold CraneMsgTypeStartUnencrypted; lia).
  split.
  - unfold startUnencryptedMsg, CompileData.
    rewrite <- (app_nil_r (PrependLength _)). apply GetNextBlock_PrependLength.
    unfold Length, PrependNumber, Prepend in *. rewrite H5, len_app.
    change (len [5]) with 1. lia.
  - cbn [startRemote]. unfold PrependNumber. rewrite H5.
    change [5] with (Pack8 5) at 1.
    rewrite (GetNextN8_Pack8 5 initData) by lia. reflexivity.
Qed.

(** X19: the end message and unknown message types.  The message that
    [endInit] loads on the ship unframes to a request on which
    [startRemote] returns [ErrStopping], whatever is queued behind it;
    a request with a message type from 6 to 255 is skipped without reply
    or error, and [startRemote] goes on with the next request. *)
Theorem end_stops_and_unknown_types_are_skipped :
  (exists request,
      fst (endInit ship_Load) = [CompileData (PrependLength request)]
      /\ GetNextBlock (CompileData (PrependLength request)) = Ok (request, [])
      /\ forall unloading,
           (startRemote ship_Load identity infoData handleCraneVerification Letter Session
       LetterFromWireData WireCorrespondence Open NewRemoteCraneControllerTerminal
       (request :: unloading)) = ([], inl (CraneErr KindStopping "")))
  /\ (forall msgType data unloading,
        5 < msgType <= 255 ->
        (startRemote ship_Load identity infoData handleCraneVerification Letter Session
       LetterFromWireData WireCorrespondence Open NewRemoteCraneControllerTerminal
       (Prepend data (Pack8 msgType) :: unloading))
        = (startRemote ship_Load identity infoData handleCraneVerification Letter Session
       LetterFromWireData WireCorrespondence Open NewRemoteCraneControllerTerminal unloading)).
Proof.
  split.
  - exists (Prepend New (Pack8 CraneMsgTypeEnd)). unfold endInit.
    rewrite loadMsg_loaded. split; [reflexivity|]. split; [reflexivity|].
    intros unloading. cbn [startRemote].
    rewrite (GetNextN8_Pack8 CraneMsgTypeEnd New) by (unfold CraneMsgTypeEnd; lia).
    reflexivity.
  - intros msgType data unloading Ht. cbn [startRemote].
    rewrite (GetNextN8_Pack8 msgType data) by lia.
    unfold CraneMsgTypeEnd, CraneMsgTypeInfo, CraneMsgTypeRequestHubInfo, CraneMsgTypeVerify,
      CraneMsgTypeStartUnencrypted, CraneMsgTypeStartEncrypted.
    repeat (match goal with
            | |- context [?a =? ?b] =>
                replace (a =? b) with false by (symmetry; apply Z.eqb_neq; lia)
            end).
    reflexivity.
Qed.

End Crane_facts.

Lemma hub_info_reply_is_read_back_witness :
  let ship_Load := fun _ : list Z => @None string in
  let identity := Some (mkIdentity (inr [1; 2]) (inr [3])) in
  exists reply,
    fst (handleCraneHubInfo ship_Load identity) = [CompileData (PrependLength reply)]
    /\ GetNextBlock (CompileData (PrependLength reply)) = Ok (reply, [])
    /\ readHubInfoReply reply = inr ([1; 2], [3]).
Proof.
  intros ship_Load identity.
  apply (hub_info_reply_is_read_back ship_Load identity
           (mkIdentity (inr [1; 2]) (inr [3])) [1; 2] [3]).
  - reflexivity.
  - reflexivity.
  - reflexivity.
  - reflexivity.
Defined.

Lemma unencrypted_start_reaches_controller_witness :
  let ship_Load := fun _ : list Z => @None string in
  let verification := fun _ : Container => (@nil (list Z), @None CraneError) in
  let unpack := fun _ : list Z => @inl string unit "no letter"%string in
  let session := fun (_ : unit) (_ : Identity) => @inl string unit "no session"%string in
  let open := fun _ _ : unit => @inl string (list Z) "no data"%string in
  let controller := fun _ : Container => @None CraneError in
  GetNextBlock (startUnencryptedMsg [7; 8])
  = Ok (PrependNumber [7; 8] CraneMsgTypeStartUnencrypted, [])
  /\ startRemote ship_Load None (inl "no info"%string) verification unit unit
       unpack session open controller
       [PrependNumber [7; 8] CraneMsgTypeStartUnencrypted]
     = ([], inr (mkStarted [7; 8] None)).
Proof.
  intros ship_Load verification unpack session open controller.
  apply (unencrypted_start_reaches_controller ship_Load None (inl "no info"%string)
           verification unit unit unpack session open controller [7; 8] []).
  reflexivity.
Defined.

End crane_init_facts.

(** ** The token handler: the issuer's side *)

Module token_setup_facts.
Import token token_facts token_runs token_batch_facts token_store_facts token_setup.

Lemma filled_Some {A} (l : list (option A)) :
  (forall j x, nth_error l j = Some x -> x <> None) ->
  exists xs, filled l = Some xs /\ List.length xs = List.length l.
Proof.
  induction l as [|[x|] l IH]; intros H.
  - exists []. auto.
  - destruct IH as (xs & Hx & Hl).
    { intros j y Hj. exact (H (S j) y Hj). }
    exists (x :: xs). cbn. rewrite Hx, Hl. auto.
  - exfalso. now apply (H 0%nat None).
Qed.

Lemma no_nil_slot {A} (l : list (option A)) :
  (forall j x, nth_error l j = Some x -> x <> None) -> ~ In None l.
Proof.
  intros H Hin. apply In_nth_error in Hin. destruct Hin as [j Hj]. now apply (H j None).
Qed.

Section Setup_facts.
Context {L : PBlindLib} {SL : PBlindSignerLib L}.

Lemma CreateSetup_loop_Ok pbh key n : forall i signers msgs signers' msgs',
  CreateSetup_loop pbh key n i signers msgs = Ok (signers', msgs') ->
  List.length signers = (i + n)%nat -> List.length msgs = (i + n)%nat ->
  (forall j x, (j < i)%nat -> nth_error signers j = Some x -> x <> None) ->
  (forall j m, (j < i)%nat -> nth_error msgs j = Some m -> m <> None) ->
  List.length signers' = List.length signers /\ List.length msgs' = List.length msgs
  /\ (forall j x, nth_error signers' j = Some x -> x <> None)
  /\ (forall j m, nth_error msgs' j = Some m -> m <> None).
Proof.
  induction n as [|n IH]; intros i signers msgs signers' msgs' Hloop Hs Hm Ps Pm.
  - injection Hloop as <- <-. repeat split; try reflexivity.
    + intros j x Hj. apply (Ps j x); [|exact Hj].
      assert (nth_error signers j <> None) by congruence. apply nth_error_Some in H. lia.
    + intros j m Hj. apply (Pm j m); [|exact Hj].
      assert (nth_error msgs j <> None) by congruence. apply nth_error_Some in H. lia.
  - cbn [CreateSetup_loop] in Hloop.
    destruct (makeInfo pbh _) as [|info]; [discriminate|].
    destruct key as [key|]; [|discriminate].
    destruct (CreateSigner key info) as [|signer]; [discriminate|].
    destruct (signer_CreateMessage1 signer) as [signer1 r].
    destruct r as [|setupMsg]; [discriminate|].
    apply IH in Hloop.
    + destruct Hloop as (H1 & H2 & H3 & H4).
      rewrite update_length in H1. rewrite update_length in H2. auto.
    + rewrite update_length. lia.
    + rewrite update_length. lia.
    + intros j x Hj Hnth. destruct (Nat.eq_dec i j) as [<-|Hne].
      * destruct (nth_error_in_range signers i ltac:(lia)) as [y Hy].
        rewrite (nth_error_update_eq _ _ _ _ Hy) in Hnth. injection Hnth as <-. discriminate.
      * rewrite nth_error_update_neq in Hnth by exact Hne. apply (Ps j x); [lia|exact Hnth].
    + intros j m Hj Hnth. destruct (Nat.eq_dec i j) as [<-|Hne].
      * destruct (nth_error_in_range msgs i ltac:(lia)) as [y Hy].
        rewrite (nth_error_update_eq _ _ _ _ Hy) in Hnth. injection Hnth as <-. discriminate.
      * rewrite nth_error_update_neq in Hnth by exact Hne. apply (Pm j m); [lia|exact Hnth].
Qed.

(** X20: what [CreateSetup] returns.  When it returns no error, the
    setup response holds [BatchSize] messages, none of them nil, and the
    signer state holds [BatchSize] signers, every slot filled: the
    batches have the size and the filled slots that [CreateTokenRequest]
    and [IssueTokens] check for. *)
Theorem CreateSetup_returns_full_batches pbh key state setup :
  CreateSetup pbh key = Ok (state, setup) ->
  len setup = BatchSize (opts pbh) /\ ~ In None setup
  /\ exists signers, filled state = Some signers /\ len signers = BatchSize (opts pbh).
Proof.
  unfold CreateSetup. destruct (Z.ltb_spec (BatchSize (opts pbh)) 0) as [|HB]; [discriminate|].
  intros Hloop.
  apply CreateSetup_loop_Ok in Hloop;
    [|rewrite make_length; lia | rewrite make_length; lia | intros; lia | intros; lia].
  destruct Hloop as (H1 & H2 & H3 & H4). rewrite make_length in H1. rewrite make_length in H2.
  split; [unfold len; lia|]. split; [now apply no_nil_slot|].
  destruct (filled_Some state H3) as (signers & Hf & Hl).
  exists signers. split; [exact Hf|]. unfold len. lia.
Qed.

(** X21: [CreateSetup] on a handler without private key.  A handler made
    from a public key has no private key; with a batch size of at least
    1, once the info of the first token is made, [CreateSetup]
    dereferences the nil key: it panics instead of returning an error. *)
Theorem CreateSetup_without_private_key_panics pbh info :
  0 < BatchSize (opts pbh) ->
  makeInfo pbh 1 = inr info ->
  CreateSetup pbh None = Panic.
Proof.
  intros HB Hinfo. unfold CreateSetup.
  replace (BatchSize (opts pbh) <? 0) with false by (symmetry; apply Z.ltb_ge; lia).
  destruct (Z.to_nat (BatchSize (opts pbh))) as [|n] eqn:Hn; [lia|].
  cbn [CreateSetup_loop]. change (Z.of_nat 0 + 1) with 1. now rewrite Hinfo.
Qed.

End Setup_facts.

Section Issue_facts.
Context {L : PBlindLib}.

Lemma IssueTokens_loop_Ok request n : forall i signers response signers' response',
  IssueTokens_loop request n i signers response = (signers', Ok response') ->
  List.length response = (i + n)%nat ->
  (forall j m, (j < i)%nat -> nth_error response j = Some m -> m <> None) ->
  List.length response' = List.length response
  /\ (forall j m, nth_error response' j = Some m -> m <> None).
Proof.
  induction n as [|n IH]; intros i signers response signers' response' Hloop Hr Pr.
  - injection Hloop as <- <-. split; [reflexivity|].
    intros j m Hj. apply (Pr j m); [|exact Hj].
    assert (nth_error response j <> None) by congruence. apply nth_error_Some in H. lia.
  - cbn [IssueTokens_loop] in Hloop.
    destruct (nth_error request i) as [[msg2|]|]; try (injection Hloop; discriminate).
    destruct (nth_error signers i) as [signer|]; [|injection Hloop; discriminate].
    destruct (signer_ProcessMessage2 signer msg2) as [signer1 e].
    destruct e; [injection Hloop; discriminate|].
    destruct (signer_CreateMessage3 signer1) as [signer2 r].
    destruct r as [|responseMsg]; [injection Hloop; discriminate|].
    apply IH in Hloop.
    + destruct Hloop as (H1 & H2). rewrite update_length in H1. auto.
    + rewrite update_length. lia.
    + intros j m Hj Hnth. destruct (Nat.eq_dec i j) as [<-|Hne].
      * destruct (nth_error_in_range response i ltac:(lia)) as [y Hy].
        rewrite (nth_error_update_eq _ _ _ _ Hy) in Hnth. injection Hnth as <-. discriminate.
      * rewrite nth_error_update_neq in Hnth by exact Hne. apply (Pr j m); [lia|exact Hnth].
Qed.

Lemma ProcessIssuedTokens_loop_errors pbh issued n : forall i fin e,
  ProcessIssuedTokens_loop pbh issued n i fin = Err e ->
  e <> ErrOther "invalid issued token count".
Proof.
  induction n as [|n IH]; intros i fin e Hp; [discriminate|].
  cbn [ProcessIssuedTokens_loop] in Hp.
  destruct (nth_error (requestState pbh) i) as [r|]; [|discriminate].
  destruct (nth_error issued i) as [[m|]|]; try discriminate.
  destruct (rs_State r); [|discriminate].
  destruct (requester_ProcessMessage3 _ _) as [st e']. destruct e'; [injection Hp as <-; discriminate|].
  destruct (requester_Signature _); [injection Hp as <-; discriminate|].
  destruct (makeInfo _ _); [injection Hp as <-; discriminate|].
  destruct (negb _); [injection Hp as <-; discriminate|].
  eapply IH. exact Hp.
Qed.

(** X22: from the issuer back to the requester.  The batch that
    [IssueTokens] returns holds [BatchSize] messages, none of them nil;
    so when the requester's [CreateTokenRequest] returned the request and
    an issuer with the same batch size returned the issued tokens,
    [ProcessIssuedTokens] on the requester does not reject their number
    and does not panic. *)
Theorem issued_batch_is_processed pbh issuer setup rnd req signers issued seed :
  BatchSize (opts issuer) = BatchSize (opts pbh) ->
  snd (CreateTokenRequest pbh setup rnd) = Ok req ->
  snd (IssueTokens issuer signers req) = Ok issued ->
  len issued = BatchSize (opts pbh) /\ ~ In None issued
  /\ snd (ProcessIssuedTokens (fst (CreateTokenRequest pbh setup rnd)) issued seed) <> Panic
  /\ snd (ProcessIssuedTokens (fst (CreateTokenRequest pbh setup rnd)) issued seed)
     <> Err (ErrOther "invalid issued token count").
Proof.
  intros HB Hreq Hiss.
  assert (Hshape : len issued = BatchSize (opts pbh) /\ ~ In None issued).
  { unfold IssueTokens in Hiss.
    destruct (negb (len req =? _)); [discriminate|].
    destruct (negb (len signers =? _)); [discriminate|].
    destruct (IssueTokens_loop _ _ _ _ _) as [sg r] eqn:Hloop. cbn [snd] in Hiss. subst r.
    assert (H0 : 0 <= BatchSize (opts issuer) \/ BatchSize (opts issuer) < 0) by lia.
    apply IssueTokens_loop_Ok in Hloop; [|rewrite make_length; lia | intros; lia].
    destruct Hloop as (H1 & H2). rewrite make_length in H1.
    split; [|now apply no_nil_slot].
    rewrite <- HB. unfold len. rewrite H1.
    unfold CreateTokenRequest in Hreq.
    destruct (Z.eqb_spec (len setup) (BatchSize (opts pbh))) as [Hs|]; [|discriminate].
    assert (Hs0 := len_nonneg setup). lia. }
  destruct Hshape as [Hlen Hnil]. split; [exact Hlen|]. split; [exact Hnil|].
  unfold CreateTokenRequest in *.
  destruct (Z.eqb_spec (len setup) (BatchSize (opts pbh))) as [Hs|]; [|discriminate].
  cbn [negb] in *. assert (Hs0 := len_nonneg setup).
  destruct (CreateTokenRequest_loop _ _ _ _ _ _ _) as [rs r] eqn:Hloop. cbn [snd fst] in *.
  subst r.
  apply CreateTokenRequest_loop_Ok in Hloop;
    [|rewrite make_length; lia | rewrite make_length; lia | intros; lia | intros; lia].
  destruct Hloop as (H1 & H2 & H3 & H4). rewrite make_length in H1.
  unfold ProcessIssuedTokens. cbn [opts with_requestState].
  replace (len issued =? BatchSize (opts pbh)) with true by (symmetry; now apply Z.eqb_eq).
  cbn [negb].
  assert (Hnp := ProcessIssuedTokens_loop_no_panic (with_requestState pbh rs) issued
                   (Z.to_nat (BatchSize (opts pbh))) 0
                   (make (BatchSize (opts pbh)) None)).
  cbn [requestState with_requestState] in Hnp.
  specialize (Hnp ltac:(lia) ltac:(unfold len in Hlen; lia) H3 Hnil).
  destruct (ProcessIssuedTokens_loop _ _ _ _ _) as [out|e|] eqn:Hp; [| |congruence].
  - destruct (RandomizeOrder _); [destruct seed|]; split; discriminate.
  - cbn [snd]. split; [discriminate|].
    intros He. injection He as He. subst e.
    exact (ProcessIssuedTokens_loop_errors _ _ _ _ _ _ Hp eq_refl).
Qed.

End Issue_facts.

Lemma CreateSetup_returns_full_batches_witness :
  let pbh := sampleHandler true 2 [] in
  len [Some tt; Some tt] = BatchSize (opts pbh) /\ ~ In None [Some tt; Some tt]
  /\ exists signers,
       filled [Some 7; Some 7] = Some signers /\ len signers = BatchSize (opts pbh).
Proof.
  intros pbh.
  apply (@CreateSetup_returns_full_batches samplePBlind sampleSigner pbh (Some 7)
           [Some 7; Some 7] [Some tt; Some tt]).
  reflexivity.
Defined.

Lemma CreateSetup_without_private_key_panics_witness :
  @CreateSetup samplePBlind sampleSigner (sampleHandler true 1 []) None = Panic.
Proof.
  eapply (@CreateSetup_without_private_key_panics samplePBlind sampleSigner
            (sampleHandler true 1 [])).
  - reflexivity.
  - reflexivity.
Defined.

Lemma issued_batch_is_processed_witness :
  let pbh := sampleHandler true 2 [] in
  let rnd := fun i => mkDraw [Z.of_nat i] 32 None in
  let requested := fst (CreateTokenRequest pbh [Some tt; Some tt] rnd) in
  len [Some 7; Some 7] = BatchSize (opts pbh) /\ ~ In None [Some 7; Some 7]
  /\ snd (ProcessIssuedTokens requested [Some 7; Some 7] (inr 0)) <> Panic
  /\ snd (ProcessIssuedTokens requested [Some 7; Some 7] (inr 0))
     <> Err (ErrOther "invalid issued token count").
Proof.
  intros pbh rnd requested.
  apply (issued_batch_is_processed pbh pbh [Some tt; Some tt] rnd [Some tt; Some tt]
           [7; 7] [Some 7; Some 7] (inr 0)).
  - reflexivity.
  - reflexivity.
  - reflexivity.
Defined.

End token_setup_facts.
